(** * pyfda.input_widgets.freq_specs: the frequency-specification widget

    A shallow embedding of [FreqSpecs] (src/pyfda/input_widgets/freq_specs.py)
    and the properties of its store, sort, rescale and display operations.

    Numbers.  The values kept in the filter dictionary are Python floats.
    They are modelled by the canonical rationals [Qc]: multiplication,
    division and comparison are exact.  Rounding, overflow and NaN are
    outside this model; where a property turns on rounding, the two
    conversions are also given in binary64 ([f_value_of64],
    [normalized64]).  A division by zero is outside the model as well:
    Python raises [ZeroDivisionError] when both operands are plain numbers
    and gives inf or nan when one is a [numpy.float64], which [Qc] does
    not have.  [py_div] raises; every property about a division assumes
    a divisor other than 0.

    State.  [fb.fil[0]] is one process-wide dictionary.  Its fixed keys
    ('freq_locked', 'f_S', ...) are the fields of [FilterDict]; the frequency
    entries, which the widget addresses through the object names of its
    line edits, are the finite map [entries].  Labels are taken to be the
    names of frequency entries: a line edit named after a fixed key would
    address that key of the one dictionary, which the record keeps apart.
    The widget object itself is
    the record [FreqSpecs].  Methods are computations in a state and
    exception monad: an exception leaves the state as it was when raised. *)

From Stdlib Require Import PrimFloat.
From Stdlib Require Import Ascii String QArith Qcanon Qcabs Lqa.
From stdpp Require Import base numbers strings list gmap sorting pretty.

Abbreviation float := Qc.

(** Line 26 of the source. *)
Definition MIN_FREQ_STEP : float := Q2Qc (1 # 10000).

(** ** Widgets *)

Record QLineEdit := mkQLineEdit {
  objectName : string;
  text : string;
  hasFocus : bool;
  hidden : bool;
  state : string;          (* the style property "state" *)
}.

Record QLabel := mkQLabel {
  lbl_text : string;
  lbl_hidden : bool;
}.

(** A line edit with empty text and a label, as Qt creates them. *)
Definition new_QLineEdit : QLineEdit :=
  mkQLineEdit EmptyString EmptyString false false EmptyString.
Definition new_QLabel : QLabel := mkQLabel EmptyString false.

Definition setObjectName (n : string) (w : QLineEdit) : QLineEdit :=
  mkQLineEdit n (text w) (hasFocus w) (hidden w) (state w).
Definition setText (t : string) (w : QLineEdit) : QLineEdit :=
  mkQLineEdit (objectName w) t (hasFocus w) (hidden w) (state w).
Definition setHidden (h : bool) (w : QLineEdit) : QLineEdit :=
  mkQLineEdit (objectName w) (text w) (hasFocus w) h (state w).
(** [qstyle_widget(w, st)] and [w.setProperty("state", st)] both set the
    property; the former also repolishes the widget, which has no state. *)
Definition qstyle_widget (st : string) (w : QLineEdit) : QLineEdit :=
  mkQLineEdit (objectName w) (text w) (hasFocus w) (hidden w) st.

Definition lbl_setText (t : string) (l : QLabel) : QLabel :=
  mkQLabel t (lbl_hidden l).
Definition lbl_setHidden (h : bool) (l : QLabel) : QLabel :=
  mkQLabel (lbl_text l) h.

(** ** The filter dictionary [fb.fil[0]] *)

Record FilterDict := mkFilterDict {
  freq_locked : bool;
  freq_specs_sort : bool;
  f_S : float;
  f_S_prev : float;
  plt_fUnit : string;
  freq_specs_unit : string;
  entries : gmap string Qc;
}.

Definition set_entries (e : gmap string Qc) (d : FilterDict) : FilterDict :=
  mkFilterDict (freq_locked d) (freq_specs_sort d) (f_S d) (f_S_prev d)
               (plt_fUnit d) (freq_specs_unit d) e.

(** ** Signals and log records *)

Record dict_sig := mkSig {
  sig_id : nat;                       (* dict_sig['id'] *)
  view_changed : option string;       (* dict_sig.get('view_changed') *)
}.

Inductive warning :=
  | Warn_not_positive (name : string)     (* "Frequency ... has to be >= 0" *)
  | Warn_nyquist (name : string)          (* "... has to be < f_S /2." *)
  | Warn_min_step (step : float).         (* "Frequencies must differ by ..." *)

(** ** The widget object *)

Record FreqSpecs := mkFreqSpecs {
  self_id : nat;
  qlabels : list QLabel;
  qlineedit : list QLineEdit;
  n_cur_labels : nat;
  spec_edited : bool;
  data_prev : option string;     (* unset until the first FocusIn *)
  lblUnit : string;
  fil : FilterDict;
  sig_tx : list (string * string);
  log : list warning;
}.

Definition with_qlabels (f : list QLabel → list QLabel) (s : FreqSpecs) :=
  mkFreqSpecs (self_id s) (f (qlabels s)) (qlineedit s) (n_cur_labels s)
    (spec_edited s) (data_prev s) (lblUnit s) (fil s) (sig_tx s) (log s).
Definition with_qlineedit (f : list QLineEdit → list QLineEdit) (s : FreqSpecs) :=
  mkFreqSpecs (self_id s) (qlabels s) (f (qlineedit s)) (n_cur_labels s)
    (spec_edited s) (data_prev s) (lblUnit s) (fil s) (sig_tx s) (log s).
Definition with_n_cur_labels (n : nat) (s : FreqSpecs) :=
  mkFreqSpecs (self_id s) (qlabels s) (qlineedit s) n
    (spec_edited s) (data_prev s) (lblUnit s) (fil s) (sig_tx s) (log s).
Definition with_spec_edited (b : bool) (s : FreqSpecs) :=
  mkFreqSpecs (self_id s) (qlabels s) (qlineedit s) (n_cur_labels s)
    b (data_prev s) (lblUnit s) (fil s) (sig_tx s) (log s).
Definition with_data_prev (t : string) (s : FreqSpecs) :=
  mkFreqSpecs (self_id s) (qlabels s) (qlineedit s) (n_cur_labels s)
    (spec_edited s) (Some t) (lblUnit s) (fil s) (sig_tx s) (log s).
Definition with_lblUnit (t : string) (s : FreqSpecs) :=
  mkFreqSpecs (self_id s) (qlabels s) (qlineedit s) (n_cur_labels s)
    (spec_edited s) (data_prev s) t (fil s) (sig_tx s) (log s).
Definition with_fil (f : FilterDict → FilterDict) (s : FreqSpecs) :=
  mkFreqSpecs (self_id s) (qlabels s) (qlineedit s) (n_cur_labels s)
    (spec_edited s) (data_prev s) (lblUnit s) (f (fil s)) (sig_tx s) (log s).
Definition with_sig_tx (f : list (string * string) → list (string * string))
    (s : FreqSpecs) :=
  mkFreqSpecs (self_id s) (qlabels s) (qlineedit s) (n_cur_labels s)
    (spec_edited s) (data_prev s) (lblUnit s) (fil s) (f (sig_tx s)) (log s).
Definition with_log (f : list warning → list warning) (s : FreqSpecs) :=
  mkFreqSpecs (self_id s) (qlabels s) (qlineedit s) (n_cur_labels s)
    (spec_edited s) (data_prev s) (lblUnit s) (fil s) (sig_tx s) (f (log s)).

(** ** The state and exception monad *)

Inductive exc :=
  | KeyError (k : string)
  | IndexError
  | ZeroDivisionError
  | AttributeError (a : string).

Inductive outcome (A : Type) :=
  | Ok (a : A) (s : FreqSpecs)
  | Raise (e : exc) (s : FreqSpecs).
Arguments Ok {A} a s.
Arguments Raise {A} e s.

Definition final {A} (o : outcome A) : FreqSpecs :=
  match o with Ok _ s => s | Raise _ s => s end.

Definition completes {A} (o : outcome A) : bool :=
  match o with Ok _ _ => true | Raise _ _ => false end.

Definition M (A : Type) : Type := FreqSpecs → outcome A.

Definition raise {A} (e : exc) : M A := λ s, Raise e s.
Definition get : M FreqSpecs := λ s, Ok s s.
Definition modify (f : FreqSpecs → FreqSpecs) : M unit := λ s, Ok tt (f s).

#[global] Instance M_ret : MRet M := λ A a s, Ok a s.
#[global] Instance M_bind : MBind M := λ A B k m s,
  match m s with Ok a s' => k a s' | Raise e s' => Raise e s' end.

(** [for x in l: body(x)] *)
Fixpoint for_each {A} (l : list A) (body : A → M unit) : M unit :=
  match l with
  | [] => mret tt
  | x :: l' => body x;; for_each l' body
  end.

(** [range(a, b)] *)
Definition range (a b : nat) : list nat := seq a (b - a).

(** [[f(x) for x in l]] *)
Fixpoint list_comp {A B} (l : list A) (f : A → M B) : M (list B) :=
  match l with
  | [] => mret []
  | x :: l' => y ← f x; ys ← list_comp l' f; mret (y :: ys)
  end.

(** ** Python primitives *)

(** [x / y] on floats, for [y] other than 0.  At [y = 0] the model
    raises, as Python does for plain numbers; with a [numpy.float64]
    operand Python continues with inf or nan, which the model does not
    follow. *)
Definition py_div (x y : float) : M float :=
  if decide (y = Q2Qc 0) then raise ZeroDivisionError else mret (x / y)%Qc.

(** [s.split(":", 1)[0]]: the part of [s] before the first colon. *)
Fixpoint split_colon (s : string) : string :=
  match s with
  | EmptyString => EmptyString
  | String c s' => if Ascii.eqb c ":"%char then EmptyString
                   else String c (split_colon s')
  end.

(** [fb.fil[0][k]] for a frequency entry. *)
Definition fil_get (k : string) : M float :=
  λ s, match entries (fil s) !! k with
       | Some v => Ok v s
       | None => Raise (KeyError k) s
       end.

(** [fb.fil[0].update({k: v})] and [fb.fil[0][k] = v]. *)
Definition fil_update (k : string) (v : float) : M unit :=
  modify (with_fil (λ d, set_entries (<[k := v]> (entries d)) d)).

(** [self.qlineedit[i]] and [self.qlabels[i]] *)
Definition qlineedit_at (i : nat) : M QLineEdit :=
  λ s, match qlineedit s !! i with
       | Some w => Ok w s
       | None => Raise IndexError s
       end.
Definition qlabels_at (i : nat) : M QLabel :=
  λ s, match qlabels s !! i with
       | Some l => Ok l s
       | None => Raise IndexError s
       end.

(** A method call on the widget object [self.qlineedit[i]]. *)
Definition on_qlineedit (i : nat) (f : QLineEdit → QLineEdit) : M unit :=
  _ ← qlineedit_at i; modify (with_qlineedit (alter f i)).
Definition on_qlabel (i : nat) (f : QLabel → QLabel) : M unit :=
  _ ← qlabels_at i; modify (with_qlabels (alter f i)).

Definition emit (k v : string) : M unit :=
  modify (with_sig_tx (λ l, l ++ [(k, v)])).
Definition logger_warning (w : warning) : M unit :=
  modify (with_log (λ l, l ++ [w])).

(** [c.lower()] for one character of an ASCII label, and
    [re.sub(r'[fF]', c, s)]. *)
Definition lower (c : ascii) : ascii :=
  let n := nat_of_ascii c in
  if decide (65 ≤ n ∧ n ≤ 90) then ascii_of_nat (n + 32) else c.

Fixpoint re_sub_fF (c : ascii) (s : string) : string :=
  match s with
  | EmptyString => EmptyString
  | String a s' =>
      String (if Ascii.eqb a "f"%char || Ascii.eqb a "F"%char then c else a)
             (re_sub_fF c s')
  end.

(** [u in {"f_S", "f_Ny"}] *)
Definition relative_unit (u : string) : bool :=
  bool_decide (u = "f_S" ∨ u = "f_Ny").

(** ** Near-duplicate detection *)

(** [collision tol a b]: the two values are closer than [tol]. *)
Definition collision (tol a b : float) : Prop := (Qcabs (a - b) < tol)%Qc.

#[global] Instance collision_dec tol a b : Decision (collision tol a b).
Proof. unfold collision. apply _. Defined.

(** Modelled from the spec: [unique_roots] of pyfda.libs.pyfda_lib, which
    line 19 imports and which is not in src/.  Section 4.3: near-duplicate
    detection "is done by sorting the values, then comparing consecutive
    gaps, grouping together any run where consecutive gaps are all below the
    threshold".  [runs tol l] cuts a list into its maximal runs; the
    function returns one representative (the smallest member) and the
    multiplicity of every run of the sorted input. *)
Fixpoint runs (tol : float) (l : list float) : list (list float) :=
  match l with
  | [] => []
  | x :: l' =>
      match runs tol l' with
      | (y :: g) :: gs =>
          if decide (collision tol x y) then (x :: y :: g) :: gs
          else [x] :: (y :: g) :: gs
      | _ => [[x]]
      end
  end.

Definition unique_roots (p : list float) (tol : float)
    : list float * list nat :=
  let gs := runs tol (merge_sort Qcle p) in
  (omap head gs, length <$> gs).

(** [[x for x in mult if x > 1]] *)
Definition ident_of (mult : list nat) : list nat :=
  filter (λ x, 1 < x) mult.

(** ** The methods of [FreqSpecs] *)

Inductive Key := Key_Return | Key_Enter | Key_Escape | Key_other.
Inductive QEvent := FocusIn | KeyPress (key : Key) | FocusOut | OtherEvent.

Section methods.
(** Functions the module imports from the rest of pyfda and from Python,
    whose code is not in src/: [safe_eval(expr, alt_expr, sign='pos')]
    (the evaluated number, which line 160 divides by f_S), [str(x)] and
    [params['FMT'].format(x)] on floats, and [to_html(text, frmt)]. *)
Variable safe_eval : string → string → float.
Variable py_str : float → string.
Variable FMT_format : float → string.
Variable to_html : string → string → string.

(** Line 258: the number that [update_f_display] shows. *)
Definition f_value_of (normalized fS : float) : float := (normalized * fS)%Qc.

(** Lines 248-284.  [source] is the position of the widget in
    [self.qlineedit]; the event filter is installed on these only. *)
Definition update_f_display (source : nat) : M unit :=
  w ← qlineedit_at source;
  let f_label := split_colon (objectName w) in
  v ← fil_get f_label;
  s ← get;
  let f_value := f_value_of v (f_S (fil s)) in
  (if hasFocus w
   then on_qlineedit source (setText (py_str f_value))
   else on_qlineedit source (setText (FMT_format f_value)));;
  if decide (v ≤ Q2Qc 0)%Qc then
    logger_warning (Warn_not_positive (objectName w));;
    on_qlineedit source (qstyle_widget "failed")
  else if decide (Q2Qc (1 # 2) ≤ v)%Qc then
    logger_warning (Warn_nyquist (objectName w));;
    on_qlineedit source (qstyle_widget "failed")
  else
    on_qlineedit source (qstyle_widget "normal").

(** Lines 287-319. *)
Definition load_dict : M unit :=
  s ← get;
  for_each (range 0 (length (qlineedit s))) (λ i,
    update_f_display i;;
    l ← qlabels_at i;
    s ← get;
    let lbl_text :=
      if relative_unit (freq_specs_unit (fil s))
      then re_sub_fF "F" (lbl_text l)
      else re_sub_fF "f" (lbl_text l) in
    on_qlabel i (lbl_setText lbl_text)).

(** Lines 219-245. *)
Definition recalc_freqs : M unit :=
  s ← get;
  (if freq_locked (fil s) then
     for_each (range 0 (length (qlineedit s))) (λ i,
       w ← qlineedit_at i;
       let f_label := split_colon (objectName w) in
       v ← fil_get f_label;
       s ← get;
       f_value ← py_div (v * f_S_prev (fil s))%Qc (f_S (fil s));
       fil_update f_label f_value);;
     emit "specs_changed" "f_specs"
   else mret tt);;
  load_dict;;
  s ← get;
  let unit := plt_fUnit (fil s) in
  let unit_frmt := if relative_unit unit then "bi" else "b" in
  modify (with_lblUnit (" in " +:+ to_html unit unit_frmt)).

(** Lines 365-412. *)
Definition sort_dict_freqs : M unit :=
  s ← get;
  f_specs ← list_comp (range 0 (n_cur_labels s)) (λ i,
               w ← qlineedit_at i; fil_get (objectName w));
  s ← get;
  let f_specs :=
    if freq_specs_sort (fil s) then merge_sort Qcle f_specs else f_specs in
  for_each (range 0 (n_cur_labels s)) (λ i,
    match f_specs !! i with
    | None => raise IndexError
    | Some v => w ← qlineedit_at i; fil_update (objectName w) v
    end);;
  let mult := (unique_roots f_specs MIN_FREQ_STEP).2 in
  (if ident_of mult is [] then mret tt
   else s ← get;
        logger_warning (Warn_min_step (MIN_FREQ_STEP * f_S (fil s))%Qc));;
  load_dict.

(** Lines 149-167. *)
Definition _store_entry (event_source : nat) : M unit :=
  s ← get;
  if spec_edited s then
    w ← qlineedit_at event_source;
    let f_label := objectName w in
    prev ← (match data_prev s with
            | Some t => mret t
            | None => raise (AttributeError "data_prev")
            end);
    f_value ← py_div (safe_eval (text w) prev) (f_S (fil s));
    fil_update f_label f_value;;
    sort_dict_freqs;;
    emit "specs_changed" "f_specs";;
    modify (with_spec_edited false)
  else
    update_f_display event_source.

(** Lines 115-146.  The result of the base class method is not modelled. *)
Definition eventFilter (source : nat) (event : QEvent) : M unit :=
  match event with
  | FocusIn =>
      modify (with_spec_edited false);;
      w ← qlineedit_at source;
      modify (with_data_prev (text w));;
      update_f_display source
  | KeyPress key =>
      modify (with_spec_edited true);;
      match key with
      | Key_Return | Key_Enter => _store_entry source
      | Key_Escape =>
          modify (with_spec_edited false);;
          update_f_display source
      | Key_other => mret tt
      end
  | FocusOut => _store_entry source
  | OtherEvent => mret tt
  end.

(** Lines 322-362.  Installing the event filter and placing the widgets
    in the grid change no modelled state. *)
Definition _show_entries (num_new_labels : nat) : M unit :=
  s ← get;
  let num_tot_labels := length (qlabels s) in
  if decide (num_new_labels < n_cur_labels s) then
    for_each (range num_new_labels num_tot_labels) (λ i,
      on_qlabel i (lbl_setHidden true);;
      on_qlineedit i (setHidden true))
  else if decide (num_new_labels ≤ num_tot_labels) then
    for_each (range (n_cur_labels s) num_new_labels) (λ i,
      on_qlabel i (lbl_setHidden false);;
      on_qlineedit i (setHidden false))
  else
    for_each (range num_tot_labels num_new_labels) (λ i,
      modify (with_qlabels (λ l, l ++ [new_QLabel]));;
      on_qlabel i (lbl_setText (to_html "dummy" "bi"));;
      modify (with_qlineedit (λ l, l ++ [new_QLineEdit]));;
      on_qlineedit i (setObjectName "dummy")).

(** Lines 170-216.  Tool tips are not modelled. *)
Definition update_UI (new_labels : list string) : M unit :=
  match new_labels with
  | [] => raise IndexError
  | state :: new_labels =>
      let num_new_labels := length new_labels in
      _show_entries num_new_labels;;
      for_each (range 0 num_new_labels) (λ i,
        match new_labels !! i with
        | None => raise IndexError
        | Some lab =>
            _ ← qlabels_at i;
            match lab with
            | EmptyString => raise IndexError
            | String c rest =>
                on_qlabel i (lbl_setText (to_html (String (lower c) rest) "bi"))
            end;;
            _ ← qlineedit_at i;
            v ← fil_get lab;
            on_qlineedit i (setText (py_str v));;
            on_qlineedit i (setObjectName lab);;
            on_qlineedit i (qstyle_widget state)
        end);;
      modify (with_n_cur_labels num_new_labels);;
      sort_dict_freqs
  end.

(** Lines 51-60. *)
Definition process_sig_rx (d : dict_sig) : M unit :=
  s ← get;
  if decide (sig_id d = self_id s) then mret tt
  else if decide (view_changed d = Some "f_S") then recalc_freqs
  else mret tt.

(** Lines 38-48 and 63-97: the widget after construction. *)
Definition init (id : nat) (d : FilterDict) : FreqSpecs :=
  mkFreqSpecs id [] [] 0 false None
    ("in " +:+ to_html (freq_specs_unit d) "bi") d [] [].

End methods.

(** ** The two conversions in binary64 *)



(** * Vocabulary of the properties *)

(** ** What a display refresh may change *)

(** [same_shape s s']: the widgets are the same objects with the same names,
    focus and visibility; only texts and style states may differ. *)
Record same_shape (s s' : FreqSpecs) : Prop := mk_same_shape {
  shape_names : objectName <$> qlineedit s' = objectName <$> qlineedit s;
  shape_focus : hasFocus <$> qlineedit s' = hasFocus <$> qlineedit s;
  shape_hidden : hidden <$> qlineedit s' = hidden <$> qlineedit s;
  shape_labels : lbl_hidden <$> qlabels s' = lbl_hidden <$> qlabels s;
  shape_n_cur : n_cur_labels s' = n_cur_labels s;
  shape_edited : spec_edited s' = spec_edited s;
  shape_prev : data_prev s' = data_prev s;
  shape_id : self_id s' = self_id s;
}.

(** [display_only s s']: moreover nothing is stored or emitted, and the
    log has only grown. *)
Record display_only (s s' : FreqSpecs) : Prop := mk_display_only {
  disp_fil : fil s' = fil s;
  disp_sig_tx : sig_tx s' = sig_tx s;
  disp_log : log s `prefix_of` log s';
  disp_shape : same_shape s s';
}.

(** A line edit method that keeps name, focus and visibility. *)
Definition cosmetic (f : QLineEdit → QLineEdit) : Prop :=
  ∀ w, objectName (f w) = objectName w ∧ hasFocus (f w) = hasFocus w
       ∧ hidden (f w) = hidden w.

(** [displayable s]: every line edit has a label widget and a stored value. *)
Definition displayable (s : FreqSpecs) : Prop :=
  length (qlineedit s) ≤ length (qlabels s)
  ∧ Forall (λ n, is_Some (entries (fil s) !! split_colon n))
           (objectName <$> qlineedit s).

#[global] Instance displayable_dec s : Decision (displayable s).
Proof. unfold displayable. apply _. Defined.

(** The text [update_f_display] writes into a line edit. *)
Definition shown_text (py_str FMT_format : float → string)
    (w : QLineEdit) (v fS : float) : string :=
  if hasFocus w then py_str (f_value_of v fS)
  else FMT_format (f_value_of v fS).

(** ** The rescale loop of [recalc_freqs] *)

(** Line 228 and its effect on the stored values when it is run for a list
    of labels, one after the other. *)
Definition rescale (p fS v : float) : float := (v * p / fS)%Qc.

Definition rescale_all (p fS : float) (labels : list string)
    (E : gmap string Qc) : gmap string Qc :=
  foldl (λ E l, alter (rescale p fS) l E) E labels.

(** The labels recalc_freqs and update_f_display derive from the names. *)
Definition widget_labels (s : FreqSpecs) : list string :=
  (λ w, split_colon (objectName w)) <$> qlineedit s.

(** ** The read, sort and write-back of [sort_dict_freqs] *)

(** The visible line edits, their names and their stored values. *)
Definition active (s : FreqSpecs) : list QLineEdit :=
  take (n_cur_labels s) (qlineedit s).

Definition active_names (s : FreqSpecs) : list string :=
  objectName <$> active s.

Definition entry (E : gmap string Qc) (k : string) : float :=
  default (Q2Qc 0) (E !! k).

Definition active_values (s : FreqSpecs) : list float :=
  (λ w, entry (entries (fil s)) (objectName w)) <$> active s.

(** Lines 384-385. *)
Definition sorted_if (b : bool) (f_specs : list float) : list float :=
  if b then merge_sort Qcle f_specs else f_specs.

(** Lines 387-388: slot [i] of [f_specs] is stored under the name of the
    [i]-th line edit. *)
Definition write_back (ws : list QLineEdit) (f_specs : list float)
    (E : gmap string Qc) : gmap string Qc :=
  foldl (λ E wv, <[objectName wv.1 := wv.2]> E) E (zip ws f_specs).

(** Lines 407-411. *)
Definition separation_warning (f_specs : list float) (fS : float)
    : list warning :=
  if ident_of (unique_roots f_specs MIN_FREQ_STEP).2 is [] then []
  else [Warn_min_step (MIN_FREQ_STEP * fS)%Qc].

(** [sortable s]: the visible line edits exist and their names are stored. *)
Definition sortable (s : FreqSpecs) : Prop :=
  n_cur_labels s ≤ length (qlineedit s)
  ∧ Forall (λ k, is_Some (entries (fil s) !! k)) (active_names s).

#[global] Instance sortable_dec s : Decision (sortable s).
Proof. unfold sortable. apply _. Defined.

(** What [sort_dict_freqs] has stored and logged when it reaches its last
    line, the call of [load_dict]. *)
Definition sort_stored (s : FreqSpecs) : FreqSpecs :=
  let f_specs := sorted_if (freq_specs_sort (fil s)) (active_values s) in
  with_log (λ l, l ++ separation_warning f_specs (f_S (fil s)))
    (with_fil (set_entries (write_back (active s) f_specs (entries (fil s))))
              s).

(** ** Committing an edit *)

(** Lines 160-162: the state after the new value has been stored. *)
Definition stored (k : string) (v : float) (s : FreqSpecs) : FreqSpecs :=
  with_fil (λ d, set_entries (<[k := v]> (entries d)) d) s.

(** ** Near-duplicate groups *)

(** Two neighbours of a list are closer than [tol]. *)
Definition adjacent_collision (tol : float) (l : list float) : Prop :=
  ∃ i x y, l !! i = Some x ∧ l !! S i = Some y ∧ collision tol x y.

(** Every gap inside a group is below the threshold. *)
Fixpoint linked (tol : float) (g : list float) : Prop :=
  match g with
  | x :: (y :: _) as g' => collision tol x y ∧ linked tol g'
  | _ => True
  end.

(** The gap between a group and the next one is not. *)
Fixpoint separated (tol : float) (gs : list (list float)) : Prop :=
  match gs with
  | g1 :: (g2 :: _) as gs' =>
      (∀ x y, last g1 = Some x → head g2 = Some y → ¬ collision tol x y)
      ∧ separated tol gs'
  | _ => True
  end.

(** Two entries at different positions are closer than [tol]. *)
Definition close_pair (tol : float) (p : list float) : Prop :=
  ∃ i j a b, i ≠ j ∧ p !! i = Some a ∧ p !! j = Some b ∧ collision tol a b.

(** The check of lines 407-409 finds a multiplicity above one. *)
Definition flagged (p : list float) (tol : float) : Prop :=
  ident_of (unique_roots p tol).2 ≠ [].

(** * Vocabulary of the further properties *)

(** ** What a method leaves as it is *)

(** [preserves R m]: whatever the outcome of [m], result or exception, the
    state it leaves is related to the state it started from. *)
Definition preserves (R : relation FreqSpecs) {A} (m : M A) : Prop :=
  ∀ s, R s (final (m s)).

(** What no method undoes: stored entries stay stored, widgets are not
    destroyed, the emitted signals and the log are only extended. *)
Record grows (s s' : FreqSpecs) : Prop := mk_grows {
  grows_dom : dom (entries (fil s)) ⊆ dom (entries (fil s'));
  grows_qlineedit : length (qlineedit s) ≤ length (qlineedit s');
  grows_qlabels : length (qlabels s) ≤ length (qlabels s');
  grows_sig_tx : sig_tx s `prefix_of` sig_tx s';
  grows_log : log s `prefix_of` log s';
  grows_id : self_id s' = self_id s;
}.

(** The filter dictionary and the emitted signals are untouched. *)
Definition untouched (s s' : FreqSpecs) : Prop :=
  fil s' = fil s ∧ sig_tx s' = sig_tx s.

(** ** Events, signals and what the display shows *)

(** The events that only refresh the display. *)
Definition refreshes (e : QEvent) (s : FreqSpecs) : Prop :=
  e = FocusIn ∨ e = KeyPress Key_Escape ∨ e = KeyPress Key_other
  ∨ e = OtherEvent ∨ (e = FocusOut ∧ spec_edited s = false).

(** The signals that do not rescale. *)
Definition not_rescaling (d : dict_sig) (s : FreqSpecs) : Prop :=
  sig_id d = self_id s ∨ view_changed d ≠ Some "f_S"
  ∨ freq_locked (fil s) = false.

(** Lines 273-282: the value lies strictly between 0 and 1/2. *)
Definition in_range (v : float) : Prop :=
  (Q2Qc 0 < v)%Qc ∧ (v < Q2Qc (1 # 2))%Qc.

(** The warning lines 273-280 log for a value, if any.  Of the records the
    module sends to [logger.warning], [log] holds the range warnings and
    the separation warning; the trace records of lines 156, 230, 262, 267
    and 378, which do not depend on a check, are left out. *)
Definition range_warning (name : string) (v : float) : list warning :=
  if decide (v ≤ Q2Qc 0)%Qc then [Warn_not_positive name]
  else if decide (Q2Qc (1 # 2) ≤ v)%Qc then [Warn_nyquist name]
  else [].

(** The signal of lines 164 and 233. *)
Definition specs_changed : string * string := ("specs_changed", "f_specs").

(** Qt puts the typed text [t] into line edit [i]. *)
Definition type_text (i : nat) (t : string) (s : FreqSpecs) : FreqSpecs :=
  with_qlineedit (alter (setText t) i) s.

(** A line edit shows what is stored for it: its text is the stored value
    times [f_S], in the form its focus asks for, and its style state tells
    whether the value lies in (0, 1/2). *)
Definition shows_stored (py_str FMT_format : float → string)
    (d : FilterDict) (w : QLineEdit) : Prop :=
  let v := entry (entries d) (split_colon (objectName w)) in
  text w = shown_text py_str FMT_format w v (f_S d)
  ∧ state w = if decide (in_range v) then "normal" else "failed".

(** The display agrees with the store on every line edit. *)
Definition consistent (py_str FMT_format : float → string)
    (s : FreqSpecs) : Prop :=
  Forall (shows_stored py_str FMT_format (fil s)) (qlineedit s).

#[global] Instance shows_stored_dec py_str FMT_format d w :
  Decision (shows_stored py_str FMT_format d w).
Proof. unfold shows_stored. apply _. Defined.

#[global] Instance consistent_dec py_str FMT_format s :
  Decision (consistent py_str FMT_format s).
Proof. unfold consistent. apply _. Defined.

(** ** Showing, creating and naming widgets *)

(** [f j] applied to the elements at the positions [a ≤ j < b]. *)
Definition on_range {A} (f : nat → A → A) (a b : nat) (l : list A) : list A :=
  imap (λ j x, if decide (a ≤ j ∧ j < b) then f j x else x) l.

(** Lines 342-344 and 347-349: the widgets at positions [a ≤ j < b] hidden
    ([h] true) or shown. *)
Definition set_visibility (h : bool) (a b : nat) (s : FreqSpecs) : FreqSpecs :=
  with_qlineedit (on_range (λ _, setHidden h) a b)
    (with_qlabels (on_range (λ _, lbl_setHidden h) a b) s).

(** Lines 352-357: [k] new labels and line edits, all called dummy. *)
Definition dummy_edit : QLineEdit := setObjectName "dummy" new_QLineEdit.
Definition dummy_label (to_html : string → string → string) : QLabel :=
  lbl_setText (to_html "dummy" "bi") new_QLabel.
Definition add_widgets (to_html : string → string → string) (k : nat)
    (s : FreqSpecs) : FreqSpecs :=
  with_qlineedit (λ l, l ++ replicate k dummy_edit)
    (with_qlabels (λ l, l ++ replicate k (dummy_label to_html)) s).

(** The three cases of [_show_entries]. *)
Definition shown_entries (to_html : string → string → string) (n : nat)
    (s : FreqSpecs) : FreqSpecs :=
  let tot := length (qlabels s) in
  if decide (n < n_cur_labels s) then set_visibility true n tot s
  else if decide (n ≤ tot) then set_visibility false (n_cur_labels s) n s
  else add_widgets to_html (n - tot) s.

(** Lines 199-203 for one label. *)
Definition lower_first (lab : string) : string :=
  match lab with
  | EmptyString => EmptyString
  | String c rest => String (lower c) rest
  end.
Definition name_edit (py_str : float → string) (state : string)
    (E : gmap string Qc) (labels : list string) (j : nat) (w : QLineEdit)
    : QLineEdit :=
  match labels !! j with
  | Some lab =>
      qstyle_widget state (setObjectName lab (setText (py_str (entry E lab)) w))
  | None => w
  end.
Definition name_label (to_html : string → string → string)
    (labels : list string) (j : nat) (l : QLabel) : QLabel :=
  match labels !! j with
  | Some lab => lbl_setText (to_html (lower_first lab) "bi") l
  | None => l
  end.

(** The first [k] widgets named after the labels. *)
Definition named (py_str : float → string) (to_html : string → string → string)
    (state : string) (labels : list string) (k : nat) (s : FreqSpecs)
    : FreqSpecs :=
  with_qlineedit (on_range (name_edit py_str state (entries (fil s)) labels) 0 k)
    (with_qlabels (on_range (name_label to_html labels) 0 k) s).

(** A label [update_UI] can take: it is not empty and a value is stored
    under it, as [sort_dict_freqs] reads it, and under its part before the
    colon, as [update_f_display] reads it. *)
Definition label_ok (E : gmap string Qc) (lab : string) : Prop :=
  lab ≠ EmptyString ∧ is_Some (E !! lab) ∧ is_Some (E !! split_colon lab).

#[global] Instance label_ok_dec E lab : Decision (label_ok E lab).
Proof. unfold label_ok. apply _. Defined.

(** Every line edit has its label widget, the visible ones exist, and every
    line edit has a stored value. *)
Definition well_formed (s : FreqSpecs) : Prop :=
  length (qlabels s) = length (qlineedit s)
  ∧ n_cur_labels s ≤ length (qlineedit s)
  ∧ displayable s.

#[global] Instance well_formed_dec s : Decision (well_formed s).
Proof. unfold well_formed. apply _. Defined.

(** The widget when [update_UI] reaches its last line, the call of
    [sort_dict_freqs]. *)
Definition relabelled (py_str : float → string)
    (to_html : string → string → string) (state : string)
    (labels : list string) (s : FreqSpecs) : FreqSpecs :=
  with_n_cur_labels (length labels)
    (named py_str to_html state labels (length labels)
       (shown_entries to_html (length labels) s)).

(** ** Visibility and layout *)

(** Exactly the active line edits are visible: the first [n_cur_labels]
    are shown and all behind them are hidden. *)
Definition tidy (s : FreqSpecs) : Prop :=
  hidden <$> qlineedit s
  = replicate (n_cur_labels s) false
    ++ replicate (length (qlineedit s) - n_cur_labels s) true.

#[global] Instance tidy_dec s : Decision (tidy s).
Proof. unfold tidy. apply _. Defined.

(** The widget when the loop of [update_UI] finds no stored value for
    the label at position [i]: the line edits before it are renamed and
    the label widget [i] has its new text. *)
Definition partly_named (py_str : float → string)
    (to_html : string → string → string) (state : string)
    (labels : list string) (i : nat) (lab : string) (s : FreqSpecs)
    : FreqSpecs :=
  with_qlabels (alter (lbl_setText (to_html (lower_first lab) "bi")) i)
    (named py_str to_html state labels i
       (shown_entries to_html (length labels) s)).

(** The line edits and labels are the same objects with the same names,
    focus and visibility, and as many of them are active. *)
Record same_layout (s s' : FreqSpecs) : Prop := mk_same_layout {
  layout_names : objectName <$> qlineedit s' = objectName <$> qlineedit s;
  layout_focus : hasFocus <$> qlineedit s' = hasFocus <$> qlineedit s;
  layout_hidden : hidden <$> qlineedit s' = hidden <$> qlineedit s;
  layout_labels : lbl_hidden <$> qlabels s' = lbl_hidden <$> qlabels s;
  layout_n_cur : n_cur_labels s' = n_cur_labels s;
}.

(** Every line edit has its label widget and the active ones exist. *)
Definition paired (s : FreqSpecs) : Prop :=
  length (qlabels s) = length (qlineedit s)
  ∧ n_cur_labels s ≤ length (qlineedit s).

#[global] Instance paired_dec s : Decision (paired s).
Proof. unfold paired. apply _. Defined.

(** A step that keeps a paired widget with at least [n] line edits so. *)
Definition stays_paired (n : nat) (s s' : FreqSpecs) : Prop :=
  paired s ∧ n ≤ length (qlineedit s) →
  paired s' ∧ n ≤ length (qlineedit s').

(** ** Reachable states *)

(** Qt moves the focus to or away from a line edit. *)
Definition setFocus (b : bool) (w : QLineEdit) : QLineEdit :=
  mkQLineEdit (objectName w) (text w) b (hidden w) (state w).

(** The states of the widget in a running program: it is constructed,
    its three entry points are called with any arguments and end with a
    result or an exception, and between the calls other code writes the
    shared filter dictionary and the user types into a line edit or moves
    the focus. *)
Inductive reachable (safe_eval : string → string → float)
    (py_str FMT_format : float → string)
    (to_html : string → string → string) : FreqSpecs → Prop :=
  | reach_init id d : reachable safe_eval py_str FMT_format to_html
                        (init to_html id d)
  | reach_eventFilter s i e :
      reachable safe_eval py_str FMT_format to_html s →
      reachable safe_eval py_str FMT_format to_html
        (final (eventFilter safe_eval py_str FMT_format i e s))
  | reach_process_sig_rx s d :
      reachable safe_eval py_str FMT_format to_html s →
      reachable safe_eval py_str FMT_format to_html
        (final (process_sig_rx py_str FMT_format to_html d s))
  | reach_update_UI s new_labels :
      reachable safe_eval py_str FMT_format to_html s →
      reachable safe_eval py_str FMT_format to_html
        (final (update_UI py_str FMT_format to_html new_labels s))
  | reach_fil s f :
      reachable safe_eval py_str FMT_format to_html s →
      reachable safe_eval py_str FMT_format to_html (with_fil f s)
  | reach_typed s i t :
      reachable safe_eval py_str FMT_format to_html s →
      reachable safe_eval py_str FMT_format to_html (type_text i t s)
  | reach_focus s i b :
      reachable safe_eval py_str FMT_format to_html s →
      reachable safe_eval py_str FMT_format to_html
        (with_qlineedit (alter (setFocus b) i) s).

(** ** What [load_dict] writes *)

(** Lines 258-282 for one line edit: the text and the style state are
    computed from the name, the focus and the filter dictionary; the text
    and the style state the line edit had are overwritten. *)
Definition refresh (py_str FMT_format : float → string) (d : FilterDict)
    (w : QLineEdit) : QLineEdit :=
  let v := entry (entries d) (split_colon (objectName w)) in
  qstyle_widget (if decide (in_range v) then "normal" else "failed")
    (setText (shown_text py_str FMT_format w v (f_S d)) w).

(** The range warnings of a list of line edits, in their order. *)
Definition range_warnings (d : FilterDict) (ws : list QLineEdit)
    : list warning :=
  ws ≫= λ w, range_warning (objectName w)
               (entry (entries d) (split_colon (objectName w))).

(** Lines 313-319: every f and F of the label text gets the case of the
    unit. *)
Definition unit_case (d : FilterDict) : ascii :=
  if relative_unit (freq_specs_unit d) then "F"%char else "f"%char.

Definition recase (d : FilterDict) (l : QLabel) : QLabel :=
  lbl_setText (re_sub_fF (unit_case d) (lbl_text l)) l.

(** The widget after the first [k] rounds of the loop of [load_dict], and
    after all of them. *)
Definition loaded_upto (py_str FMT_format : float → string) (k : nat)
    (s : FreqSpecs) : FreqSpecs :=
  with_log (λ l, l ++ range_warnings (fil s) (take k (qlineedit s)))
    (with_qlabels (on_range (λ _, recase (fil s)) 0 k)
       (with_qlineedit
          (on_range (λ _, refresh py_str FMT_format (fil s)) 0 k) s)).

Definition loaded (py_str FMT_format : float → string) (s : FreqSpecs)
    : FreqSpecs :=
  loaded_upto py_str FMT_format (length (qlineedit s)) s.

(** The widget with the style states of its line edits blanked. *)
Definition blank (s : FreqSpecs) : FreqSpecs :=
  with_qlineedit (fmap (qstyle_widget EmptyString)) s.

(** * Sample instances and states *)

(** Stand-ins for the imported helpers, used to run the model on concrete
    states: numbers are printed as [numerator/denominator], [to_html] keeps
    the text, and [safe_eval] reads an unsigned decimal literal from [expr],
    else from [alt_expr], else gives 0. *)
Module Sample.

Definition show_ratio (x : float) : string :=
  pretty (Qnum x) +:+ "/" +:+ pretty (Zpos (Qden x)).

Definition plain_html (text frmt : string) : string := text.

Definition digit (c : ascii) : option N :=
  let n := N_of_ascii c in
  if decide (48 ≤ n ∧ n ≤ 57)%N then Some (n - 48)%N else None.

Fixpoint decimal (s : string) (num : N) (den : positive) (frac : bool)
    : option float :=
  match s with
  | EmptyString => Some (Q2Qc (Z.of_N num # den))
  | String c s' =>
      if Ascii.eqb c "."%char then
        if frac then None else decimal s' num den true
      else match digit c with
           | Some d => decimal s' (10 * num + d)%N
                         (if frac then (10 * den)%positive else den) frac
           | None => None
           end
  end.

Definition literal (s : string) : option float :=
  match s with
  | EmptyString => None
  | _ => match decimal s 0 1 false with
         | Some x => if decide (Q2Qc 0 < x)%Qc then Some x else None
         | None => None
         end
  end.

Definition eval_literal (expr alt_expr : string) : float :=
  match literal expr with
  | Some x => x
  | None => default (Q2Qc 0) (literal alt_expr)
  end.




(** Absolute frequencies locked, sorting on, f_S changed from 1000 to 2000. *)
Definition fil_Hz : FilterDict :=
  mkFilterDict true true (Q2Qc 2000) (Q2Qc 1000) "Hz" "Hz"
    (<["F_SB" := Q2Qc (1 # 5)]> (<["F_PB" := Q2Qc (1 # 4)]> ∅)).

(** A negative sampling frequency. *)
Definition fil_negative : FilterDict :=
  mkFilterDict true true (Q2Qc (-2000)) (Q2Qc 1000) "Hz" "Hz"
    (<["F_SB" := Q2Qc (1 # 5)]> (<["F_PB" := Q2Qc (1 # 4)]> ∅)).

(** Absolute frequencies not locked. *)
Definition fil_unlocked : FilterDict :=
  mkFilterDict false true (Q2Qc 2000) (Q2Qc 1000) "Hz" "Hz"
    (<["F_SB" := Q2Qc (1 # 5)]> (<["F_PB" := Q2Qc (1 # 4)]> ∅)).

(** Frequencies shown relative to f_S, f_S = 2. *)
Definition fil_relative : FilterDict :=
  mkFilterDict false false (Q2Qc 2) (Q2Qc 2) "f_S" "f_S"
    (<["F_PB" := Q2Qc (1 # 4)]> ∅).

(** One stored value [v], f_S = 1, no sorting. *)
Definition fil_one (v : float) : FilterDict :=
  mkFilterDict false false (Q2Qc 1) (Q2Qc 1) "f_S" "f_S" (<["F_PB" := v]> ∅).

(** The scenario of the specification: 0.2 and 0.3, sorting on, f_S = 1. *)
Definition fil_scenario : FilterDict :=
  mkFilterDict false true (Q2Qc 1) (Q2Qc 1) "f_S" "f_S"
    (<["F_SB" := Q2Qc (1 # 5)]> (<["F_PB" := Q2Qc (3 # 10)]> ∅)).

Definition run_update_UI (new_labels : list string) (s : FreqSpecs) : FreqSpecs :=
  final (update_UI show_ratio show_ratio plain_html new_labels s).

(** The widget after [update_UI(('normal', 'F_SB', 'F_PB'))]. *)
Definition two_fields (d : FilterDict) : FreqSpecs :=
  run_update_UI ["normal"; "F_SB"; "F_PB"] (init plain_html 0 d).

(** ... and after a following [update_UI(('normal', 'F_PB'))]: the second
    line edit is hidden and keeps its name. *)
Definition one_field (d : FilterDict) : FreqSpecs :=
  run_update_UI ["normal"; "F_PB"] (two_fields d).

(** ... or after [update_UI(('normal', 'F_SB'))]. *)
Definition first_field (d : FilterDict) : FreqSpecs :=
  run_update_UI ["normal"; "F_SB"] (two_fields d).

(** The widget after [update_UI(('normal', 'F_PB'))] alone. *)
Definition single_field (d : FilterDict) : FreqSpecs :=
  run_update_UI ["normal"; "F_PB"] (init plain_html 0 d).

(** The signal another widget sends after it changed f_S. *)
Definition f_S_changed : dict_sig := mkSig 1 (Some "f_S").

(** The user has typed [t] into line edit [i] of [s]. *)
Definition typed (i : nat) (t prev : string) (s : FreqSpecs) : FreqSpecs :=
  with_spec_edited true
    (with_data_prev prev (with_qlineedit (alter (setText t) i) s)).

End Sample.

Import Sample.

(** * Tactics *)

(** Linear arithmetic on [Qc] through [Q]. *)
Ltac qc_lra :=
  unfold Qcle, Qclt, Qcminus, Qcplus, Qcopp, Q2Qc in *; simpl in *;
  rewrite ?Qred_correct in *; lra.

(** A decidable closed proposition, by evaluation. *)
Ltac by_compute := intros; apply (bool_decide_unpack _); vm_compute; exact I.

(** * Reasoning about the computations *)

Lemma run_bind {A B} (m : M A) (k : A → M B) s :
  (m ≫= k) s = match m s with Ok a s' => k a s' | Raise e s' => Raise e s' end.
Proof. reflexivity. Qed.

Lemma bind_Ok {A B} (m : M A) (k : A → M B) s a s' :
  m s = Ok a s' → (m ≫= k) s = k a s'.
Proof. intros H. by rewrite run_bind, H. Qed.

Lemma bind_Raise {A B} (m : M A) (k : A → M B) s e s' :
  m s = Raise e s' → (m ≫= k) s = Raise e s'.
Proof. intros H. by rewrite run_bind, H. Qed.

Lemma qlineedit_at_Ok i s w :
  qlineedit s !! i = Some w → qlineedit_at i s = Ok w s.
Proof. intros H. unfold qlineedit_at. by rewrite H. Qed.

Lemma qlabels_at_Ok i s l :
  qlabels s !! i = Some l → qlabels_at i s = Ok l s.
Proof. intros H. unfold qlabels_at. by rewrite H. Qed.

Lemma fil_get_Ok k s v :
  entries (fil s) !! k = Some v → fil_get k s = Ok v s.
Proof. intros H. unfold fil_get. by rewrite H. Qed.

Lemma on_qlineedit_Ok i f s w :
  qlineedit s !! i = Some w →
  on_qlineedit i f s = Ok tt (with_qlineedit (alter f i) s).
Proof.
  intros H. unfold on_qlineedit.
  by rewrite (bind_Ok _ _ _ _ _ (qlineedit_at_Ok _ _ _ H)).
Qed.

Lemma on_qlabel_Ok i f s l :
  qlabels s !! i = Some l →
  on_qlabel i f s = Ok tt (with_qlabels (alter f i) s).
Proof.
  intros H. unfold on_qlabel.
  by rewrite (bind_Ok _ _ _ _ _ (qlabels_at_Ok _ _ _ H)).
Qed.

Lemma py_div_Ok x y s : y ≠ Q2Qc 0 → py_div x y s = Ok (x / y)%Qc s.
Proof. intros H. unfold py_div. by rewrite decide_False. Qed.

(** ** Loops *)

(** A loop whose body keeps an invariant completes and keeps it. *)
Lemma for_each_inv {A} (I : FreqSpecs → Prop) (l : list A) (body : A → M unit) :
  (∀ x s, x ∈ l → I s → ∃ s', body x s = Ok tt s' ∧ I s') →
  ∀ s, I s → ∃ s', for_each l body s = Ok tt s' ∧ I s'.
Proof.
  induction l as [|x l IH]; intros Hbody s Hs; simpl.
  - by exists s.
  - destruct (Hbody x s) as (s1 & Hrun & Hs1); [left|done|].
    rewrite (bind_Ok _ _ _ _ _ Hrun).
    apply IH; [|done]. intros y s2 Hy. apply Hbody. by right.
Qed.

(** A loop over the positions of a list [l] whose body at position [i] is a
    state transformer determined by the [i]-th element of [l]. *)
Lemma for_each_seq_fold {A} (P : FreqSpecs → Prop)
    (step : FreqSpecs → A → FreqSpecs) (body : nat → M unit) (l : list A) :
  ∀ a s,
    (∀ i x s, l !! i = Some x → P s →
       body (a + i) s = Ok tt (step s x) ∧ P (step s x)) →
    P s →
    for_each (seq a (length l)) body s = Ok tt (foldl step s l)
    ∧ P (foldl step s l).
Proof.
  induction l as [|x l IH]; intros a s Hbody Hs; simpl; [done|].
  destruct (Hbody 0 x s) as [Hrun Hs1]; [done..|].
  rewrite Nat.add_0_r in Hrun. rewrite (bind_Ok _ _ _ _ _ Hrun).
  apply IH; [|done]. intros i y s2 Hi Hs2.
  rewrite Nat.add_succ_comm. by apply Hbody.
Qed.

(** A comprehension over the positions of [l] whose element at position
    [i] is a function of the [i]-th element of [l] and reads the state. *)
Lemma list_comp_seq {A B} (g : A → B) (f : nat → M B) (l : list A) s :
  ∀ a,
    (∀ i x, l !! i = Some x → f (a + i) s = Ok (g x) s) →
    list_comp (seq a (length l)) f s = Ok (g <$> l) s.
Proof.
  induction l as [|x l IH]; intros a Hf; simpl; [done|].
  pose proof (Hf 0 x eq_refl) as Hrun. rewrite Nat.add_0_r in Hrun.
  rewrite (bind_Ok _ _ _ _ _ Hrun).
  assert (list_comp (seq (S a) (length l)) f s = Ok (g <$> l) s) as Hrest.
  { apply IH. intros i y Hi. rewrite Nat.add_succ_comm. by apply Hf. }
  by rewrite (bind_Ok _ _ _ _ _ Hrest).
Qed.

Lemma range_0 n : range 0 n = seq 0 n.
Proof. unfold range. by rewrite Nat.sub_0_r. Qed.

(** ** What a display refresh may change *)

#[global] Instance same_shape_preorder : PreOrder same_shape.
Proof.
  split.
  - by intros s.
  - intros s1 s2 s3 [] []. split; congruence.
Qed.

#[global] Instance display_only_preorder : PreOrder display_only.
Proof.
  split.
  - by intros s.
  - intros s1 s2 s3 [? ? ? H12] [? ? ? H23].
    split; [congruence..|by etrans|by transitivity s2].
Qed.

Lemma cosmetic_setText t : cosmetic (setText t).
Proof. by intros []. Qed.

Lemma cosmetic_qstyle_widget st : cosmetic (qstyle_widget st).
Proof. by intros []. Qed.

Lemma fmap_alter_same {A B} (p : A → B) (f : A → A) i (l : list A) :
  (∀ x, p (f x) = p x) → p <$> alter f i l = p <$> l.
Proof.
  intros Hf. revert i. induction l as [|x l IH]; intros [|i]; simpl; [done..| |].
  - by rewrite Hf.
  - f_equal. apply IH.
Qed.

Lemma display_only_qlineedit f i s :
  cosmetic f → display_only s (with_qlineedit (alter f i) s).
Proof.
  intros Hf. split; [done..|]. split; simpl; try done.
  all: apply fmap_alter_same; intros w; by destruct (Hf w) as (?&?&?).
Qed.

Lemma display_only_lbl_setText t i s :
  display_only s (with_qlabels (alter (lbl_setText t) i) s).
Proof.
  split; [done..|]. split; simpl; try done.
  apply fmap_alter_same. by intros [].
Qed.

Lemma display_only_log w s : display_only s (with_log (λ l, l ++ [w]) s).
Proof. split; [done..|by apply prefix_app_r|by split]. Qed.

Lemma display_only_lblUnit t s : display_only s (with_lblUnit t s).
Proof. by split; [..|split]. Qed.

Lemma displayable_display_only s s' :
  display_only s s' → displayable s → displayable s'.
Proof.
  intros [Hfil _ _ [Hn _ _ Hl _ _ _ _]] [Hlen Hall]. split.
  - rewrite <-(length_fmap objectName), Hn, length_fmap.
    by rewrite <-(length_fmap lbl_hidden (qlabels s')), Hl, length_fmap.
  - by rewrite Hn, Hfil.
Qed.

Lemma displayable_lookup s i w :
  displayable s → qlineedit s !! i = Some w →
  ∃ v l, entries (fil s) !! split_colon (objectName w) = Some v
         ∧ qlabels s !! i = Some l.
Proof.
  intros [Hlen Hall] Hw.
  rewrite Forall_fmap, Forall_lookup in Hall.
  destruct (Hall i w Hw) as [v Hv].
  destruct (lookup_lt_is_Some_2 (qlabels s) i) as [l Hl].
  { apply lookup_lt_Some in Hw. lia. }
  eauto.
Qed.

Section display.

Variable py_str : float → string.

Variable FMT_format : float → string.

Lemma update_f_display_Ok i s w v :
  qlineedit s !! i = Some w →
  entries (fil s) !! split_colon (objectName w) = Some v →
  ∃ s', update_f_display py_str FMT_format i s = Ok tt s'
        ∧ display_only s s'
        ∧ text <$> qlineedit s' !! i = Some (shown_text py_str FMT_format w v (f_S (fil s))).
Proof.
  intros Hw Hv. unfold update_f_display.
  rewrite (bind_Ok _ _ _ _ _ (qlineedit_at_Ok _ _ _ Hw)).
  rewrite (bind_Ok _ _ _ _ _ (fil_get_Ok _ _ _ Hv)).
  rewrite run_bind. cbn [get].
  set (t := shown_text py_str FMT_format w v (f_S (fil s))).
  set (s1 := with_qlineedit (alter (setText t) i) s).
  assert (Hs1 : display_only s s1)
    by apply display_only_qlineedit, cosmetic_setText.
  assert (Hw1 : qlineedit s1 !! i = Some (setText t w)).
  { simpl. by rewrite list_lookup_alter_eq, Hw. }
  assert (Hset : ∀ (k : unit → M unit),
    ((if hasFocus w
      then on_qlineedit i (setText (py_str (f_value_of v (f_S (fil s)))))
      else on_qlineedit i (setText (FMT_format (f_value_of v (f_S (fil s))))))
     ≫= k) s = k tt s1).
  { intros k. subst s1 t. unfold shown_text.
    destruct (hasFocus w); by rewrite (bind_Ok _ _ _ _ _ (on_qlineedit_Ok _ _ _ _ Hw)). }
  rewrite Hset. clear Hset.
  assert (Hstyle : ∀ st (s2 : FreqSpecs),
    display_only s1 s2 → qlineedit s2 !! i = Some (setText t w) →
    ∃ s', on_qlineedit i (qstyle_widget st) s2 = Ok tt s'
          ∧ display_only s s'
          ∧ text <$> qlineedit s' !! i = Some t).
  { intros st s2 Hs2 Hw2. eexists. split; [by eapply on_qlineedit_Ok|]. split.
    - etrans; [exact Hs1|]. etrans; [exact Hs2|].
      apply display_only_qlineedit, cosmetic_qstyle_widget.
    - simpl. by rewrite list_lookup_alter_eq, Hw2. }
  repeat case_decide.
  - rewrite run_bind. cbn [logger_warning modify].
    apply Hstyle; [apply display_only_log|done].
  - rewrite run_bind. cbn [logger_warning modify].
    apply Hstyle; [apply display_only_log|done].
  - by apply Hstyle.
Qed.

Lemma load_dict_Ok s :
  displayable s →
  ∃ s', load_dict py_str FMT_format s = Ok tt s' ∧ display_only s s'.
Proof.
  intros Hd. unfold load_dict. rewrite run_bind. cbn [get]. rewrite range_0.
  apply (for_each_inv (display_only s)); [|done].
  intros i s1 Hi Hs1. apply elem_of_seq in Hi as [_ Hi]. simpl in Hi.
  assert (is_Some (qlineedit s1 !! i)) as [w Hw].
  { apply lookup_lt_is_Some_2.
    rewrite <-(length_fmap objectName), (shape_names _ _ (disp_shape _ _ Hs1)).
    by rewrite length_fmap. }
  destruct (displayable_lookup s1 i w) as (v & l & Hv & Hl);
    [by eapply displayable_display_only|done|].
  destruct (update_f_display_Ok i s1 w v Hw Hv) as (s2 & Hrun & Hs2 & _).
  rewrite (bind_Ok _ _ _ _ _ Hrun).
  assert (is_Some (qlabels s2 !! i)) as [l2 Hl2].
  { apply lookup_lt_is_Some_2. apply lookup_lt_Some in Hl.
    rewrite <-(length_fmap lbl_hidden), (shape_labels _ _ (disp_shape _ _ Hs2)).
    by rewrite length_fmap. }
  rewrite (bind_Ok _ _ _ _ _ (qlabels_at_Ok _ _ _ Hl2)).
  rewrite run_bind. cbn [get].
  eexists. split; [by eapply on_qlabel_Ok|].
  etrans; [exact Hs1|]. etrans; [exact Hs2|]. apply display_only_lbl_setText.
Qed.

End display.

(** ** The rescale loop of [recalc_freqs] *)

Lemma with_fil_entries_id s : with_fil (λ d, set_entries (entries d) d) s = s.
Proof. by destruct s as [? ? ? ? ? ? ? [] ? ?]. Qed.

Lemma insert_as_alter (f : Qc → Qc) (E : gmap string Qc) k v :
  E !! k = Some v → <[k := f v]> E = alter f k E.
Proof.
  intros Hk. apply map_eq. intros j.
  rewrite lookup_insert, lookup_alter. case_decide; [subst; by rewrite Hk|done].
Qed.

Lemma rescale_all_lookup p fS labels E k :
  rescale_all p fS labels E !! k
  = Nat.iter (count_occ string_dec labels k) (rescale p fS) <$> E !! k.
Proof.
  revert E. induction labels as [|l labels IH]; intros E; simpl.
  - by destruct (E !! k).
  - unfold rescale_all in *; simpl. rewrite IH, lookup_alter.
    destruct (string_dec l k) as [->|Hne].
    + rewrite decide_True by done. destruct (E !! k); simpl; [|done].
      f_equal. apply Nat.iter_swap.
    + by rewrite decide_False.
Qed.

Lemma rescale_all_lookup_NoDup p fS labels E k :
  NoDup labels → k ∈ labels →
  rescale_all p fS labels E !! k = rescale p fS <$> E !! k.
Proof.
  intros Hnd Hk. rewrite rescale_all_lookup.
  apply list_elem_of_In in Hk. apply NoDup_ListNoDup in Hnd.
  by rewrite (proj1 (NoDup_count_occ' string_dec labels) Hnd k Hk).
Qed.

Lemma rescale_all_lookup_other p fS labels E k :
  k ∉ labels → rescale_all p fS labels E !! k = E !! k.
Proof.
  intros Hk. rewrite rescale_all_lookup.
  rewrite (proj1 (count_occ_not_In string_dec labels k)).
  - by destruct (E !! k).
  - by rewrite <-list_elem_of_In.
Qed.

Lemma rescale_all_is_Some p fS labels E k :
  is_Some (E !! k) → is_Some (rescale_all p fS labels E !! k).
Proof. intros [v Hv]. rewrite rescale_all_lookup, Hv. by eexists. Qed.

Lemma foldl_fil_step {A} (g : gmap string Qc → A → gmap string Qc)
    (l : list A) s :
  foldl (λ s1 x, with_fil (λ d, set_entries (g (entries d) x) d) s1) s l
  = with_fil (set_entries (foldl g (entries (fil s)) l)) s.
Proof.
  revert s. induction l as [|x l IH]; intros s; simpl.
  - by destruct s as [? ? ? ? ? ? ? [] ? ?].
  - rewrite IH. by destruct s as [? ? ? ? ? ? ? [] ? ?].
Qed.

Lemma recalc_loop s :
  Forall (λ l, is_Some (entries (fil s) !! l)) (widget_labels s) →
  f_S (fil s) ≠ Q2Qc 0 →
  for_each (range 0 (length (qlineedit s))) (λ i,
    w ← qlineedit_at i;
    let f_label := split_colon (objectName w) in
    v ← fil_get f_label;
    s ← get;
    f_value ← py_div (v * f_S_prev (fil s))%Qc (f_S (fil s));
    fil_update f_label f_value) s
  = Ok tt (with_fil (set_entries
             (rescale_all (f_S_prev (fil s)) (f_S (fil s)) (widget_labels s)
                          (entries (fil s)))) s).
Proof.
  intros Hall HfS. rewrite range_0.
  set (p := f_S_prev (fil s)). set (fS := f_S (fil s)).
  set (P := λ s1, qlineedit s1 = qlineedit s ∧ f_S (fil s1) = fS
                  ∧ f_S_prev (fil s1) = p
                  ∧ ∀ k, is_Some (entries (fil s) !! k) →
                         is_Some (entries (fil s1) !! k)).
  set (step := λ (s1 : FreqSpecs) (w : QLineEdit),
         with_fil (λ d, set_entries
           (alter (rescale p fS) (split_colon (objectName w)) (entries d)) d) s1).
  edestruct (for_each_seq_fold P step) as [Hrun _]; [| |rewrite Hrun].
  - intros i w s1 Hw (Hws & HfS1 & Hp1 & Hdom). simpl.
    assert (is_Some (entries (fil s1) !! split_colon (objectName w))) as [v Hv].
    { apply Hdom. unfold widget_labels in Hall.
      rewrite Forall_fmap, Forall_lookup in Hall. by apply (Hall i). }
    rewrite <-Hws in Hw.
    rewrite (bind_Ok _ _ _ _ _ (qlineedit_at_Ok _ _ _ Hw)).
    rewrite (bind_Ok _ _ _ _ _ (fil_get_Ok _ _ _ Hv)).
    rewrite run_bind. cbn [get]. rewrite HfS1, Hp1.
    rewrite (bind_Ok _ _ _ _ _ (py_div_Ok _ _ _ HfS)).
    unfold fil_update, modify, step. split.
    + f_equal. unfold with_fil, set_entries. simpl. do 2 f_equal.
      by apply (insert_as_alter (rescale p fS)).
    + split_and!; try done. intros k Hk. simpl.
      rewrite lookup_alter. case_decide; [subst|by apply Hdom].
      rewrite Hv. by eexists.
  - by split_and!.
  - f_equal. subst step.
    rewrite (foldl_fil_step
      (λ E w, alter (rescale p fS) (split_colon (objectName w)) E)).
    unfold rescale_all, widget_labels. by rewrite foldl_fmap.
Qed.

Lemma displayable_labels s :
  displayable s →
  Forall (λ l, is_Some (entries (fil s) !! l)) (widget_labels s).
Proof.
  intros [_ Hall]. unfold widget_labels.
  rewrite Forall_fmap in *. exact Hall.
Qed.

Lemma same_shape_with_fil f s : same_shape s (with_fil f s).
Proof. by split. Qed.

Lemma same_shape_with_sig_tx f s : same_shape s (with_sig_tx f s).
Proof. by split. Qed.

Section recalc.

Variable py_str : float → string.

Variable FMT_format : float → string.

Variable to_html : string → string → string.

Lemma recalc_freqs_locked s :
  freq_locked (fil s) = true →
  f_S (fil s) ≠ Q2Qc 0 →
  displayable s →
  ∃ s', recalc_freqs py_str FMT_format to_html s = Ok tt s'
    ∧ fil s' = set_entries
                 (rescale_all (f_S_prev (fil s)) (f_S (fil s))
                              (widget_labels s) (entries (fil s))) (fil s)
    ∧ sig_tx s' = sig_tx s ++ [("specs_changed", "f_specs")]
    ∧ same_shape s s'.
Proof.
  intros Hlock HfS Hd. unfold recalc_freqs.
  rewrite run_bind. cbn [get]. rewrite Hlock.
  pose proof (recalc_loop s (displayable_labels s Hd) HfS) as Hloop.
  set (E' := rescale_all _ _ _ _) in *.
  set (s1 := with_fil (set_entries E') s) in *.
  set (s2 := with_sig_tx (λ l, l ++ [("specs_changed", "f_specs")]) s1).
  assert (Hd2 : displayable s2).
  { destruct Hd as [Hlen Hall]. split; [done|]. simpl.
    eapply Forall_impl; [exact Hall|]. intros n. apply rescale_all_is_Some. }
  destruct (load_dict_Ok py_str FMT_format s2 Hd2) as (s3 & Hload & Hs3).
  cbv zeta in Hloop. rewrite run_bind, run_bind, Hloop. cbn [emit modify].
  fold s2. rewrite (bind_Ok _ _ _ _ _ Hload).
  rewrite run_bind. cbn [get modify]. eexists. split; [done|].
  destruct Hs3 as [Hfil Hsig _ Hshape]. split_and!; simpl.
  - by rewrite Hfil.
  - by rewrite Hsig.
  - etrans; [|etrans; [exact Hshape|]]; by split.
Qed.

Lemma recalc_freqs_unlocked s :
  freq_locked (fil s) = false →
  displayable s →
  ∃ s', recalc_freqs py_str FMT_format to_html s = Ok tt s'
        ∧ display_only s s'.
Proof.
  intros Hlock Hd. unfold recalc_freqs.
  rewrite run_bind. cbn [get]. rewrite Hlock.
  destruct (load_dict_Ok py_str FMT_format s Hd) as (s1 & Hload & Hs1).
  rewrite (bind_Ok (mret tt) _ s tt s eq_refl).
  rewrite (bind_Ok _ _ _ _ _ Hload).
  rewrite run_bind. cbn [get modify].
  eexists. split; [done|].
  etrans; [exact Hs1|]. apply display_only_lblUnit.
Qed.

(** With [f_S = 0] the first division raises before anything is stored. *)
End recalc.

(** ** The read, sort and write-back of [sort_dict_freqs] *)

Lemma write_back_other ws vals E k :
  k ∉ objectName <$> ws → write_back ws vals E !! k = E !! k.
Proof.
  unfold write_back. revert vals E.
  induction ws as [|w ws IH]; intros [|v vals] E Hk; simpl; try done.
  rewrite fmap_cons, not_elem_of_cons in Hk. destruct Hk as [Hne Hk].
  rewrite IH by done. by rewrite lookup_insert_ne.
Qed.

Lemma write_back_cons w ws v vals E :
  write_back (w :: ws) (v :: vals) E
  = write_back ws vals (<[objectName w := v]> E).
Proof. done. Qed.

Lemma write_back_lookup ws vals E i w :
  NoDup (objectName <$> ws) → length vals = length ws →
  ws !! i = Some w →
  write_back ws vals E !! objectName w = vals !! i.
Proof.
  revert vals E i.
  induction ws as [|w0 ws IH]; intros [|v vals] E i Hnd Hlen Hw;
    simplify_eq/=.
  apply NoDup_cons in Hnd as [Hnotin Hnd]. rewrite write_back_cons.
  destruct i as [|i]; simplify_eq/=.
  - rewrite write_back_other by done. by rewrite lookup_insert_eq.
  - by apply IH.
Qed.

Lemma write_back_is_Some ws vals E k :
  is_Some (E !! k) → is_Some (write_back ws vals E !! k).
Proof.
  unfold write_back. revert vals E.
  induction ws as [|w ws IH]; intros [|v vals] E Hk; simpl; try done.
  apply IH. rewrite lookup_insert_is_Some.
  destruct (decide (objectName w = k)); auto.
Qed.

Lemma write_back_same ws E :
  Forall (λ k, is_Some (E !! k)) (objectName <$> ws) →
  write_back ws ((λ w, entry E (objectName w)) <$> ws) E = E.
Proof.
  unfold write_back. induction ws as [|w ws IH]; intros Hall; simpl; [done|].
  rewrite fmap_cons in Hall. apply Forall_cons in Hall as [[v Hv] Hall].
  rewrite insert_id; [by apply IH|]. unfold entry. by rewrite Hv.
Qed.

Lemma sorted_if_length b vals : length (sorted_if b vals) = length vals.
Proof.
  destruct b; simpl; [|done].
  apply Permutation_length, merge_sort_Permutation.
Qed.

Lemma with_log_nil s : with_log (λ l, l ++ []) s = s.
Proof. destruct s. unfold with_log. simpl. by rewrite app_nil_r. Qed.

Section sort.

Variable py_str : float → string.

Variable FMT_format : float → string.

Lemma sort_dict_freqs_store s :
  sortable s →
  sort_dict_freqs py_str FMT_format s
  = load_dict py_str FMT_format (sort_stored s).
Proof.
  intros [Hn Hall]. unfold sort_dict_freqs.
  rewrite run_bind. cbn [get]. rewrite range_0.
  assert (Hlen : length (active s) = n_cur_labels s)
    by by apply length_take_le.
  assert (Hread : list_comp (seq 0 (n_cur_labels s)) (λ i,
                    w ← qlineedit_at i; fil_get (objectName w)) s
                  = Ok (active_values s) s).
  { rewrite <-Hlen. apply list_comp_seq. intros i w Hw. simpl.
    unfold active_names in Hall. rewrite Forall_fmap, Forall_lookup in Hall.
    destruct (Hall i w Hw) as [v Hv].
    apply lookup_take_Some in Hw as [Hw _].
    rewrite (bind_Ok _ _ _ _ _ (qlineedit_at_Ok _ _ _ Hw)).
    unfold entry. rewrite Hv. by apply fil_get_Ok. }
  rewrite (bind_Ok _ _ _ _ _ Hread). rewrite run_bind. cbn [get].
  fold (sorted_if (freq_specs_sort (fil s)) (active_values s)).
  set (f_specs := sorted_if _ _).
  assert (Hlenf : length f_specs = n_cur_labels s).
  { subst f_specs. rewrite sorted_if_length. unfold active_values.
    by rewrite length_fmap. }
  set (step := λ (s1 : FreqSpecs) (wv : QLineEdit * float),
         with_fil (λ d, set_entries
           (<[objectName wv.1 := wv.2]> (entries d)) d) s1).
  edestruct (for_each_seq_fold (λ s1, qlineedit s1 = qlineedit s) step
               (λ i, match f_specs !! i with
                     | None => raise IndexError
                     | Some v => w ← qlineedit_at i;
                                 fil_update (objectName w) v
                     end) (zip (active s) f_specs) 0 s) as [Hrun _].
  { intros i [w v] s1 Hwv Hs1. simpl.
    apply lookup_zip_Some in Hwv as [Hw Hv]. rewrite Hv.
    apply lookup_take_Some in Hw as [Hw _]. rewrite <-Hs1 in Hw.
    by rewrite (bind_Ok _ _ _ _ _ (qlineedit_at_Ok _ _ _ Hw)). }
  { done. }
  rewrite length_zip, Hlen, Hlenf, Nat.min_id in Hrun.
  rewrite range_0, (bind_Ok _ _ _ _ _ Hrun). subst step.
  rewrite (foldl_fil_step (λ E wv, <[objectName wv.1 := wv.2]> E)).
  fold (write_back (active s) f_specs (entries (fil s))).
  unfold sort_stored. fold f_specs.
  set (s1 := with_fil _ s). unfold separation_warning.
  destruct (ident_of _) as [|x ident].
  - rewrite (bind_Ok (mret tt) _ s1 tt s1 eq_refl). by rewrite with_log_nil.
  - rewrite run_bind. by cbn [get logger_warning modify mbind M_bind].
Qed.

Lemma sort_stored_displayable s : displayable s → displayable (sort_stored s).
Proof.
  intros [Hlen Hall]. split; [done|]. simpl.
  eapply Forall_impl; [exact Hall|]. intros n. apply write_back_is_Some.
Qed.

Lemma sort_dict_freqs_Ok s :
  sortable s → displayable s →
  ∃ s', sort_dict_freqs py_str FMT_format s = Ok tt s'
        ∧ display_only (sort_stored s) s'.
Proof.
  intros Hs Hd. rewrite sort_dict_freqs_store by done.
  by apply load_dict_Ok, sort_stored_displayable.
Qed.

End sort.

(** ** Committing an edit *)

Lemma stored_sortable k v s : sortable s → sortable (stored k v s).
Proof.
  intros [Hn Hall]. split; [done|].
  eapply Forall_impl; [exact Hall|]. intros n Hn'. simpl.
  rewrite lookup_insert_is_Some. destruct (decide (k = n)); auto.
Qed.

Lemma stored_displayable k v s : displayable s → displayable (stored k v s).
Proof.
  intros [Hn Hall]. split; [done|].
  eapply Forall_impl; [exact Hall|]. intros n Hn'. simpl.
  rewrite lookup_insert_is_Some. destruct (decide (k = split_colon n)); auto.
Qed.

Section store.

Variable safe_eval : string → string → float.

Variable py_str : float → string.

Variable FMT_format : float → string.

Lemma _store_entry_edited i s w prev :
  spec_edited s = true →
  qlineedit s !! i = Some w →
  data_prev s = Some prev →
  f_S (fil s) ≠ Q2Qc 0 →
  sortable s → displayable s →
  let s1 := stored (objectName w)
              (safe_eval (text w) prev / f_S (fil s))%Qc s in
  ∃ s', _store_entry safe_eval py_str FMT_format i s = Ok tt s'
    ∧ fil s' = fil (sort_stored s1)
    ∧ sig_tx s' = sig_tx s ++ [("specs_changed", "f_specs")]
    ∧ spec_edited s' = false
    ∧ objectName <$> qlineedit s' = objectName <$> qlineedit s
    ∧ n_cur_labels s' = n_cur_labels s.
Proof.
  intros Hed Hw Hprev HfS Hsort Hdisp s1. unfold _store_entry.
  rewrite run_bind. cbn [get]. rewrite Hed, Hprev.
  rewrite (bind_Ok _ _ _ _ _ (qlineedit_at_Ok _ _ _ Hw)).
  rewrite (bind_Ok (mret prev) _ s prev s eq_refl).
  rewrite (bind_Ok _ _ _ _ _ (py_div_Ok _ _ _ HfS)).
  rewrite run_bind. cbn [fil_update modify]. fold s1.
  destruct (sort_dict_freqs_Ok py_str FMT_format s1)
    as (s2 & Hrun & [Hfil Hsig _ [Hnames _ _ _ Hn _ _ _]]);
    [by apply stored_sortable|by apply stored_displayable|].
  rewrite (bind_Ok _ _ _ _ _ Hrun).
  rewrite run_bind. cbn [emit modify].
  eexists. split; [done|]. simpl. split_and!; try done.
  by rewrite Hsig.
Qed.

(** Without sorting the committed value stays under its own name. *)
Lemma sort_stored_unsorted s :
  freq_specs_sort (fil s) = false → sortable s →
  entries (fil (sort_stored s)) = entries (fil s).
Proof.
  intros Hsort [_ Hall]. unfold sort_stored. simpl. rewrite Hsort. simpl.
  by apply write_back_same.
Qed.

End store.

(** ** Near-duplicate groups *)

Lemma collision_sym tol a b : collision tol a b ↔ collision tol b a.
Proof. unfold collision. by rewrite Qcabs_Qcminus. Qed.

Lemma collision_between tol a b c :
  (a ≤ c)%Qc → (c ≤ b)%Qc → collision tol a b → collision tol a c.
Proof.
  unfold collision. intros Hac Hcb.
  rewrite (Qcabs_Qcminus a b), (Qcabs_Qcminus a c).
  rewrite !Qcabs_pos by qc_lra. intros. qc_lra.
Qed.

Lemma runs_singleton tol x : runs tol [x] = [[x]].
Proof. done. Qed.

Lemma runs_head tol y l : ∃ g gs, runs tol (y :: l) = (y :: g) :: gs.
Proof.
  revert y. induction l as [|z l IH]; intros y; [by eexists _, _|].
  destruct (IH z) as (g & gs & Hz).
  change (runs tol (y :: z :: l)) with
    (match runs tol (z :: l) with
     | (y' :: g) :: gs =>
         if decide (collision tol y y') then (y :: y' :: g) :: gs
         else [y] :: (y' :: g) :: gs
     | _ => [[y]]
     end).
  rewrite Hz. case_decide; by eexists _, _.
Qed.

(** The defining equation of [runs] on a list with two leading elements. *)
Lemma runs_cons_cons tol x y l :
  runs tol (x :: y :: l)
  = match runs tol (y :: l) with
    | g :: gs => if decide (collision tol x y) then (x :: g) :: gs
                 else [x] :: g :: gs
    | [] => [[x]]
    end.
Proof.
  destruct (runs_head tol y l) as (g & gs & Hy).
  change (runs tol (x :: y :: l)) with
    (match runs tol (y :: l) with
     | (y' :: g) :: gs =>
         if decide (collision tol x y') then (x :: y' :: g) :: gs
         else [x] :: (y' :: g) :: gs
     | _ => [[x]]
     end).
  by rewrite Hy.
Qed.

Lemma runs_concat tol l : concat (runs tol l) = l.
Proof.
  induction l as [|x [|y l] IH]; [done..|].
  rewrite runs_cons_cons. destruct (runs_head tol y l) as (g & gs & Hy).
  rewrite Hy in *. case_decide; simpl in *; by rewrite IH.
Qed.

Lemma runs_linked tol l : Forall (linked tol) (runs tol l).
Proof.
  induction l as [|x [|y l] IH]; [by constructor|by repeat constructor|].
  rewrite runs_cons_cons. destruct (runs_head tol y l) as (g & gs & Hy).
  rewrite Hy in *. apply Forall_cons in IH as [Hg Hgs].
  case_decide; repeat constructor; done.
Qed.

Lemma runs_separated tol l : separated tol (runs tol l).
Proof.
  induction l as [|x [|y l] IH]; [done..|].
  rewrite runs_cons_cons. destruct (runs_head tol y l) as (g & gs & Hy).
  rewrite Hy in *. case_decide.
  - destruct gs as [|g2 gs]; [done|]. destruct IH as [Hb Hs]. split; [|done].
    intros a b Ha. apply Hb. by rewrite last_cons_cons in Ha.
  - split; [|done]. intros a b Ha Hb. by simplify_eq/=.
Qed.

Lemma adjacent_collision_cons tol x y l :
  adjacent_collision tol (x :: y :: l)
  ↔ collision tol x y ∨ adjacent_collision tol (y :: l).
Proof.
  split.
  - intros ([|i] & a & b & Ha & Hb & Hab); simplify_eq/=; [by left|].
    right. by exists i, a, b.
  - intros [Hxy|(i & a & b & Ha & Hb & Hab)].
    + by exists 0, x, y.
    + by exists (S i), a, b.
Qed.

Lemma ident_of_cons n mult :
  ident_of (n :: mult) = if decide (1 < n) then n :: ident_of mult
                         else ident_of mult.
Proof. unfold ident_of. by rewrite filter_cons. Qed.

(** A multiplicity above one is reported exactly for a list with two
    neighbours closer than the threshold. *)
Lemma runs_ident tol l :
  ident_of (length <$> runs tol l) ≠ [] ↔ adjacent_collision tol l.
Proof.
  induction l as [|x [|y l] IH].
  - split; [done|]. by intros (i & a & b & Ha & _).
  - split; [done|]. by intros ([|i] & a & b & Ha & Hb & _).
  - rewrite runs_cons_cons, adjacent_collision_cons.
    destruct (runs_head tol y l) as (g & gs & Hy). rewrite Hy in *.
    case_decide as Hxy.
    + split; [by left|]. intros _. rewrite fmap_cons, ident_of_cons.
      rewrite decide_True; [done|simpl; lia].
    + rewrite !fmap_cons, (ident_of_cons 1), decide_False by lia.
      rewrite <-fmap_cons, IH. tauto.
Qed.

Lemma StronglySorted_lookup_lt {A} (R : relation A) l i j a b :
  StronglySorted R l → i < j → l !! i = Some a → l !! j = Some b → R a b.
Proof.
  intros Hs. revert i j. induction Hs as [|x l Hs IH Hx]; intros i j Hij Ha Hb.
  - done.
  - destruct j as [|j]; [lia|]. destruct i as [|i]; simplify_eq/=.
    + rewrite Forall_lookup in Hx. by apply (Hx j).
    + apply (IH i j); [lia|done..].
Qed.

(** In a sorted list a close pair shows between two neighbours. *)
Lemma sorted_adjacent_collision tol l i j a b :
  StronglySorted Qcle l → i < j →
  l !! i = Some a → l !! j = Some b → collision tol a b →
  adjacent_collision tol l.
Proof.
  intros Hs Hij Ha Hb Hab.
  destruct (lookup_lt_is_Some_2 l (S i)) as [c Hc].
  { apply lookup_lt_Some in Hb. lia. }
  exists i, a, c. split_and!; [done..|].
  apply (collision_between tol a b c); [| |done].
  - by eapply (StronglySorted_lookup_lt _ l i (S i)); [|lia|..].
  - destruct (decide (S i = j)) as [<-|]; [by simplify_eq|].
    by eapply (StronglySorted_lookup_lt _ l (S i) j); [|lia|..].
Qed.

(** [unique_roots] reports a multiplicity above one exactly when two
    entries of its input are closer than the tolerance. *)
Lemma flagged_close_pair p tol : flagged p tol ↔ close_pair tol p.
Proof.
  unfold flagged, unique_roots. simpl. rewrite runs_ident.
  pose proof (merge_sort_Permutation Qcle p) as Hperm.
  assert (Hs : StronglySorted Qcle (merge_sort Qcle p)).
  { apply StronglySorted_merge_sort; apply _. }
  split.
  - intros (i & x & y & Hx & Hy & Hxy).
    apply Permutation_inj in Hperm as [_ (f & Hf & Hlook)].
    exists (f i), (f (S i)), x, y. split_and!; [|by rewrite <-Hlook..|done].
    intros Heq. apply Hf in Heq. lia.
  - intros (i & j & a & b & Hij & Ha & Hb & Hab).
    symmetry in Hperm.
    apply Permutation_inj in Hperm as [_ (f & Hf & Hlook)].
    rewrite Hlook in Ha, Hb.
    assert (f i ≠ f j) as Hne by (intros Heq; by apply Hf in Heq).
    destruct (decide (f i < f j)).
    + by eapply (sorted_adjacent_collision tol _ (f i) (f j)).
    + eapply (sorted_adjacent_collision tol _ (f j) (f i));
        [done|lia|done..|by apply collision_sym].
Qed.

Lemma process_sig_rx_f_S py_str FMT_format to_html d s :
  sig_id d ≠ self_id s → view_changed d = Some "f_S" →
  process_sig_rx py_str FMT_format to_html d s
  = recalc_freqs py_str FMT_format to_html s.
Proof.
  intros Hid Hview. unfold process_sig_rx. rewrite run_bind. cbn [get].
  by rewrite decide_False, decide_True.
Qed.

Lemma set_entries_same d : set_entries (entries d) d = d.
Proof. by destruct d. Qed.

Lemma active_values_names s :
  active_values s = entry (entries (fil s)) <$> active_names s.
Proof. unfold active_values, active_names. by rewrite <-list_fmap_compose. Qed.

Lemma active_names_same_shape s s' :
  same_shape s s' → active_names s' = active_names s.
Proof.
  intros [Hn _ _ _ Hc _ _ _]. unfold active_names, active.
  by rewrite !fmap_take, Hn, Hc.
Qed.

(** ** Names decide what is sorted and shown *)

Lemma sortable_names s s' :
  objectName <$> qlineedit s' = objectName <$> qlineedit s →
  n_cur_labels s' = n_cur_labels s →
  entries (fil s') = entries (fil s) →
  sortable s → sortable s'.
Proof.
  intros Hnames Hcur Hfil [Hn Hall]. split.
  - rewrite Hcur, <-(length_fmap objectName), Hnames. by rewrite length_fmap.
  - unfold active_names, active in *.
    by rewrite fmap_take, Hnames, Hcur, Hfil, <-fmap_take.
Qed.

Lemma displayable_names s s' :
  objectName <$> qlineedit s' = objectName <$> qlineedit s →
  length (qlabels s') = length (qlabels s) →
  entries (fil s') = entries (fil s) →
  displayable s → displayable s'.
Proof.
  intros Hnames Hlbl Hfil [Hlen Hall]. split.
  - rewrite Hlbl, <-(length_fmap objectName), Hnames. by rewrite length_fmap.
  - by rewrite Hnames, Hfil.
Qed.

Lemma same_shape_lookup s s' i w :
  same_shape s s' → qlineedit s !! i = Some w →
  ∃ w', qlineedit s' !! i = Some w' ∧ objectName w' = objectName w.
Proof.
  intros Hshape Hw.
  assert ((objectName <$> qlineedit s') !! i = Some (objectName w)) as Hn.
  { by rewrite (shape_names _ _ Hshape), list_lookup_fmap, Hw. }
  rewrite list_lookup_fmap in Hn.
  destruct (qlineedit s' !! i) as [w'|]; simplify_eq/=. by exists w'.
Qed.

Lemma write_back_names ws ws' vals E :
  objectName <$> ws = objectName <$> ws' →
  write_back ws vals E = write_back ws' vals E.
Proof.
  revert ws' vals E. induction ws as [|w ws IH];
    intros [|w' ws'] vals E Hn; simplify_eq/=; [done|].
  destruct vals as [|v vals]; [done|]. rewrite !write_back_cons.
  rewrite H. by apply IH.
Qed.

Lemma sort_stored_fil_same_shape s s' :
  same_shape s s' → fil s' = fil s →
  fil (sort_stored s') = fil (sort_stored s).
Proof.
  intros Hshape Hfil. unfold sort_stored. simpl.
  pose proof (active_names_same_shape _ _ Hshape) as Hn.
  rewrite !active_values_names, Hn, Hfil. f_equal.
  by apply write_back_names.
Qed.




(** * The claims *)

(** C1.  The rescale does not always preserve the absolute frequency of an
    active parameter.  After [update_UI(('normal', 'F_SB', 'F_PB'))] and
    [update_UI(('normal', 'F_PB'))] the hidden second line edit is still
    named F_PB; when f_S changes from 1000 to 2000 with the frequencies
    locked, the loop over all line edits rescales F_PB twice: 1/4 becomes
    1/16 instead of 1/8. *)
Theorem duplicate_label_rescaled_twice :
  let s := one_field fil_Hz in
  let r := process_sig_rx show_ratio show_ratio plain_html f_S_changed s in
  active_names s = ["F_PB"]
  ∧ widget_labels s = ["F_PB"; "F_PB"]
  ∧ entries (fil s) !! "F_PB" = Some (Q2Qc (1 # 4))
  ∧ completes r = true
  ∧ entries (fil (final r)) !! "F_PB" = Some (Q2Qc (1 # 16))
  ∧ (Q2Qc (1 # 16) * f_S (fil (final r))
     ≠ Q2Qc (1 # 4) * f_S_prev (fil (final r)))%Qc.
Proof. by_compute. Qed.

(** With distinct labels on all line edits the rescale is as intended. *)
Lemma recalc_freqs_distinct_labels py_str FMT_format to_html s :
  freq_locked (fil s) = true →
  f_S (fil s) ≠ Q2Qc 0 →
  displayable s →
  NoDup (widget_labels s) →
  ∃ s', recalc_freqs py_str FMT_format to_html s = Ok tt s'
    ∧ ∀ i w v, qlineedit s !! i = Some w →
        entries (fil s) !! split_colon (objectName w) = Some v →
        ∃ v', entries (fil s') !! split_colon (objectName w) = Some v'
              ∧ v' = (v * f_S_prev (fil s) / f_S (fil s))%Qc
              ∧ (v' * f_S (fil s') = v * f_S_prev (fil s))%Qc.
Proof.
  intros Hlock HfS Hd Hnd.
  destruct (recalc_freqs_locked py_str FMT_format to_html s Hlock HfS Hd)
    as (s' & Hrun & Hfil & _).
  exists s'. split; [done|]. intros i w v Hw Hv. eexists. split_and!; [|done|].
  - rewrite Hfil. simpl. rewrite rescale_all_lookup_NoDup, Hv; [done..|].
    unfold widget_labels. apply list_elem_of_fmap. exists w. split; [done|].
    by eapply list_elem_of_lookup_2.
  - rewrite Hfil. simpl. by field.
Qed.



#[local] Set Warnings "-inexact-float".


(** C3.  [sort_dict_freqs] completes on a widget whose visible line edits
    have distinct names; the names keep their slots; slot [i] of the list
    [f_specs] is written under the name of line edit [i]; with sorting off
    [f_specs] is the list read and the filter dictionary is unchanged, with
    sorting on [f_specs] is the ascending rearrangement of the visible
    values, so the name in slot [i] is bound to the [i]-th smallest. *)
Theorem sort_dict_freqs_slots py_str FMT_format s :
  sortable s → displayable s → NoDup (active_names s) →
  ∃ s' f_specs,
    sort_dict_freqs py_str FMT_format s = Ok tt s'
    ∧ active_names s' = active_names s
    ∧ entries (fil s') = write_back (active s) f_specs (entries (fil s))
    ∧ active_values s' = f_specs
    ∧ (∀ i w, active s !! i = Some w →
         entries (fil s') !! objectName w = f_specs !! i)
    ∧ (freq_specs_sort (fil s) = false →
         f_specs = active_values s ∧ fil s' = fil s)
    ∧ (freq_specs_sort (fil s) = true →
         Sorted Qcle f_specs ∧ f_specs ≡ₚ active_values s).
Proof.
  intros Hsort Hdisp Hnd.
  destruct (sort_dict_freqs_Ok py_str FMT_format s Hsort Hdisp)
    as (s' & Hrun & [Hfil _ _ Hshape]).
  set (f_specs := sorted_if (freq_specs_sort (fil s)) (active_values s)).
  assert (Hlen : length f_specs = length (active s)).
  { subst f_specs. rewrite sorted_if_length. unfold active_values.
    by rewrite length_fmap. }
  assert (HE : entries (fil s')
               = write_back (active s) f_specs (entries (fil s))).
  { by rewrite Hfil. }
  assert (Hnames : active_names s' = active_names s).
  { rewrite (active_names_same_shape _ _ Hshape).
    apply (active_names_same_shape s (sort_stored s)). by split. }
  assert (Hslot : ∀ i w, active s !! i = Some w →
            entries (fil s') !! objectName w = f_specs !! i).
  { intros i w Hw. rewrite HE. by apply write_back_lookup. }
  exists s', f_specs. split_and!; try done.
  - rewrite active_values_names, Hnames. unfold active_names.
    apply list_eq. intros i. rewrite !list_lookup_fmap.
    destruct (active s !! i) as [w|] eqn:Hw; simpl.
    + unfold entry. rewrite (Hslot i w Hw).
      destruct (lookup_lt_is_Some_2 f_specs i) as [v Hv]; [|by rewrite Hv].
      rewrite Hlen. by eapply lookup_lt_Some.
    + symmetry. apply lookup_ge_None. rewrite Hlen. by apply lookup_ge_None.
  - intros Hoff. subst f_specs. rewrite Hoff. split; [done|].
    rewrite Hfil. unfold sort_stored. rewrite Hoff. simpl.
    destruct Hsort as [_ Hall].
    unfold active_values. rewrite write_back_same by done.
    apply set_entries_same.
  - intros Hon. subst f_specs. rewrite Hon. simpl. split.
    + apply Sorted_merge_sort; apply _.
    + apply merge_sort_Permutation.
Qed.

Lemma sort_dict_freqs_slots_witness :
  let s := stored "F_PB" (Q2Qc (1 # 10)) (two_fields fil_scenario) in
  sortable s ∧ displayable s ∧ NoDup (active_names s)
  ∧ ∃ s' f_specs,
      sort_dict_freqs show_ratio show_ratio s = Ok tt s'
      ∧ active_names s' = active_names s
      ∧ entries (fil s') = write_back (active s) f_specs (entries (fil s))
      ∧ active_values s' = f_specs
      ∧ (∀ i w, active s !! i = Some w →
           entries (fil s') !! objectName w = f_specs !! i)
      ∧ (freq_specs_sort (fil s) = false →
           f_specs = active_values s ∧ fil s' = fil s)
      ∧ (freq_specs_sort (fil s) = true →
           Sorted Qcle f_specs ∧ f_specs ≡ₚ active_values s).
Proof.
  intros s.
  split; [by_compute|]. split; [by_compute|]. split; [by_compute|].
  apply sort_dict_freqs_slots; by_compute.
Defined.

(** The scenario of the specification: F_SB = 0.2, F_PB = 0.3, the user
    replaces the text of F_PB by 0.1 and leaves the field. *)
Example scenario_edit_and_sort :
  let s := typed 1 "0.1" "3/10" (two_fields fil_scenario) in
  let r := eventFilter eval_literal show_ratio show_ratio 1 FocusOut s in
  completes r = true
  ∧ active_names (final r) = ["F_SB"; "F_PB"]
  ∧ active_values (final r) = [Q2Qc (1 # 10); Q2Qc (1 # 5)]
  ∧ state <$> qlineedit (final r) = ["normal"; "normal"]
  ∧ log (final r) = [].
Proof. by_compute. Qed.

(** C4.  [recalc_freqs] does not check [f_S]: a negative [f_S] is not
    refused.  With absolute frequencies locked, on a widget whose line
    edits carry pairwise distinct labels with stored values, the rescale
    completes, replaces every stored value [v] under a label by
    [v * f_S_prev / f_S], leaves the other entries and [f_S] as they are
    and emits the signal. *)
Theorem recalc_freqs_no_f_S_check py_str FMT_format to_html s :
  freq_locked (fil s) = true →
  displayable s →
  NoDup (widget_labels s) →
  (f_S (fil s) < Q2Qc 0)%Qc →
  ∃ s', recalc_freqs py_str FMT_format to_html s = Ok tt s'
    ∧ (∀ k, k ∈ widget_labels s →
         entries (fil s') !! k
         = (λ v, v * f_S_prev (fil s) / f_S (fil s))%Qc
           <$> entries (fil s) !! k)
    ∧ (∀ k, k ∉ widget_labels s →
         entries (fil s') !! k = entries (fil s) !! k)
    ∧ sig_tx s' = sig_tx s ++ [("specs_changed", "f_specs")]
    ∧ f_S (fil s') = f_S (fil s).
Proof.
  intros Hlock Hd Hnd HfS.
  destruct (recalc_freqs_locked py_str FMT_format to_html s Hlock)
    as (s' & Hrun & Hfil & Hsig & _); [|done|].
  { intros Heq. rewrite Heq in HfS. by apply Qclt_not_eq in HfS. }
  exists s'. split; [done|]. split; [|split; [|split; [done|]]].
  - intros k Hk. rewrite Hfil. simpl.
    by rewrite rescale_all_lookup_NoDup.
  - intros k Hk. rewrite Hfil. simpl. by apply rescale_all_lookup_other.
  - by rewrite Hfil.
Qed.

Lemma recalc_freqs_no_f_S_check_witness :
  let s := two_fields fil_negative in
  freq_locked (fil s) = true
  ∧ displayable s
  ∧ NoDup (widget_labels s)
  ∧ (f_S (fil s) < Q2Qc 0)%Qc
  ∧ ∃ s', recalc_freqs show_ratio show_ratio plain_html s = Ok tt s'
      ∧ (∀ k, k ∈ widget_labels s →
           entries (fil s') !! k
           = (λ v, v * f_S_prev (fil s) / f_S (fil s))%Qc
             <$> entries (fil s) !! k)
      ∧ (∀ k, k ∉ widget_labels s →
           entries (fil s') !! k = entries (fil s) !! k)
      ∧ sig_tx s' = sig_tx s ++ [("specs_changed", "f_specs")]
      ∧ f_S (fil s') = f_S (fil s).
Proof.
  intros s. split; [by_compute|]. split; [by_compute|].
  split; [by_compute|]. split; [by_compute|].
  apply recalc_freqs_no_f_S_check; by_compute.
Defined.

(** With [f_S = -2000] and [f_S_prev = 1000] the rescale is not refused: it
    completes and F_PB goes from 1/4 to -1/8. *)
Lemma negative_f_S_is_rescaled :
  let s := two_fields fil_negative in
  let r := recalc_freqs show_ratio show_ratio plain_html s in
  freq_locked (fil s) = true
  ∧ (f_S (fil s) < Q2Qc 0)%Qc
  ∧ completes r = true
  ∧ entries (fil s) !! "F_PB" = Some (Q2Qc (1 # 4))
  ∧ entries (fil (final r)) !! "F_PB" = Some (Q2Qc (-1 # 8)).
Proof. by_compute. Qed.

(** C5.  Losing focus after an edit never reports a failure and never keeps
    the old value aside: whatever the text, parsable or not, the number
    [safe_eval] gives for the text and the text shown before the edit,
    divided by [f_S], is stored under the name of the line edit, the visible
    values are then sorted and written back, the signal is emitted and the
    flag is reset.  With sorting off the stored value of the edited
    parameter is that number. *)
Theorem focus_out_always_stores safe_eval py_str FMT_format i s w prev :
  spec_edited s = true →
  qlineedit s !! i = Some w →
  data_prev s = Some prev →
  f_S (fil s) ≠ Q2Qc 0 →
  sortable s → displayable s →
  ∃ s', eventFilter safe_eval py_str FMT_format i FocusOut s = Ok tt s'
    ∧ fil s' = fil (sort_stored
                      (stored (objectName w)
                         (safe_eval (text w) prev / f_S (fil s))%Qc s))
    ∧ (freq_specs_sort (fil s) = false →
         entries (fil s') !! objectName w
         = Some (safe_eval (text w) prev / f_S (fil s))%Qc)
    ∧ sig_tx s' = sig_tx s ++ [("specs_changed", "f_specs")]
    ∧ spec_edited s' = false.
Proof.
  intros Hed Hw Hprev HfS Hsort Hdisp.
  destruct (_store_entry_edited safe_eval py_str FMT_format i s w prev)
    as (s' & Hrun & Hfil & Hsig & Hed' & _); [done..|].
  exists s'. split_and!; try done.
  intros Hoff. rewrite Hfil, sort_stored_unsorted.
  - simpl. by rewrite lookup_insert_eq.
  - done.
  - by apply stored_sortable.
Qed.

Lemma focus_out_always_stores_witness :
  let s := typed 0 "abc" "0.123" (single_field (fil_one (Q2Qc (12345 # 100000)))) in
  let w := mkQLineEdit "F_PB" "abc" false false "normal" in
  spec_edited s = true
  ∧ qlineedit s !! 0 = Some w
  ∧ data_prev s = Some "0.123"
  ∧ f_S (fil s) ≠ Q2Qc 0
  ∧ sortable s ∧ displayable s
  ∧ ∃ s', eventFilter eval_literal show_ratio show_ratio 0 FocusOut s = Ok tt s'
      ∧ fil s' = fil (sort_stored
                        (stored (objectName w)
                           (eval_literal (text w) "0.123" / f_S (fil s))%Qc s))
      ∧ (freq_specs_sort (fil s) = false →
           entries (fil s') !! objectName w
           = Some (eval_literal (text w) "0.123" / f_S (fil s))%Qc)
      ∧ sig_tx s' = sig_tx s ++ [("specs_changed", "f_specs")]
      ∧ spec_edited s' = false.
Proof.
  intros s w.
  split; [by_compute|]. split; [by vm_compute|]. split; [by_compute|].
  split; [by_compute|]. split; [by_compute|]. split; [by_compute|].
  apply focus_out_always_stores;
    [by_compute|by vm_compute|by_compute|by_compute|by_compute|by_compute].
Defined.

(** C5 is not what [_store_entry] does, whatever [safe_eval] computes: the
    value it stores depends on the two texts only, so it cannot be the old
    stored value both for 0.12345 and for 0.12346, which are both shown as
    0.123 by a three-digit format. *)
Lemma unparsable_edit_overwrites :
  ¬ ∃ (safe_eval : string → string → float) (py_str FMT_format : float → string),
      ∀ s i w,
        spec_edited s = true →
        qlineedit s !! i = Some w →
        text w = "abc" →
        entries (fil (final (eventFilter safe_eval py_str FMT_format
                               i FocusOut s))) !! objectName w
        = entries (fil s) !! objectName w.
Proof.
  intros (safe_eval & py_str & FMT_format & Hclaim).
  set (sa := typed 0 "abc" "0.123" (single_field (fil_one (Q2Qc (12345 # 100000))))).
  set (sb := typed 0 "abc" "0.123" (single_field (fil_one (Q2Qc (12346 # 100000))))).
  set (w := mkQLineEdit "F_PB" "abc" false false "normal").
  assert (Hwa : qlineedit sa !! 0 = Some w) by by vm_compute.
  assert (Hwb : qlineedit sb !! 0 = Some w) by by vm_compute.
  pose proof (Hclaim sa 0 w eq_refl Hwa eq_refl) as Ha.
  pose proof (Hclaim sb 0 w eq_refl Hwb eq_refl) as Hb.
  destruct (_store_entry_edited safe_eval py_str FMT_format 0 sa w "0.123")
    as (sa' & Hruna & Hfila & _); [done|done|done|by_compute..|].
  destruct (_store_entry_edited safe_eval py_str FMT_format 0 sb w "0.123")
    as (sb' & Hrunb & Hfilb & _); [done|done|done|by_compute..|].
  cbn [eventFilter] in Ha, Hb. rewrite Hruna in Ha. rewrite Hrunb in Hb.
  simpl final in Ha, Hb.
  rewrite Hfila, sort_stored_unsorted in Ha; [|done|by_compute].
  rewrite Hfilb, sort_stored_unsorted in Hb; [|done|by_compute].
  assert (HfSa : f_S (fil sa) = Q2Qc 1) by by vm_compute.
  assert (HfSb : f_S (fil sb) = Q2Qc 1) by by vm_compute.
  rewrite HfSa in Ha. rewrite HfSb in Hb.
  change (objectName w) with "F_PB" in Ha, Hb.
  change (entries (fil sa) !! "F_PB")
    with (Some (Q2Qc (12345 # 100000))) in Ha.
  change (entries (fil sb) !! "F_PB")
    with (Some (Q2Qc (12346 # 100000))) in Hb.
  simpl in Ha, Hb. rewrite lookup_insert_eq in Ha, Hb.
  rewrite Ha in Hb. by apply (inj Some) in Hb.
Qed.

(** What the sample evaluator stores for the text abc in that state. *)
Example unparsable_edit_stores_shown_value :
  let s := typed 0 "abc" "0.123" (single_field (fil_one (Q2Qc (12345 # 100000)))) in
  let r := eventFilter eval_literal show_ratio show_ratio 0 FocusOut s in
  completes r = true
  ∧ entries (fil s) !! "F_PB" = Some (Q2Qc (12345 # 100000))
  ∧ entries (fil (final r)) !! "F_PB" = Some (Q2Qc (123 # 1000)).
Proof. by_compute. Qed.

(** C6.  The separation check of [sort_dict_freqs], with the grouping of
    [unique_roots] as the specification describes it: a multiplicity above
    one is found exactly when two entries of the list are closer than the
    tolerance, for two values exactly when their absolute difference is
    below it; the groups are the maximal runs of the sorted values whose
    consecutive gaps are all below the tolerance; of 0.1, 0.10005 and 0.3
    the first two form a group and 0.3 is alone. *)
Theorem separation_check :
  (∀ p tol, flagged p tol ↔ close_pair tol p)
  ∧ (∀ a b tol, flagged [a; b] tol ↔ (Qcabs (a - b) < tol)%Qc)
  ∧ (∀ p tol,
       let gs := runs tol (merge_sort Qcle p) in
       (unique_roots p tol).2 = length <$> gs
       ∧ concat gs = merge_sort Qcle p
       ∧ Forall (linked tol) gs
       ∧ separated tol gs)
  ∧ runs MIN_FREQ_STEP
      (merge_sort Qcle
         [Q2Qc (1 # 10); Q2Qc (10005 # 100000); Q2Qc (3 # 10)])
    = [[Q2Qc (1 # 10); Q2Qc (10005 # 100000)]; [Q2Qc (3 # 10)]]
  ∧ (∀ fS, separation_warning
             [Q2Qc (1 # 10); Q2Qc (10005 # 100000); Q2Qc (3 # 10)] fS
           = [Warn_min_step (MIN_FREQ_STEP * fS)%Qc]).
Proof.
  split_and!.
  - apply flagged_close_pair.
  - intros a b tol. rewrite flagged_close_pair. split.
    + intros (i & j & x & y & Hij & Hx & Hy & Hxy).
      destruct i as [|[|i]], j as [|[|j]]; simplify_eq/=; try done.
      by apply collision_sym.
    + intros Hab. by exists 0, 1, a, b.
  - intros p tol gs. subst gs. split_and!.
    + done.
    + apply runs_concat.
    + apply runs_linked.
    + apply runs_separated.
  - by vm_compute.
  - intros fS. by vm_compute.
Qed.

(** C7.  With [freq_locked] false a signal, and in particular the one sent
    after a change of the sampling frequency, completes and changes the
    display only: the filter dictionary, with every stored normalized value,
    is the same afterwards. *)
Theorem unlocked_changes_display_only py_str FMT_format to_html d s :
  freq_locked (fil s) = false →
  displayable s →
  view_changed d = Some "f_S" →
  ∃ s', process_sig_rx py_str FMT_format to_html d s = Ok tt s'
        ∧ display_only s s'
        ∧ ∀ k, entries (fil s') !! k = entries (fil s) !! k.
Proof.
  intros Hlock Hd Hview. unfold process_sig_rx. rewrite run_bind. cbn [get].
  case_decide; [by exists s|]. rewrite decide_True by done.
  destruct (recalc_freqs_unlocked py_str FMT_format to_html s Hlock Hd)
    as (s' & Hrun & Hs').
  exists s'. split_and!; [done..|]. intros k. by rewrite (disp_fil _ _ Hs').
Qed.

Lemma unlocked_changes_display_only_witness :
  let s := two_fields fil_unlocked in
  freq_locked (fil s) = false
  ∧ displayable s
  ∧ view_changed f_S_changed = Some "f_S"
  ∧ ∃ s', process_sig_rx show_ratio show_ratio plain_html f_S_changed s
          = Ok tt s'
          ∧ display_only s s'
          ∧ ∀ k, entries (fil s') !! k = entries (fil s) !! k.
Proof.
  intros s.
  split; [by_compute|]. split; [by_compute|]. split; [by_compute|].
  apply unlocked_changes_display_only; by_compute.
Defined.

(** C8.  The conversions take no account of the unit.  Whatever
    [plt_fUnit] and [freq_specs_unit] are, [update_f_display] shows the
    stored value times [f_S], in full when the line edit has the focus and
    formatted otherwise, and a committed edit stores the evaluated text
    divided by [f_S]. *)
Theorem conversions_ignore_unit safe_eval py_str FMT_format i s w v prev :
  qlineedit s !! i = Some w →
  entries (fil s) !! split_colon (objectName w) = Some v →
  spec_edited s = true →
  data_prev s = Some prev →
  f_S (fil s) ≠ Q2Qc 0 →
  sortable s → displayable s →
  (∃ s', update_f_display py_str FMT_format i s = Ok tt s'
     ∧ display_only s s'
     ∧ text <$> qlineedit s' !! i
       = Some (if hasFocus w then py_str (v * f_S (fil s))%Qc
               else FMT_format (v * f_S (fil s))%Qc))
  ∧ (∃ s', _store_entry safe_eval py_str FMT_format i s = Ok tt s'
     ∧ fil s' = fil (sort_stored
                       (stored (objectName w)
                          (safe_eval (text w) prev / f_S (fil s))%Qc s))).
Proof.
  intros Hw Hv Hed Hprev HfS Hsort Hdisp. split.
  - apply (update_f_display_Ok py_str FMT_format i s w v Hw Hv).
  - destruct (_store_entry_edited safe_eval py_str FMT_format i s w prev)
      as (s' & Hrun & Hfil & _); [done..|].
    by exists s'.
Qed.

Lemma conversions_ignore_unit_witness :
  let s := typed 0 "1" "1/2" (single_field fil_relative) in
  let w := mkQLineEdit "F_PB" "1" false false "normal" in
  qlineedit s !! 0 = Some w
  ∧ entries (fil s) !! split_colon (objectName w) = Some (Q2Qc (1 # 4))
  ∧ spec_edited s = true
  ∧ data_prev s = Some "1/2"
  ∧ f_S (fil s) ≠ Q2Qc 0
  ∧ sortable s ∧ displayable s
  ∧ (∃ s', update_f_display show_ratio show_ratio 0 s = Ok tt s'
       ∧ display_only s s'
       ∧ text <$> qlineedit s' !! 0
         = Some (if hasFocus w
                 then show_ratio (Q2Qc (1 # 4) * f_S (fil s))%Qc
                 else show_ratio (Q2Qc (1 # 4) * f_S (fil s))%Qc))
  ∧ (∃ s', _store_entry eval_literal show_ratio show_ratio 0 s = Ok tt s'
       ∧ fil s' = fil (sort_stored
                         (stored (objectName w)
                            (eval_literal (text w) "1/2" / f_S (fil s))%Qc s))).
Proof.
  intros s w.
  split; [by vm_compute|]. split; [by_compute|]. split; [by_compute|].
  split; [by_compute|]. split; [by_compute|]. split; [by_compute|].
  split; [by_compute|].
  apply conversions_ignore_unit;
    [by vm_compute|by_compute|by_compute|by_compute|by_compute|by_compute
    |by_compute].
Defined.

(** With the unit f_S selected, [f_S = 2] and a stored 1/4, the line edit
    shows 1/2 and not the normalized value. *)
Lemma relative_unit_is_multiplied :
  let s := single_field fil_relative in
  let r := update_f_display show_ratio show_ratio 0 s in
  relative_unit (plt_fUnit (fil s)) = true
  ∧ relative_unit (freq_specs_unit (fil s)) = true
  ∧ (Q2Qc 0 < f_S (fil s))%Qc
  ∧ objectName <$> qlineedit s !! 0 = Some "F_PB"
  ∧ entries (fil s) !! "F_PB" = Some (Q2Qc (1 # 4))
  ∧ completes r = true
  ∧ f_value_of (Q2Qc (1 # 4)) (f_S (fil s)) = Q2Qc (1 # 2)
  ∧ text <$> qlineedit (final r) !! 0 = Some (show_ratio (Q2Qc (1 # 2)))
  ∧ text <$> qlineedit (final r) !! 0 ≠ Some (show_ratio (Q2Qc (1 # 4))).
Proof. by_compute. Qed.

(** C9.  [recalc_freqs] reads [f_S_prev] and never writes it: after a
    completed rescale [f_S_prev] and [f_S] are what they were before. *)
Theorem recalc_freqs_keeps_f_S_prev py_str FMT_format to_html s :
  freq_locked (fil s) = true →
  f_S (fil s) ≠ Q2Qc 0 →
  displayable s →
  ∃ s', recalc_freqs py_str FMT_format to_html s = Ok tt s'
        ∧ f_S_prev (fil s') = f_S_prev (fil s)
        ∧ f_S (fil s') = f_S (fil s).
Proof.
  intros Hlock HfS Hd.
  destruct (recalc_freqs_locked py_str FMT_format to_html s Hlock HfS Hd)
    as (s' & Hrun & Hfil & _).
  exists s'. by rewrite Hfil.
Qed.

Lemma recalc_freqs_keeps_f_S_prev_witness :
  let s := two_fields fil_Hz in
  freq_locked (fil s) = true
  ∧ f_S (fil s) ≠ Q2Qc 0
  ∧ displayable s
  ∧ ∃ s', recalc_freqs show_ratio show_ratio plain_html s = Ok tt s'
          ∧ f_S_prev (fil s') = f_S_prev (fil s)
          ∧ f_S (fil s') = f_S (fil s).
Proof.
  intros s.
  split; [by_compute|]. split; [by_compute|]. split; [by_compute|].
  apply recalc_freqs_keeps_f_S_prev; by_compute.
Defined.

(** After a completed rescale from 1000 to 2000 [f_S_prev] is still 1000. *)
Lemma f_S_prev_not_updated :
  let s := two_fields fil_Hz in
  let r := recalc_freqs show_ratio show_ratio plain_html s in
  freq_locked (fil s) = true
  ∧ (Q2Qc 0 < f_S (fil s))%Qc
  ∧ completes r = true
  ∧ f_S (fil (final r)) = Q2Qc 2000
  ∧ f_S_prev (fil (final r)) = Q2Qc 1000
  ∧ f_S_prev (fil (final r)) ≠ f_S (fil (final r)).
Proof. by_compute. Qed.



(** The hidden F_PB of that widget is rescaled with the visible F_SB. *)
Example hidden_field_is_rescaled :
  let s := first_field fil_Hz in
  let r := recalc_freqs show_ratio show_ratio plain_html s in
  active_names s = ["F_SB"]
  ∧ entries (fil s) !! "F_PB" = Some (Q2Qc (1 # 4))
  ∧ completes r = true
  ∧ entries (fil (final r)) !! "F_PB" = Some (Q2Qc (1 # 8))
  ∧ entries (fil (final r)) !! "F_SB" = Some (Q2Qc (1 # 10)).
Proof. by_compute. Qed.

(** * Further properties *)

(** ** Frames *)

#[global] Instance grows_preorder : PreOrder grows.
Proof.
  split.
  - by intros s.
  - intros s1 s2 s3 [] []. split; try congruence; by etrans.
Qed.

#[global] Instance untouched_preorder : PreOrder untouched.
Proof.
  split.
  - by intros s.
  - intros s1 s2 s3 [] []. split; congruence.
Qed.

Section preserves.
Context (R : relation FreqSpecs) `{!PreOrder R}.

Lemma preserves_mret {A} (a : A) : preserves R (mret a).
Proof. by intros s. Qed.

Lemma preserves_raise {A} e : preserves R (raise (A:=A) e).
Proof. by intros s. Qed.

Lemma preserves_get : preserves R get.
Proof. by intros s. Qed.

Lemma preserves_bind {A B} (m : M A) (k : A → M B) :
  preserves R m → (∀ a, preserves R (k a)) → preserves R (m ≫= k).
Proof.
  intros Hm Hk s. rewrite run_bind. specialize (Hm s).
  destruct (m s) as [a s1|e s1]; simpl in *; [|done].
  etrans; [exact Hm|apply Hk].
Qed.

Lemma preserves_for_each {A} (l : list A) (body : A → M unit) :
  (∀ x, preserves R (body x)) → preserves R (for_each l body).
Proof.
  intros Hbody. induction l as [|x l IH]; simpl.
  - apply preserves_mret.
  - apply preserves_bind; [apply Hbody|by intros _].
Qed.

Lemma preserves_list_comp {A B} (l : list A) (f : A → M B) :
  (∀ x, preserves R (f x)) → preserves R (list_comp l f).
Proof.
  intros Hf. induction l as [|x l IH]; simpl.
  - apply preserves_mret.
  - apply preserves_bind; [apply Hf|]. intros y.
    apply preserves_bind; [apply IH|]. intros ys. apply preserves_mret.
Qed.

Lemma preserves_modify f : (∀ s, R s (f s)) → preserves R (modify f).
Proof. intros Hf s. apply Hf. Qed.

Lemma preserves_fil_get k : preserves R (fil_get k).
Proof. intros s. unfold fil_get. by destruct (_ !! _). Qed.

Lemma preserves_qlineedit_at i : preserves R (qlineedit_at i).
Proof. intros s. unfold qlineedit_at. by destruct (_ !! _). Qed.

Lemma preserves_qlabels_at i : preserves R (qlabels_at i).
Proof. intros s. unfold qlabels_at. by destruct (_ !! _). Qed.

Lemma preserves_py_div x y : preserves R (py_div x y).
Proof. intros s. unfold py_div. by case_decide. Qed.

Lemma preserves_on_qlineedit i f :
  (∀ s, R s (with_qlineedit (alter f i) s)) → preserves R (on_qlineedit i f).
Proof.
  intros Hf. apply preserves_bind; [apply preserves_qlineedit_at|].
  intros _. by apply preserves_modify.
Qed.

Lemma preserves_on_qlabel i f :
  (∀ s, R s (with_qlabels (alter f i) s)) → preserves R (on_qlabel i f).
Proof.
  intros Hf. apply preserves_bind; [apply preserves_qlabels_at|].
  intros _. by apply preserves_modify.
Qed.
End preserves.

(** The state changes the methods make. *)
Lemma grows_with_qlineedit_alter f i s :
  grows s (with_qlineedit (alter f i) s).
Proof. split; simpl; try done. by rewrite length_alter. Qed.

Lemma grows_with_qlabels_alter f i s : grows s (with_qlabels (alter f i) s).
Proof. split; simpl; try done. by rewrite length_alter. Qed.

Lemma grows_with_qlineedit_app w s :
  grows s (with_qlineedit (λ l, l ++ [w]) s).
Proof. split; simpl; try done. rewrite length_app. lia. Qed.

Lemma grows_with_qlabels_app w s : grows s (with_qlabels (λ l, l ++ [w]) s).
Proof. split; simpl; try done. rewrite length_app. lia. Qed.

Lemma grows_fil_update k v s :
  grows s (with_fil (λ d, set_entries (<[k := v]> (entries d)) d) s).
Proof. split; simpl; try done. rewrite dom_insert. set_solver. Qed.

Lemma grows_with_sig_tx x s : grows s (with_sig_tx (λ l, l ++ [x]) s).
Proof. split; simpl; try done. by apply prefix_app_r. Qed.

Lemma grows_with_log x s : grows s (with_log (λ l, l ++ [x]) s).
Proof. split; simpl; try done. by apply prefix_app_r. Qed.

Lemma grows_with_spec_edited b s : grows s (with_spec_edited b s).
Proof. by split. Qed.
Lemma grows_with_data_prev t s : grows s (with_data_prev t s).
Proof. by split. Qed.
Lemma grows_with_n_cur_labels n s : grows s (with_n_cur_labels n s).
Proof. by split. Qed.
Lemma grows_with_lblUnit t s : grows s (with_lblUnit t s).
Proof. by split. Qed.

Lemma untouched_with_qlineedit f s : untouched s (with_qlineedit f s).
Proof. by split. Qed.
Lemma untouched_with_qlabels f s : untouched s (with_qlabels f s).
Proof. by split. Qed.
Lemma untouched_with_log f s : untouched s (with_log f s).
Proof. by split. Qed.
Lemma untouched_with_spec_edited b s : untouched s (with_spec_edited b s).
Proof. by split. Qed.
Lemma untouched_with_data_prev t s : untouched s (with_data_prev t s).
Proof. by split. Qed.
Lemma untouched_with_lblUnit t s : untouched s (with_lblUnit t s).
Proof. by split. Qed.

Create HintDb pres discriminated.
#[global] Hint Resolve grows_with_qlineedit_alter grows_with_qlabels_alter
  grows_with_qlineedit_app grows_with_qlabels_app grows_fil_update
  grows_with_sig_tx grows_with_log grows_with_spec_edited
  grows_with_data_prev grows_with_n_cur_labels grows_with_lblUnit
  untouched_with_qlineedit untouched_with_qlabels untouched_with_log
  untouched_with_spec_edited untouched_with_data_prev untouched_with_lblUnit
  : pres.

(** Decompose a computation into its primitive steps. *)
Ltac pres_step :=
  lazymatch goal with
  | |- preserves _ (_ ≫= _) => apply preserves_bind; [apply _| |intros]
  | |- preserves _ (mret _) => apply preserves_mret; apply _
  | |- preserves _ (raise _) => apply preserves_raise; apply _
  | |- preserves _ get => apply preserves_get; apply _
  | |- preserves _ (for_each _ _) => apply preserves_for_each; [apply _|intros]
  | |- preserves _ (list_comp _ _) => apply preserves_list_comp; [apply _|intros]
  | |- preserves _ (fil_get _) => apply preserves_fil_get; apply _
  | |- preserves _ (qlineedit_at _) => apply preserves_qlineedit_at; apply _
  | |- preserves _ (qlabels_at _) => apply preserves_qlabels_at; apply _
  | |- preserves _ (py_div _ _) => apply preserves_py_div; apply _
  | |- preserves _ (on_qlineedit _ _) =>
      apply preserves_on_qlineedit; [apply _|intros; auto with pres]
  | |- preserves _ (on_qlabel _ _) =>
      apply preserves_on_qlabel; [apply _|intros; auto with pres]
  | |- preserves _ (fil_update _ _) =>
      apply preserves_modify; intros; auto with pres
  | |- preserves _ (emit _ _) =>
      apply preserves_modify; intros; auto with pres
  | |- preserves _ (logger_warning _) =>
      apply preserves_modify; intros; auto with pres
  | |- preserves _ (modify _) =>
      apply preserves_modify; intros; auto with pres
  | |- preserves _ (if ?b then _ else _) => destruct b
  | |- preserves _ (match ?x with _ => _ end) => destruct x
  | |- preserves _ (let _ := _ in _) => cbv zeta
  end.
Ltac pres := repeat pres_step.

Section frame.
Variable safe_eval : string → string → float.
Variable py_str : float → string.
Variable FMT_format : float → string.
Variable to_html : string → string → string.

Lemma update_f_display_grows i :
  preserves grows (update_f_display py_str FMT_format i).
Proof. unfold update_f_display. pres. Qed.

Lemma load_dict_grows : preserves grows (load_dict py_str FMT_format).
Proof. unfold load_dict. pres. apply update_f_display_grows. Qed.

Lemma recalc_freqs_grows :
  preserves grows (recalc_freqs py_str FMT_format to_html).
Proof. unfold recalc_freqs. pres; apply load_dict_grows. Qed.

Lemma sort_dict_freqs_grows :
  preserves grows (sort_dict_freqs py_str FMT_format).
Proof. unfold sort_dict_freqs. pres; apply load_dict_grows. Qed.

Lemma _store_entry_grows i :
  preserves grows (_store_entry safe_eval py_str FMT_format i).
Proof.
  unfold _store_entry. pres;
    first [apply sort_dict_freqs_grows|apply update_f_display_grows].
Qed.

Lemma eventFilter_grows i e :
  preserves grows (eventFilter safe_eval py_str FMT_format i e).
Proof.
  unfold eventFilter. pres;
    first [apply _store_entry_grows|apply update_f_display_grows].
Qed.

Lemma _show_entries_grows n :
  preserves grows (_show_entries to_html n).
Proof. unfold _show_entries. pres. Qed.

Lemma update_UI_grows new_labels :
  preserves grows (update_UI py_str FMT_format to_html new_labels).
Proof.
  unfold update_UI. pres;
    first [apply _show_entries_grows|apply sort_dict_freqs_grows].
Qed.

Lemma process_sig_rx_grows d :
  preserves grows (process_sig_rx py_str FMT_format to_html d).
Proof. unfold process_sig_rx. pres. apply recalc_freqs_grows. Qed.

Lemma update_f_display_untouched i :
  preserves untouched (update_f_display py_str FMT_format i).
Proof. unfold update_f_display. pres. Qed.

Lemma load_dict_untouched :
  preserves untouched (load_dict py_str FMT_format).
Proof. unfold load_dict. pres. apply update_f_display_untouched. Qed.
End frame.

(** X1.  No event handler, signal handler or call of [update_UI] removes
    anything, whether it returns or raises: every key of the filter
    dictionary that has an entry keeps one, no line edit or label widget
    is destroyed, and the emitted signals and the log are only
    extended. *)
Theorem entry_points_only_grow safe_eval py_str FMT_format to_html s :
  (∀ i e, grows s (final (eventFilter safe_eval py_str FMT_format i e s)))
  ∧ (∀ d, grows s (final (process_sig_rx py_str FMT_format to_html d s)))
  ∧ (∀ new_labels,
       grows s (final (update_UI py_str FMT_format to_html new_labels s))).
Proof.
  split_and!; intros.
  - apply eventFilter_grows.
  - apply process_sig_rx_grows.
  - apply update_UI_grows.
Qed.

(** X2.  Gaining the focus, Escape, any other key or event, losing the
    focus without an edit, the widget's own signal, a signal that is not
    about f_S and any signal while the frequencies are not locked leave the
    filter dictionary and the emitted signals exactly as they were, also when
    the handler raises. *)
Theorem refresh_leaves_store_untouched
    safe_eval py_str FMT_format to_html s :
  (∀ i e, refreshes e s →
     untouched s (final (eventFilter safe_eval py_str FMT_format i e s)))
  ∧ (∀ d, not_rescaling d s →
     untouched s (final (process_sig_rx py_str FMT_format to_html d s))).
Proof.
  split.
  - intros i e [->|[->|[->|[->|[-> Hed]]]]]; unfold eventFilter.
    + apply (preserves_bind untouched); [by apply preserves_modify|].
      intros _. apply (preserves_bind untouched);
        [apply preserves_qlineedit_at; apply _|].
      intros w. apply (preserves_bind untouched);
        [by apply preserves_modify|].
      intros _. apply update_f_display_untouched.
    + apply (preserves_bind untouched); [by apply preserves_modify|].
      intros _. apply (preserves_bind untouched);
        [by apply preserves_modify|].
      intros _. apply update_f_display_untouched.
    + apply (preserves_bind untouched); [by apply preserves_modify|].
      intros _. apply preserves_mret. apply _.
    + done.
    + unfold _store_entry. rewrite run_bind. cbn [get]. rewrite Hed.
      apply update_f_display_untouched.
  - intros d Hd. unfold process_sig_rx. rewrite run_bind. cbn [get].
    case_decide; [done|]. case_decide; [|done].
    destruct Hd as [?|[?|Hlock]]; [done..|].
    unfold recalc_freqs. rewrite run_bind. cbn [get]. rewrite Hlock.
    match goal with
    | |- untouched s (final (?m s)) => assert (preserves untouched m) as Hp
    end; [|exact (Hp s)].
    apply (preserves_bind untouched); [apply preserves_mret; apply _|].
    intros _. apply (preserves_bind untouched); [apply load_dict_untouched|].
    intros _. apply (preserves_bind untouched); [apply preserves_get; apply _|].
    intros s0. by apply preserves_modify.
Qed.

Lemma refresh_leaves_store_untouched_witness :
  let s := typed 1 "0.1" "3/10" (two_fields fil_Hz) in
  let own := mkSig 0 (Some "f_S") in
  refreshes (KeyPress Key_Escape) s
  ∧ not_rescaling own s
  ∧ untouched s (final (eventFilter eval_literal show_ratio show_ratio 1
                          (KeyPress Key_Escape) s))
  ∧ untouched s (final (process_sig_rx show_ratio show_ratio plain_html
                          own s)).
Proof.
  intros s own.
  assert (Hr : refreshes (KeyPress Key_Escape) s) by (right; by left).
  assert (Hn : not_rescaling own s) by (left; by vm_compute).
  split; [exact Hr|]. split; [exact Hn|]. split.
  - exact (proj1 (refresh_leaves_store_untouched eval_literal show_ratio
                    show_ratio plain_html s) 1 _ Hr).
  - exact (proj2 (refresh_leaves_store_untouched eval_literal show_ratio
                    show_ratio plain_html s) _ Hn).
Defined.

(** ** Validation of the displayed value *)

Section validation.
Variable py_str : float → string.
Variable FMT_format : float → string.

Lemma update_f_display_checks i s w v :
  qlineedit s !! i = Some w →
  entries (fil s) !! split_colon (objectName w) = Some v →
  ∃ s', update_f_display py_str FMT_format i s = Ok tt s'
    ∧ qlineedit s'
      = alter (λ w, qstyle_widget
                      (if decide (in_range v) then "normal" else "failed")
                      (setText (shown_text py_str FMT_format w v
                                  (f_S (fil s))) w)) i (qlineedit s)
    ∧ log s' = log s ++ range_warning (objectName w) v.
Proof.
  intros Hw Hv. unfold update_f_display.
  rewrite (bind_Ok _ _ _ _ _ (qlineedit_at_Ok _ _ _ Hw)).
  rewrite (bind_Ok _ _ _ _ _ (fil_get_Ok _ _ _ Hv)).
  rewrite run_bind. cbn [get].
  set (t := shown_text py_str FMT_format w v (f_S (fil s))).
  set (s1 := with_qlineedit (alter (setText t) i) s).
  assert (Hw1 : qlineedit s1 !! i = Some (setText t w)).
  { simpl. by rewrite list_lookup_alter_eq, Hw. }
  assert (Hset : ∀ (k : unit → M unit),
    ((if hasFocus w
      then on_qlineedit i (setText (py_str (f_value_of v (f_S (fil s)))))
      else on_qlineedit i (setText (FMT_format (f_value_of v (f_S (fil s))))))
     ≫= k) s = k tt s1).
  { intros k. subst s1 t. unfold shown_text.
    destruct (hasFocus w);
      by rewrite (bind_Ok _ _ _ _ _ (on_qlineedit_Ok _ _ _ _ Hw)). }
  rewrite Hset. clear Hset.
  assert (Hcomp : ∀ st st', st = st' →
    alter (qstyle_widget st) i (alter (setText t) i (qlineedit s))
    = alter (λ w0, qstyle_widget st'
               (setText (shown_text py_str FMT_format w0 v (f_S (fil s))) w0))
            i (qlineedit s)).
  { intros st st' <-. rewrite list_alter_alter_eq.
    apply list_alter_ext; [|done]. intros x Hx. rewrite Hw in Hx.
    by simplify_eq. }
  unfold range_warning.
  destruct (decide (v ≤ Q2Qc 0)%Qc) as [Hle|Hgt].
  - rewrite run_bind. cbn [logger_warning modify].
    eexists. split; [by apply (on_qlineedit_Ok _ _ _ (setText t w))|].
    simpl. split; [|done]. apply Hcomp. rewrite decide_False; [done|].
    intros [Hpos _]. by apply Qclt_not_le in Hpos.
  - destruct (decide (Q2Qc (1 # 2) ≤ v)%Qc) as [Hny|Hlt].
    + rewrite run_bind. cbn [logger_warning modify].
      eexists. split; [by apply (on_qlineedit_Ok _ _ _ (setText t w))|].
      simpl. split; [|done]. apply Hcomp. rewrite decide_False; [done|].
      intros [_ Hlt]. by apply Qclt_not_le in Hlt.
    + eexists. split; [by apply (on_qlineedit_Ok _ _ _ (setText t w))|].
      simpl. split; [|by rewrite app_nil_r]. apply Hcomp.
      rewrite decide_True; [done|]. split; by apply Qcnot_le_lt.
Qed.
End validation.

(** X3.  [update_f_display] validates without correcting.  For a line edit
    with a stored value [v] it completes, leaves the filter dictionary as it
    is, sets the style state to normal exactly when [0 < v < 1/2] and to
    failed otherwise (0 and 1/2 included), logs one range warning naming
    the line edit exactly in the failed case, shows [v * f_S], and changes
    no other line edit. *)
Theorem update_f_display_flags_range py_str FMT_format i s w v :
  qlineedit s !! i = Some w →
  entries (fil s) !! split_colon (objectName w) = Some v →
  ∃ s' w',
    update_f_display py_str FMT_format i s = Ok tt s'
    ∧ fil s' = fil s
    ∧ qlineedit s' !! i = Some w'
    ∧ objectName w' = objectName w
    ∧ text w' = shown_text py_str FMT_format w v (f_S (fil s))
    ∧ (state w' = "normal" ↔ in_range v)
    ∧ (state w' = "failed" ↔ ¬ in_range v)
    ∧ (log s' = log s ↔ in_range v)
    ∧ (¬ in_range v →
         ∃ warn, log s' = log s ++ [warn]
                 ∧ (warn = Warn_not_positive (objectName w)
                    ∨ warn = Warn_nyquist (objectName w)))
    ∧ (∀ j, j ≠ i → qlineedit s' !! j = qlineedit s !! j).
Proof.
  intros Hw Hv.
  destruct (update_f_display_checks py_str FMT_format i s w v Hw Hv)
    as (s' & Hrun & Hws & Hlog).
  destruct (update_f_display_Ok py_str FMT_format i s w v Hw Hv)
    as (s'' & Hrun' & [Hfil _ _ _] & _).
  rewrite Hrun in Hrun'. simplify_eq.
  eexists s'', _. split_and!; [done|done| | | | | | | |].
  - by rewrite Hws, list_lookup_alter_eq, Hw.
  - by destruct w.
  - done.
  - simpl. case_decide; naive_solver.
  - simpl. case_decide; naive_solver.
  - rewrite Hlog. unfold range_warning, in_range.
    destruct (decide (v ≤ Q2Qc 0)%Qc) as [Hle|Hgt];
      [|destruct (decide (Q2Qc (1 # 2) ≤ v)%Qc) as [Hny|Hlt]].
    + split; [intros H'|intros [Hpos _]; by apply Qclt_not_le in Hpos].
      apply (f_equal length) in H'. rewrite length_app in H'. simpl in H'. lia.
    + split; [intros H'|intros [_ Hlt]; by apply Qclt_not_le in Hlt].
      apply (f_equal length) in H'. rewrite length_app in H'. simpl in H'. lia.
    + rewrite app_nil_r. split; [|done]. intros _. split; by apply Qcnot_le_lt.
  - intros Hout. rewrite Hlog. unfold range_warning.
    destruct (decide (v ≤ Q2Qc 0)%Qc) as [Hle|Hgt];
      [|destruct (decide (Q2Qc (1 # 2) ≤ v)%Qc) as [Hny|Hlt]].
    + eexists. split; [done|by left].
    + eexists. split; [done|by right].
    + destruct Hout. split; by apply Qcnot_le_lt.
  - intros j Hj. by rewrite Hws, list_lookup_alter_ne.
Qed.

Lemma update_f_display_flags_range_witness :
  let s := two_fields (set_entries (<["F_SB" := Q2Qc 0]> (<["F_PB" := Q2Qc (1 # 2)]> ∅)) fil_unlocked) in
  let w := mkQLineEdit "F_PB" "1000/1" false false "failed" in
  qlineedit s !! 1 = Some w
  ∧ entries (fil s) !! split_colon (objectName w) = Some (Q2Qc (1 # 2))
  ∧ ∃ s' w',
      update_f_display show_ratio show_ratio 1 s = Ok tt s'
      ∧ fil s' = fil s
      ∧ qlineedit s' !! 1 = Some w'
      ∧ objectName w' = objectName w
      ∧ text w' = shown_text show_ratio show_ratio w (Q2Qc (1 # 2)) (f_S (fil s))
      ∧ (state w' = "normal" ↔ in_range (Q2Qc (1 # 2)))
      ∧ (state w' = "failed" ↔ ¬ in_range (Q2Qc (1 # 2)))
      ∧ (log s' = log s ↔ in_range (Q2Qc (1 # 2)))
      ∧ (¬ in_range (Q2Qc (1 # 2)) →
           ∃ warn, log s' = log s ++ [warn]
                   ∧ (warn = Warn_not_positive (objectName w)
                      ∨ warn = Warn_nyquist (objectName w)))
      ∧ (∀ j, j ≠ 1 → qlineedit s' !! j = qlineedit s !! j).
Proof.
  intros s w. split; [by vm_compute|]. split; [by_compute|].
  apply update_f_display_flags_range; [by vm_compute|by_compute].
Defined.

(** ** Edit sessions *)

Lemma same_shape_type_text i t s :
  fil (type_text i t s) = fil s ∧ same_shape s (type_text i t s).
Proof.
  split; [done|]. split; simpl; try done.
  all: apply fmap_alter_same; by intros [].
Qed.

Section events.
Variable safe_eval : string → string → float.
Variable py_str : float → string.
Variable FMT_format : float → string.

(** Losing the focus without a pending edit refreshes the display. *)
Lemma focus_out_unedited i s w :
  spec_edited s = false →
  displayable s → qlineedit s !! i = Some w →
  ∃ s', eventFilter safe_eval py_str FMT_format i FocusOut s = Ok tt s'
        ∧ display_only s s'.
Proof.
  intros Hed Hd Hw. cbn [eventFilter]. unfold _store_entry.
  rewrite run_bind. cbn [get]. rewrite Hed.
  destruct (displayable_lookup s i w Hd Hw) as (v & l & Hv & _).
  destruct (update_f_display_Ok py_str FMT_format i s w v Hw Hv)
    as (s' & Hrun & Hs' & _).
  by exists s'.
Qed.

(** A committed edit leaves the widget displayable and sortable. *)
Lemma _store_entry_edited_shape i s w prev :
  spec_edited s = true →
  qlineedit s !! i = Some w →
  data_prev s = Some prev →
  f_S (fil s) ≠ Q2Qc 0 →
  sortable s → displayable s →
  ∃ s', _store_entry safe_eval py_str FMT_format i s = Ok tt s'
    ∧ fil s' = fil (sort_stored
                      (stored (objectName w)
                         (safe_eval (text w) prev / f_S (fil s))%Qc s))
    ∧ sig_tx s' = sig_tx s ++ [specs_changed]
    ∧ spec_edited s' = false
    ∧ data_prev s' = data_prev s
    ∧ same_shape (with_spec_edited false s) s'
    ∧ sortable s' ∧ displayable s'.
Proof.
  intros Hed Hw Hprev HfS Hsort Hdisp. unfold _store_entry.
  rewrite run_bind. cbn [get]. rewrite Hed, Hprev.
  rewrite (bind_Ok _ _ _ _ _ (qlineedit_at_Ok _ _ _ Hw)).
  rewrite (bind_Ok (mret prev) _ s prev s eq_refl).
  rewrite (bind_Ok _ _ _ _ _ (py_div_Ok _ _ _ HfS)).
  rewrite run_bind. cbn [fil_update modify].
  set (s1 := with_fil _ s).
  assert (Hs1 : sortable s1) by by apply stored_sortable.
  assert (Hd1 : displayable s1) by by apply stored_displayable.
  destruct (sort_dict_freqs_Ok py_str FMT_format s1 Hs1 Hd1)
    as (s2 & Hrun & Hs2).
  rewrite (bind_Ok _ _ _ _ _ Hrun).
  rewrite run_bind. cbn [emit modify].
  pose proof (sort_stored_displayable s1 Hd1) as Hd1'.
  assert (Hs1' : sortable (sort_stored s1)).
  { destruct Hs1 as [Hn Hall]. split; [done|].
    eapply Forall_impl; [exact Hall|]. intros k. simpl.
    apply write_back_is_Some. }
  destruct Hs2 as [Hfil Hsig Hlog Hshape].
  eexists. split; [done|]. simpl. split_and!; try done.
  - by rewrite Hsig.
  - by rewrite (shape_prev _ _ Hshape).
  - destruct Hshape. by split.
  - apply (sortable_names (sort_stored s1)); simpl;
      [by destruct Hshape|by destruct Hshape|by rewrite Hfil|done].
  - apply (displayable_names (sort_stored s1)); simpl;
      [by destruct Hshape| |by rewrite Hfil|done].
    rewrite <-(length_fmap lbl_hidden), (shape_labels _ _ Hshape).
    by rewrite length_fmap.
Qed.
End events.

(** X4.  Escape discards a pending edit.  Whatever text the line edit
    holds and whether or not the edited flag is set, the Escape key shows
    the stored value again and clears the flag, and the loss of focus that
    follows stores nothing and emits nothing. *)
Theorem escape_discards_edit safe_eval py_str FMT_format i s w :
  displayable s →
  qlineedit s !! i = Some w →
  ∃ v s1 s2,
    entries (fil s) !! split_colon (objectName w) = Some v
    ∧ eventFilter safe_eval py_str FMT_format i (KeyPress Key_Escape) s
      = Ok tt s1
    ∧ spec_edited s1 = false
    ∧ text <$> qlineedit s1 !! i
      = Some (shown_text py_str FMT_format w v (f_S (fil s)))
    ∧ eventFilter safe_eval py_str FMT_format i FocusOut s1 = Ok tt s2
    ∧ fil s2 = fil s
    ∧ sig_tx s2 = sig_tx s.
Proof.
  intros Hd Hw.
  destruct (displayable_lookup s i w Hd Hw) as (v & l & Hv & _).
  set (s0 := with_spec_edited false (with_spec_edited true s)).
  destruct (update_f_display_Ok py_str FMT_format i s0 w v Hw Hv)
    as (s1 & Hrun1 & Hs1 & Htext).
  assert (Hd1 : displayable s1) by by apply (displayable_display_only s0).
  destruct (same_shape_lookup s0 s1 i w (disp_shape _ _ Hs1) Hw)
    as (w1 & Hw1 & _).
  destruct (focus_out_unedited safe_eval py_str FMT_format i s1 w1)
    as (s2 & Hrun2 & Hs2); [|done..|].
  { by rewrite (shape_edited _ _ (disp_shape _ _ Hs1)). }
  exists v, s1, s2. split_and!; try done.
  - by rewrite (shape_edited _ _ (disp_shape _ _ Hs1)).
  - by rewrite (disp_fil _ _ Hs2), (disp_fil _ _ Hs1).
  - by rewrite (disp_sig_tx _ _ Hs2), (disp_sig_tx _ _ Hs1).
Qed.

Lemma escape_discards_edit_witness :
  let s := typed 1 "abc" "600/1" (two_fields fil_Hz) in
  let w := mkQLineEdit "F_PB" "abc" false false "normal" in
  displayable s
  ∧ qlineedit s !! 1 = Some w
  ∧ ∃ v s1 s2,
      entries (fil s) !! split_colon (objectName w) = Some v
      ∧ eventFilter eval_literal show_ratio show_ratio 1
          (KeyPress Key_Escape) s = Ok tt s1
      ∧ spec_edited s1 = false
      ∧ text <$> qlineedit s1 !! 1
        = Some (shown_text show_ratio show_ratio w v (f_S (fil s)))
      ∧ eventFilter eval_literal show_ratio show_ratio 1 FocusOut s1
        = Ok tt s2
      ∧ fil s2 = fil s
      ∧ sig_tx s2 = sig_tx s.
Proof.
  intros s w. split; [by_compute|]. split; [by vm_compute|].
  apply escape_discards_edit; [by_compute|by vm_compute].
Defined.

(** X5.  An edit session.  Gaining the focus records the text shown at that
    moment as [data_prev]; after the user has typed [t] and pressed a key
    that is neither Return, Enter nor Escape, losing the focus stores
    [safe_eval(t, text shown before the focus) / f_S] under the name of the
    line edit, sorts, emits one signal and clears the flag.  None of the
    three handlers raises on a displayable, sortable widget with
    [f_S ≠ 0]. *)
Theorem edit_session_stores safe_eval py_str FMT_format i t s w :
  displayable s → sortable s →
  f_S (fil s) ≠ Q2Qc 0 →
  qlineedit s !! i = Some w →
  ∃ s1 s2 s3,
    eventFilter safe_eval py_str FMT_format i FocusIn s = Ok tt s1
    ∧ data_prev s1 = Some (text w)
    ∧ fil s1 = fil s
    ∧ eventFilter safe_eval py_str FMT_format i (KeyPress Key_other)
        (type_text i t s1) = Ok tt s2
    ∧ eventFilter safe_eval py_str FMT_format i FocusOut s2 = Ok tt s3
    ∧ fil s3 = fil (sort_stored
                      (stored (objectName w)
                         (safe_eval t (text w) / f_S (fil s))%Qc s))
    ∧ sig_tx s3 = sig_tx s ++ [specs_changed]
    ∧ spec_edited s3 = false.
Proof.
  intros Hd Hsort HfS Hw.
  destruct (displayable_lookup s i w Hd Hw) as (v & l & Hv & _).
  (* FocusIn *)
  set (s0 := with_data_prev (text w) (with_spec_edited false s)).
  destruct (update_f_display_Ok py_str FMT_format i s0 w v Hw Hv)
    as (s1 & Hrun1 & Hs1 & _).
  assert (Hin : eventFilter safe_eval py_str FMT_format i FocusIn s
                = Ok tt s1).
  { cbn [eventFilter]. rewrite run_bind. cbn [modify].
    assert (qlineedit (with_spec_edited false s) !! i = Some w) as Hw0 by done.
    rewrite (bind_Ok _ _ _ _ _ (qlineedit_at_Ok _ _ _ Hw0)).
    rewrite run_bind. by cbn [modify]. }
  destruct (same_shape_lookup s0 s1 i w (disp_shape _ _ Hs1) Hw)
    as (w1 & Hw1 & Hname1).
  (* the text is typed and a key is pressed *)
  set (s2 := with_spec_edited true (type_text i t s1)).
  assert (Hkey : eventFilter safe_eval py_str FMT_format i
                   (KeyPress Key_other) (type_text i t s1) = Ok tt s2).
  { cbn [eventFilter]. rewrite run_bind. by cbn [modify]. }
  assert (Hw2 : qlineedit s2 !! i = Some (setText t w1)).
  { simpl. by rewrite list_lookup_alter_eq, Hw1. }
  assert (Hnames2 : objectName <$> qlineedit s2 = objectName <$> qlineedit s).
  { simpl. rewrite fmap_alter_same by (by intros []).
    apply (shape_names _ _ (disp_shape _ _ Hs1)). }
  assert (Hfil2 : fil s2 = fil s) by apply (disp_fil _ _ Hs1).
  assert (Hcur2 : n_cur_labels s2 = n_cur_labels s)
    by apply (shape_n_cur _ _ (disp_shape _ _ Hs1)).
  assert (Hsort2 : sortable s2).
  { apply (sortable_names s); [done..|by rewrite Hfil2|done]. }
  assert (Hd2 : displayable s2).
  { apply (displayable_names s); [done| |by rewrite Hfil2|done]. simpl.
    rewrite <-(length_fmap lbl_hidden),
      (shape_labels _ _ (disp_shape _ _ Hs1)).
    by rewrite length_fmap. }
  assert (Hprev2 : data_prev s2 = Some (text w)).
  { simpl. by rewrite (shape_prev _ _ (disp_shape _ _ Hs1)). }
  assert (Hed2 : spec_edited s2 = true) by done.
  assert (Hsig2 : sig_tx s2 = sig_tx s) by apply (disp_sig_tx _ _ Hs1).
  clearbody s2.
  (* FocusOut *)
  destruct (_store_entry_edited_shape safe_eval py_str FMT_format i s2
              (setText t w1) (text w))
    as (s3 & Hrun3 & Hfil3 & Hsig3 & Hed3 & _); try done.
  { by rewrite Hfil2. }
  exists s1, s2, s3.
  split; [exact Hin|].
  split; [by rewrite (shape_prev _ _ (disp_shape _ _ Hs1))|].
  split; [apply (disp_fil _ _ Hs1)|].
  split; [exact Hkey|]. split; [exact Hrun3|].
  split; [|split; [|exact Hed3]].
  - rewrite Hfil3. simpl text. rewrite Hfil2.
    replace (objectName (setText t w1)) with (objectName w)
      by (by destruct w1; simpl in *).
    set (x := (safe_eval t (text w) / f_S (fil s))%Qc).
    unfold sort_stored. simpl.
    assert (Han : active_names s2 = active_names s).
    { unfold active_names, active. by rewrite !fmap_take, Hnames2, Hcur2. }
    assert (Hav : active_values (stored (objectName w) x s2)
                  = active_values (stored (objectName w) x s)).
    { rewrite !active_values_names. simpl.
      change (active_names (stored (objectName w) x s2)) with (active_names s2).
      change (active_names (stored (objectName w) x s)) with (active_names s).
      by rewrite Han, Hfil2. }
    rewrite Hav, Hfil2. f_equal. apply write_back_names.
    exact Han.
  - by rewrite Hsig3, Hsig2.
Qed.

Lemma edit_session_stores_witness :
  let s := two_fields fil_scenario in
  let w := mkQLineEdit "F_PB" "3/10" false false "normal" in
  displayable s ∧ sortable s
  ∧ f_S (fil s) ≠ Q2Qc 0
  ∧ qlineedit s !! 1 = Some w
  ∧ ∃ s1 s2 s3,
      eventFilter eval_literal show_ratio show_ratio 1 FocusIn s = Ok tt s1
      ∧ data_prev s1 = Some (text w)
      ∧ fil s1 = fil s
      ∧ eventFilter eval_literal show_ratio show_ratio 1 (KeyPress Key_other)
          (type_text 1 "0.1" s1) = Ok tt s2
      ∧ eventFilter eval_literal show_ratio show_ratio 1 FocusOut s2 = Ok tt s3
      ∧ fil s3 = fil (sort_stored
                        (stored (objectName w)
                           (eval_literal "0.1" (text w) / f_S (fil s))%Qc s))
      ∧ sig_tx s3 = sig_tx s ++ [specs_changed]
      ∧ spec_edited s3 = false.
Proof.
  intros s w. split; [by_compute|]. split; [by_compute|].
  split; [by_compute|]. split; [by vm_compute|].
  apply edit_session_stores; [by_compute|by_compute|by_compute|by vm_compute].
Defined.

(** X6.  Return commits, and commits once.  The Return (or Enter) key
    stores [safe_eval(text, data_prev) / f_S] whether or not the edited flag
    was set, emits one signal and clears the flag; the loss of focus that
    follows stores nothing more and emits nothing more. *)
Theorem return_commits_once safe_eval py_str FMT_format i key s w prev :
  key = Key_Return ∨ key = Key_Enter →
  displayable s → sortable s →
  f_S (fil s) ≠ Q2Qc 0 →
  qlineedit s !! i = Some w →
  data_prev s = Some prev →
  ∃ s1 s2,
    eventFilter safe_eval py_str FMT_format i (KeyPress key) s = Ok tt s1
    ∧ fil s1 = fil (sort_stored
                      (stored (objectName w)
                         (safe_eval (text w) prev / f_S (fil s))%Qc s))
    ∧ sig_tx s1 = sig_tx s ++ [specs_changed]
    ∧ spec_edited s1 = false
    ∧ eventFilter safe_eval py_str FMT_format i FocusOut s1 = Ok tt s2
    ∧ fil s2 = fil s1
    ∧ sig_tx s2 = sig_tx s1.
Proof.
  intros Hkey Hd Hsort HfS Hw Hprev.
  set (s0 := with_spec_edited true s).
  destruct (_store_entry_edited_shape safe_eval py_str FMT_format i s0 w prev)
    as (s1 & Hrun1 & Hfil1 & Hsig1 & Hed1 & _ & Hshape1 & Hsort1 & Hd1);
    try done.
  assert (Hret : eventFilter safe_eval py_str FMT_format i (KeyPress key) s
                 = Ok tt s1).
  { cbn [eventFilter]. rewrite run_bind. cbn [modify].
    by destruct Hkey as [-> | ->]. }
  destruct (same_shape_lookup _ s1 i w Hshape1 Hw) as (w1 & Hw1 & _).
  destruct (focus_out_unedited safe_eval py_str FMT_format i s1 w1)
    as (s2 & Hrun2 & Hs2); [done..|].
  exists s1, s2. split_and!; try done.
  - apply (disp_fil _ _ Hs2).
  - apply (disp_sig_tx _ _ Hs2).
Qed.

Lemma return_commits_once_witness :
  let s := with_data_prev "3/10" (type_text 1 "0.1" (two_fields fil_scenario)) in
  let w := mkQLineEdit "F_PB" "0.1" false false "normal" in
  (Key_Return = Key_Return ∨ Key_Return = Key_Enter)
  ∧ displayable s ∧ sortable s
  ∧ f_S (fil s) ≠ Q2Qc 0
  ∧ qlineedit s !! 1 = Some w
  ∧ data_prev s = Some "3/10"
  ∧ ∃ s1 s2,
      eventFilter eval_literal show_ratio show_ratio 1 (KeyPress Key_Return) s
      = Ok tt s1
      ∧ fil s1 = fil (sort_stored
                        (stored (objectName w)
                           (eval_literal (text w) "3/10" / f_S (fil s))%Qc s))
      ∧ sig_tx s1 = sig_tx s ++ [specs_changed]
      ∧ spec_edited s1 = false
      ∧ eventFilter eval_literal show_ratio show_ratio 1 FocusOut s1 = Ok tt s2
      ∧ fil s2 = fil s1
      ∧ sig_tx s2 = sig_tx s1.
Proof.
  intros s w. split; [by left|]. split; [by_compute|]. split; [by_compute|].
  split; [by_compute|]. split; [by vm_compute|]. split; [by_compute|].
  apply return_commits_once;
    [by left|by_compute|by_compute|by_compute|by vm_compute|by_compute].
Defined.

(** ** Sorting twice *)

Lemma merge_sort_sorted (l : list float) :
  StronglySorted Qcle l → merge_sort Qcle l = l.
Proof.
  intros Hl. apply (StronglySorted_unique Qcle); [|done|].
  - apply StronglySorted_merge_sort; apply _.
  - apply merge_sort_Permutation.
Qed.

Lemma sorted_if_idemp b l : sorted_if b (sorted_if b l) = sorted_if b l.
Proof.
  destruct b; simpl; [|done]. apply merge_sort_sorted.
  apply StronglySorted_merge_sort; apply _.
Qed.

(** After the write-back the visible slots hold the list written. *)
Lemma write_back_values ws vals E :
  NoDup (objectName <$> ws) → length vals = length ws →
  (λ w, entry (write_back ws vals E) (objectName w)) <$> ws = vals.
Proof.
  intros Hnd Hlen. apply list_eq. intros i. rewrite list_lookup_fmap.
  destruct (ws !! i) as [w|] eqn:Hw; simpl.
  - unfold entry. rewrite (write_back_lookup ws vals E i w) by done.
    destruct (lookup_lt_is_Some_2 vals i) as [v Hv]; [|by rewrite Hv].
    rewrite Hlen. by eapply lookup_lt_Some.
  - symmetry. apply lookup_ge_None. rewrite Hlen. by apply lookup_ge_None.
Qed.

Lemma sort_stored_values s :
  NoDup (active_names s) →
  active_values (sort_stored s)
  = sorted_if (freq_specs_sort (fil s)) (active_values s).
Proof.
  intros Hnd. unfold active_values at 1. simpl.
  change (active (sort_stored s)) with (active s).
  apply write_back_values; [done|].
  rewrite sorted_if_length. unfold active_values. by rewrite length_fmap.
Qed.

Lemma sort_stored_fixpoint s :
  sortable s → NoDup (active_names s) →
  fil (sort_stored (sort_stored s)) = fil (sort_stored s).
Proof.
  intros Hsort Hnd.
  set (s1 := sort_stored s).
  assert (Hv : sorted_if (freq_specs_sort (fil s1)) (active_values s1)
               = (λ w, entry (entries (fil s1)) (objectName w)) <$> active s1).
  { subst s1. rewrite sort_stored_values by done.
    change (freq_specs_sort (fil (sort_stored s)))
      with (freq_specs_sort (fil s)).
    rewrite sorted_if_idemp, <-sort_stored_values by done. done. }
  assert (Hall : Forall (λ k, is_Some (entries (fil s1) !! k))
                   (objectName <$> active s1)).
  { destruct Hsort as [_ Hall].
    eapply Forall_impl; [exact Hall|]. intros k. subst s1. simpl.
    apply write_back_is_Some. }
  clearbody s1. unfold sort_stored.
  change (fil (with_log ?f ?x)) with (fil x). unfold with_fil. simpl fil.
  rewrite Hv, write_back_same by done. by destruct (fil s1).
Qed.

(** X7.  Sorting is idempotent.  On a widget whose visible line edits have
    distinct stored names, a second [sort_dict_freqs] right after the first
    completes and leaves the filter dictionary as the first one left it,
    with sorting on or off. *)
Theorem sort_dict_freqs_idempotent py_str FMT_format s :
  sortable s → displayable s → NoDup (active_names s) →
  ∃ s1 s2,
    sort_dict_freqs py_str FMT_format s = Ok tt s1
    ∧ sort_dict_freqs py_str FMT_format s1 = Ok tt s2
    ∧ fil s2 = fil s1
    ∧ active_values s2 = active_values s1
    ∧ active_names s2 = active_names s.
Proof.
  intros Hsort Hd Hnd.
  destruct (sort_dict_freqs_Ok py_str FMT_format s Hsort Hd)
    as (s1 & Hrun1 & Hs1).
  assert (Hsort' : sortable (sort_stored s)).
  { destruct Hsort as [Hn Hall]. split; [done|].
    eapply Forall_impl; [exact Hall|]. intros k. simpl.
    apply write_back_is_Some. }
  assert (Hsort1 : sortable s1).
  { apply (sortable_names (sort_stored s));
      [apply (shape_names _ _ (disp_shape _ _ Hs1))
      |apply (shape_n_cur _ _ (disp_shape _ _ Hs1))
      |by rewrite (disp_fil _ _ Hs1)|done]. }
  assert (Hd1 : displayable s1).
  { apply (displayable_display_only (sort_stored s)); [done|].
    by apply sort_stored_displayable. }
  destruct (sort_dict_freqs_Ok py_str FMT_format s1 Hsort1 Hd1)
    as (s2 & Hrun2 & Hs2).
  assert (Hfil : fil s2 = fil s1).
  { rewrite (disp_fil _ _ Hs2).
    rewrite (sort_stored_fil_same_shape (sort_stored s) s1);
      [|apply (disp_shape _ _ Hs1)|apply (disp_fil _ _ Hs1)].
    rewrite (disp_fil _ _ Hs1). by apply sort_stored_fixpoint. }
  assert (Hn2 : active_names s2 = active_names s1).
  { rewrite (active_names_same_shape _ _ (disp_shape _ _ Hs2)).
    apply (active_names_same_shape s1 (sort_stored s1)). by split. }
  assert (Hn1 : active_names s1 = active_names s).
  { rewrite (active_names_same_shape _ _ (disp_shape _ _ Hs1)).
    apply (active_names_same_shape s (sort_stored s)). by split. }
  exists s1, s2. split_and!; try done.
  - by rewrite !active_values_names, Hn2, Hfil.
  - by rewrite Hn2.
Qed.

Lemma sort_dict_freqs_idempotent_witness :
  let s := stored "F_PB" (Q2Qc (1 # 10)) (two_fields fil_scenario) in
  sortable s ∧ displayable s ∧ NoDup (active_names s)
  ∧ ∃ s1 s2,
      sort_dict_freqs show_ratio show_ratio s = Ok tt s1
      ∧ sort_dict_freqs show_ratio show_ratio s1 = Ok tt s2
      ∧ fil s2 = fil s1
      ∧ active_values s2 = active_values s1
      ∧ active_names s2 = active_names s.
Proof.
  intros s. split; [by_compute|]. split; [by_compute|]. split; [by_compute|].
  apply sort_dict_freqs_idempotent; by_compute.
Defined.

(** ** The display follows the store *)

(** A loop over [range(a, a + n)] whose body takes an invariant indexed by
    the loop variable from [i] to [i + 1]. *)
Lemma for_each_seq_inv (P : nat → FreqSpecs → Prop) (body : nat → M unit) n :
  ∀ a s,
    (∀ i s, a ≤ i < a + n → P i s →
       ∃ s', body i s = Ok tt s' ∧ P (S i) s') →
    P a s →
    ∃ s', for_each (seq a n) body s = Ok tt s' ∧ P (a + n) s'.
Proof.
  induction n as [|n IH]; intros a s Hbody Hs; simpl.
  - exists s. by rewrite Nat.add_0_r.
  - destruct (Hbody a s) as (s1 & Hrun & Hs1); [lia|done|].
    rewrite (bind_Ok _ _ _ _ _ Hrun).
    destruct (IH (S a) s1) as (s' & Hrun' & Hs'); [|done|].
    { intros i s2 Hi. apply Hbody. lia. }
    exists s'. split; [done|]. by rewrite <-Nat.add_succ_comm.
Qed.

Section refresh.
Variable py_str : float → string.
Variable FMT_format : float → string.

Lemma update_f_display_shows i s w v :
  qlineedit s !! i = Some w →
  entries (fil s) !! split_colon (objectName w) = Some v →
  ∃ s' w', update_f_display py_str FMT_format i s = Ok tt s'
    ∧ display_only s s'
    ∧ qlineedit s' = <[i := w']> (qlineedit s)
    ∧ shows_stored py_str FMT_format (fil s) w'.
Proof.
  intros Hw Hv.
  destruct (update_f_display_checks py_str FMT_format i s w v Hw Hv)
    as (s' & Hrun & Hws & _).
  destruct (update_f_display_Ok py_str FMT_format i s w v Hw Hv)
    as (s'' & Hrun' & Hdisp & _).
  rewrite Hrun in Hrun'. simplify_eq.
  eexists s'', _. split_and!; [done|done| |].
  - rewrite Hws. apply list_eq. intros j.
    destruct (decide (i = j)) as [<-|Hne].
    + rewrite list_lookup_alter_eq, Hw, list_lookup_insert_eq; [done|].
      by eapply lookup_lt_Some.
    + by rewrite list_lookup_alter_ne, list_lookup_insert_ne.
  - unfold shows_stored, entry. destruct w. simpl in *. by rewrite Hv.
Qed.

(** After [load_dict] every line edit shows what is stored for it. *)
Lemma load_dict_consistent s :
  displayable s →
  ∃ s', load_dict py_str FMT_format s = Ok tt s'
        ∧ display_only s s'
        ∧ consistent py_str FMT_format s'.
Proof.
  intros Hd. unfold load_dict. rewrite run_bind. cbn [get]. rewrite range_0.
  set (P := λ (k : nat) (s1 : FreqSpecs),
         display_only s s1
         ∧ Forall (shows_stored py_str FMT_format (fil s))
                  (take k (qlineedit s1))).
  edestruct (for_each_seq_inv P) as (s' & Hrun & Hs' & Hall);
    [| |exists s'; split; [exact Hrun|]].
  - intros i s1 [_ Hi] [Hs1 Hshown]. simpl in Hi.
    assert (is_Some (qlineedit s1 !! i)) as [w Hw].
    { apply lookup_lt_is_Some_2.
      rewrite <-(length_fmap objectName),
        (shape_names _ _ (disp_shape _ _ Hs1)).
      by rewrite length_fmap. }
    destruct (displayable_lookup s1 i w) as (v & l & Hv & Hl);
      [by eapply displayable_display_only|done|].
    destruct (update_f_display_shows i s1 w v Hw Hv)
      as (s2 & w' & Hrun & Hs2 & Hws2 & Hw').
    rewrite (bind_Ok _ _ _ _ _ Hrun).
    assert (is_Some (qlabels s2 !! i)) as [l2 Hl2].
    { apply lookup_lt_is_Some_2. apply lookup_lt_Some in Hl.
      rewrite <-(length_fmap lbl_hidden),
        (shape_labels _ _ (disp_shape _ _ Hs2)).
      by rewrite length_fmap. }
    rewrite (bind_Ok _ _ _ _ _ (qlabels_at_Ok _ _ _ Hl2)).
    rewrite run_bind. cbn [get].
    eexists. split; [by eapply on_qlabel_Ok|]. split.
    + etrans; [exact Hs1|]. etrans; [exact Hs2|].
      apply display_only_lbl_setText.
    + simpl. rewrite Hws2.
      rewrite (take_S_r _ _ w').
      * rewrite take_insert_ge by lia. apply Forall_app. split; [done|].
        apply Forall_singleton. by rewrite <-(disp_fil _ _ Hs1).
      * apply list_lookup_insert_eq. by eapply lookup_lt_Some.
  - split; [done|]. by rewrite take_0.
  - split; [done|]. simpl in Hall. unfold consistent.
    rewrite (disp_fil _ _ Hs').
    rewrite take_ge in Hall; [done|].
    rewrite <-(length_fmap objectName (qlineedit s')),
      (shape_names _ _ (disp_shape _ _ Hs')).
    by rewrite length_fmap.
Qed.
End refresh.

Section consistency.
Variable safe_eval : string → string → float.
Variable py_str : float → string.
Variable FMT_format : float → string.
Variable to_html : string → string → string.

Lemma sort_dict_freqs_consistent s :
  sortable s → displayable s →
  ∃ s', sort_dict_freqs py_str FMT_format s = Ok tt s'
        ∧ display_only (sort_stored s) s'
        ∧ consistent py_str FMT_format s'.
Proof.
  intros Hs Hd. rewrite sort_dict_freqs_store by done.
  by apply load_dict_consistent, sort_stored_displayable.
Qed.

Lemma recalc_freqs_consistent s :
  (freq_locked (fil s) = true → f_S (fil s) ≠ Q2Qc 0) →
  displayable s →
  ∃ s', recalc_freqs py_str FMT_format to_html s = Ok tt s'
        ∧ consistent py_str FMT_format s'.
Proof.
  intros HfS Hd. unfold recalc_freqs. rewrite run_bind. cbn [get].
  destruct (freq_locked (fil s)) eqn:Hlock.
  - pose proof (recalc_loop s (displayable_labels s Hd) (HfS eq_refl))
      as Hloop.
    set (E' := rescale_all _ _ _ _) in *.
    set (s1 := with_fil (set_entries E') s) in *.
    set (s2 := with_sig_tx (λ l, l ++ [("specs_changed", "f_specs")]) s1).
    assert (Hd2 : displayable s2).
    { destruct Hd as [Hlen Hall]. split; [done|]. simpl.
      eapply Forall_impl; [exact Hall|]. intros n.
      apply rescale_all_is_Some. }
    destruct (load_dict_consistent py_str FMT_format s2 Hd2)
      as (s3 & Hload & _ & Hc3).
    cbv zeta in Hloop. rewrite run_bind, run_bind, Hloop.
    cbn [emit modify]. fold s2. rewrite (bind_Ok _ _ _ _ _ Hload).
    rewrite run_bind. cbn [get modify]. eexists. split; [done|]. exact Hc3.
  - destruct (load_dict_consistent py_str FMT_format s Hd)
      as (s1 & Hload & _ & Hc1).
    rewrite (bind_Ok (mret tt) _ s tt s eq_refl).
    rewrite (bind_Ok _ _ _ _ _ Hload).
    rewrite run_bind. cbn [get modify]. eexists. split; [done|]. exact Hc1.
Qed.

Lemma _store_entry_consistent i s w prev :
  spec_edited s = true →
  qlineedit s !! i = Some w →
  data_prev s = Some prev →
  f_S (fil s) ≠ Q2Qc 0 →
  sortable s → displayable s →
  ∃ s', _store_entry safe_eval py_str FMT_format i s = Ok tt s'
        ∧ consistent py_str FMT_format s'.
Proof.
  intros Hed Hw Hprev HfS Hsort Hdisp. unfold _store_entry.
  rewrite run_bind. cbn [get]. rewrite Hed, Hprev.
  rewrite (bind_Ok _ _ _ _ _ (qlineedit_at_Ok _ _ _ Hw)).
  rewrite (bind_Ok (mret prev) _ s prev s eq_refl).
  rewrite (bind_Ok _ _ _ _ _ (py_div_Ok _ _ _ HfS)).
  rewrite run_bind. cbn [fil_update modify].
  set (s1 := with_fil _ s).
  destruct (sort_dict_freqs_consistent s1) as (s2 & Hrun & _ & Hc2);
    [by apply stored_sortable|by apply stored_displayable|].
  rewrite (bind_Ok _ _ _ _ _ Hrun).
  rewrite run_bind. cbn [emit modify].
  eexists. split; [done|]. exact Hc2.
Qed.
End consistency.

(** X8.  The display follows the store.  On a sortable, displayable
    widget with [f_S ≠ 0], [sort_dict_freqs], [recalc_freqs] and a
    committed edit return, and every line edit, hidden ones included, then
    shows the value now
    stored for it times [f_S], in full when it has the focus and formatted
    otherwise, and its style state is normal exactly when that value lies in
    (0, 1/2). *)
Theorem display_follows_store safe_eval py_str FMT_format to_html s :
  sortable s → displayable s →
  f_S (fil s) ≠ Q2Qc 0 →
  (∃ s', sort_dict_freqs py_str FMT_format s = Ok tt s'
         ∧ consistent py_str FMT_format s')
  ∧ (∃ s', recalc_freqs py_str FMT_format to_html s = Ok tt s'
           ∧ consistent py_str FMT_format s')
  ∧ (∀ i w prev, spec_edited s = true → qlineedit s !! i = Some w →
       data_prev s = Some prev →
       ∃ s', eventFilter safe_eval py_str FMT_format i FocusOut s = Ok tt s'
             ∧ consistent py_str FMT_format s').
Proof.
  intros Hsort Hd HfS. split_and!.
  - destruct (sort_dict_freqs_consistent py_str FMT_format s Hsort Hd)
      as (s' & Hrun & _ & Hc). by exists s'.
  - by apply recalc_freqs_consistent.
  - intros i w prev Hed Hw Hprev.
    by apply (_store_entry_consistent safe_eval py_str FMT_format i s w prev).
Qed.

Lemma display_follows_store_witness :
  let s := typed 1 "0.1" "3/10" (two_fields fil_scenario) in
  sortable s ∧ displayable s
  ∧ f_S (fil s) ≠ Q2Qc 0
  ∧ (∃ s', sort_dict_freqs show_ratio show_ratio s = Ok tt s'
           ∧ consistent show_ratio show_ratio s')
  ∧ (∃ s', recalc_freqs show_ratio show_ratio plain_html s = Ok tt s'
           ∧ consistent show_ratio show_ratio s')
  ∧ (∀ i w prev, spec_edited s = true → qlineedit s !! i = Some w →
       data_prev s = Some prev →
       ∃ s', eventFilter eval_literal show_ratio show_ratio i FocusOut s
             = Ok tt s'
             ∧ consistent show_ratio show_ratio s').
Proof.
  intros s. split; [by_compute|]. split; [by_compute|]. split; [by_compute|].
  apply display_follows_store; by_compute.
Defined.

(** ** Showing, creating and naming widgets *)

Lemma length_on_range {A} (f : nat → A → A) a b l :
  length (on_range f a b l) = length l.
Proof. apply length_imap. Qed.

Lemma lookup_on_range {A} (f : nat → A → A) a b l j :
  on_range f a b l !! j
  = (if decide (a ≤ j ∧ j < b) then f j else id) <$> l !! j.
Proof.
  unfold on_range. rewrite list_lookup_imap.
  destruct (l !! j); simpl; [|done]. by case_decide.
Qed.

Lemma on_range_empty {A} (f : nat → A → A) a b l :
  b ≤ a → on_range f a b l = l.
Proof.
  intros Hba. apply list_eq. intros j. rewrite lookup_on_range.
  rewrite decide_False by lia. by destruct (l !! j).
Qed.

Lemma on_range_step {A} (f : nat → A → A) a i l :
  a ≤ i → alter (f i) i (on_range f a i l) = on_range f a (S i) l.
Proof.
  intros Hai. apply list_eq. intros j. rewrite !lookup_on_range.
  destruct (decide (i = j)) as [<-|Hne].
  - rewrite list_lookup_alter_eq, lookup_on_range.
    rewrite decide_False, decide_True by lia. by destruct (l !! i).
  - rewrite list_lookup_alter_ne, lookup_on_range by done.
    destruct (l !! j); simpl; [|done]. repeat case_decide; done || lia.
Qed.

Lemma fmap_on_range_same {A B} (p : A → B) (f : nat → A → A) a b l :
  (∀ j x, p (f j x) = p x) → p <$> on_range f a b l = p <$> l.
Proof.
  intros Hp. apply list_eq. intros j.
  rewrite !list_lookup_fmap, lookup_on_range.
  destruct (l !! j); simpl; [|done]. case_decide; simpl; by rewrite ?Hp.
Qed.

Lemma alter_app_last {A} (f : A → A) l x :
  alter f (length l) (l ++ [x]) = l ++ [f x].
Proof. rewrite alter_app_r_alt by done. by rewrite Nat.sub_diag. Qed.

Lemma set_visibility_empty h a b s : b ≤ a → set_visibility h a b s = s.
Proof.
  intros Hba. unfold set_visibility, with_qlineedit, with_qlabels. simpl.
  rewrite !on_range_empty by done. by destruct s.
Qed.

Lemma add_widgets_0 to_html s : add_widgets to_html 0 s = s.
Proof.
  unfold add_widgets, with_qlineedit, with_qlabels. simpl.
  rewrite !app_nil_r. by destruct s.
Qed.

(** Lines 342-344 and 347-349. *)
Lemma visibility_loop h a b s :
  length (qlabels s) = length (qlineedit s) → b ≤ length (qlabels s) →
  for_each (range a b) (λ i,
    on_qlabel i (lbl_setHidden h);; on_qlineedit i (setHidden h)) s
  = Ok tt (set_visibility h a b s).
Proof.
  intros Hlen Hb. unfold range.
  destruct (decide (a ≤ b)) as [Hab|Hab].
  - edestruct (for_each_seq_inv (λ i s1, s1 = set_visibility h a i s)
                 (λ i, on_qlabel i (lbl_setHidden h);;
                       on_qlineedit i (setHidden h)) (b - a) a s)
      as (s' & Hrun & ->).
    + intros i s1 Hi ->.
      assert (is_Some (qlabels (set_visibility h a i s) !! i)) as [l Hl].
      { apply lookup_lt_is_Some_2. simpl. rewrite length_on_range. lia. }
      rewrite (bind_Ok _ _ _ _ _ (on_qlabel_Ok _ _ _ _ Hl)).
      assert (is_Some (qlineedit (set_visibility h a i s) !! i)) as [w Hw].
      { apply lookup_lt_is_Some_2. simpl. rewrite length_on_range. lia. }
      eexists. split; [by apply (on_qlineedit_Ok _ _ _ w)|].
      unfold set_visibility, with_qlineedit, with_qlabels. simpl.
      f_equal; apply (on_range_step (λ _, _)); lia.
    + by rewrite set_visibility_empty.
    + rewrite Hrun. do 2 f_equal. lia.
  - replace (b - a) with 0 by lia. simpl.
    rewrite set_visibility_empty by lia. done.
Qed.

(** Lines 352-357. *)
Lemma creation_loop to_html a k s :
  length (qlabels s) = a → length (qlineedit s) = a →
  for_each (seq a k) (λ i,
    modify (with_qlabels (λ l, l ++ [new_QLabel]));;
    on_qlabel i (lbl_setText (to_html "dummy" "bi"));;
    modify (with_qlineedit (λ l, l ++ [new_QLineEdit]));;
    on_qlineedit i (setObjectName "dummy")) s
  = Ok tt (add_widgets to_html k s).
Proof.
  intros Hl Hw.
  edestruct (for_each_seq_inv (λ i s1, s1 = add_widgets to_html (i - a) s)
               (λ i, modify (with_qlabels (λ l, l ++ [new_QLabel]));;
                     on_qlabel i (lbl_setText (to_html "dummy" "bi"));;
                     modify (with_qlineedit (λ l, l ++ [new_QLineEdit]));;
                     on_qlineedit i (setObjectName "dummy")) k a s)
    as (s' & Hrun & ->).
  - intros i s1 Hi ->. rewrite run_bind. cbn [modify].
    set (s1 := with_qlabels _ _).
    assert (Hl1 : qlabels s1 !! i = Some new_QLabel).
    { simpl. rewrite lookup_app_r; rewrite length_app, length_replicate, Hl;
        [|lia]. by replace (i - (a + (i - a))) with 0 by lia. }
    rewrite (bind_Ok _ _ _ _ _ (on_qlabel_Ok _ _ _ _ Hl1)).
    rewrite run_bind. cbn [modify].
    set (s2 := with_qlineedit _ _).
    assert (Hw2 : qlineedit s2 !! i = Some new_QLineEdit).
    { simpl. rewrite lookup_app_r; rewrite length_app, length_replicate, Hw;
        [|lia]. by replace (i - (a + (i - a))) with 0 by lia. }
    eexists. split; [by apply (on_qlineedit_Ok _ _ _ new_QLineEdit)|].
    subst s1 s2. unfold add_widgets, with_qlineedit, with_qlabels. simpl.
    replace (S i - a) with (S (i - a)) by lia. rewrite !replicate_S_end.
    rewrite !(assoc_L (++)).
    f_equal.
    + replace i with (length (qlabels s ++ replicate (i - a) (dummy_label to_html)))
        at 1 by (rewrite length_app, length_replicate; lia).
      by rewrite alter_app_last.
    + replace i with (length (qlineedit s ++ replicate (i - a) dummy_edit))
        at 1 by (rewrite length_app, length_replicate; lia).
      by rewrite alter_app_last.
  - by rewrite Nat.sub_diag, add_widgets_0.
  - rewrite Hrun. do 2 f_equal. lia.
Qed.

Section entries_shown.
Variable to_html : string → string → string.

(** [_show_entries] cannot fail once the two widget lists have the same
    length, and does what [shown_entries] says. *)
Lemma _show_entries_exact n s :
  length (qlabels s) = length (qlineedit s) →
  _show_entries to_html n s = Ok tt (shown_entries to_html n s).
Proof.
  intros Hlen. unfold _show_entries, shown_entries.
  rewrite run_bind. cbn [get]. cbv zeta.
  repeat case_decide.
  - by apply visibility_loop.
  - by apply visibility_loop.
  - unfold range. by apply creation_loop.
Qed.

Lemma shown_entries_length n s :
  length (qlabels s) = length (qlineedit s) →
  n_cur_labels s ≤ length (qlineedit s) →
  length (qlineedit (shown_entries to_html n s))
  = length (qlineedit s) `max` n
  ∧ length (qlabels (shown_entries to_html n s))
    = length (qlineedit (shown_entries to_html n s)).
Proof.
  intros Hlen Hcur. unfold shown_entries. cbv zeta.
  repeat case_decide; simpl;
    rewrite ?length_on_range, ?length_app, ?length_replicate; lia.
Qed.

Lemma shown_entries_fields n s :
  fil (shown_entries to_html n s) = fil s
  ∧ n_cur_labels (shown_entries to_html n s) = n_cur_labels s
  ∧ sig_tx (shown_entries to_html n s) = sig_tx s
  ∧ log (shown_entries to_html n s) = log s
  ∧ spec_edited (shown_entries to_html n s) = spec_edited s
  ∧ data_prev (shown_entries to_html n s) = data_prev s.
Proof. unfold shown_entries. cbv zeta. by repeat case_decide. Qed.

(** The names of the line edits there were; the new ones are called dummy. *)
Lemma shown_entries_names n s :
  n_cur_labels s ≤ length (qlabels s) →
  objectName <$> qlineedit (shown_entries to_html n s)
  = (objectName <$> qlineedit s)
    ++ replicate (n - length (qlabels s)) "dummy".
Proof.
  intros Hcur. unfold shown_entries. cbv zeta. repeat case_decide; simpl.
  - rewrite fmap_on_range_same by done.
    replace (n - _) with 0 by lia. by rewrite app_nil_r.
  - rewrite fmap_on_range_same by done.
    replace (n - _) with 0 by lia. by rewrite app_nil_r.
  - by rewrite fmap_app, fmap_replicate.
Qed.
End entries_shown.

Section naming.
Variable py_str : float → string.
Variable to_html : string → string → string.

(** Lines 197-203 for the labels [0 .. k-1]. *)
Lemma naming_loop state labels k s :
  k ≤ length labels → k ≤ length (qlabels s) → k ≤ length (qlineedit s) →
  (∀ j lab, j < k → labels !! j = Some lab →
     lab ≠ EmptyString ∧ is_Some (entries (fil s) !! lab)) →
  for_each (seq 0 k) (λ i,
    match labels !! i with
    | None => raise IndexError
    | Some lab =>
        _ ← qlabels_at i;
        match lab with
        | EmptyString => raise IndexError
        | String c rest =>
            on_qlabel i (lbl_setText (to_html (String (lower c) rest) "bi"))
        end;;
        _ ← qlineedit_at i;
        v ← fil_get lab;
        on_qlineedit i (setText (py_str v));;
        on_qlineedit i (setObjectName lab);;
        on_qlineedit i (qstyle_widget state)
    end) s
  = Ok tt (named py_str to_html state labels k s).
Proof.
  intros Hk Hl Hw Hok.
  edestruct (for_each_seq_inv
               (λ i s1, s1 = named py_str to_html state labels i s)
               (λ i,
    match labels !! i with
    | None => raise IndexError
    | Some lab =>
        _ ← qlabels_at i;
        match lab with
        | EmptyString => raise IndexError
        | String c rest =>
            on_qlabel i (lbl_setText (to_html (String (lower c) rest) "bi"))
        end;;
        _ ← qlineedit_at i;
        v ← fil_get lab;
        on_qlineedit i (setText (py_str v));;
        on_qlineedit i (setObjectName lab);;
        on_qlineedit i (qstyle_widget state)
    end) k 0 s) as (s' & Hrun & ->); [| |exact Hrun].
  - intros i s1 Hi ->.
    assert (is_Some (labels !! i)) as [lab Hlab]
      by (apply lookup_lt_is_Some_2; lia).
    rewrite Hlab. destruct (Hok i lab) as [Hne [v Hv]]; [lia|done|].
    set (s1 := named py_str to_html state labels i s).
    assert (is_Some (qlabels s1 !! i)) as [l Hl1].
    { apply lookup_lt_is_Some_2. simpl. rewrite length_on_range. lia. }
    rewrite (bind_Ok _ _ _ _ _ (qlabels_at_Ok _ _ _ Hl1)).
    destruct lab as [|c rest]; [done|].
    rewrite (bind_Ok _ _ _ _ _ (on_qlabel_Ok _ _ _ _ Hl1)).
    set (s2 := with_qlabels _ s1).
    assert (is_Some (qlineedit s2 !! i)) as [w Hw2].
    { apply lookup_lt_is_Some_2. simpl. rewrite length_on_range. lia. }
    rewrite (bind_Ok _ _ _ _ _ (qlineedit_at_Ok _ _ _ Hw2)).
    rewrite (bind_Ok _ _ _ _ _ (fil_get_Ok (String c rest) s2 v Hv)).
    rewrite (bind_Ok _ _ _ _ _ (on_qlineedit_Ok _ _ _ _ Hw2)).
    set (s3 := with_qlineedit _ s2).
    assert (Hw3 : qlineedit s3 !! i = Some (setText (py_str v) w)).
    { change (qlineedit s3) with (alter (setText (py_str v)) i (qlineedit s2)).
      by rewrite list_lookup_alter_eq, Hw2. }
    rewrite (bind_Ok _ _ _ _ _ (on_qlineedit_Ok _ _ _ _ Hw3)).
    set (s4 := with_qlineedit _ s3).
    assert (Hw4 : qlineedit s4 !! i
                  = Some (setObjectName (String c rest) (setText (py_str v) w))).
    { change (qlineedit s4)
        with (alter (setObjectName (String c rest)) i (qlineedit s3)).
      by rewrite list_lookup_alter_eq, Hw3. }
    eexists. split; [by eapply on_qlineedit_Ok|].
    subst s4 s3 s2 s1. unfold named, with_qlineedit, with_qlabels. simpl.
    f_equal.
    + rewrite <-on_range_step by lia. apply list_alter_ext; [|done].
      intros x _. unfold name_label. by rewrite Hlab.
    + rewrite <-on_range_step by lia. rewrite !list_alter_alter_eq.
      apply list_alter_ext; [|done].
      intros x _. unfold name_edit. rewrite Hlab. simpl.
      unfold entry. by rewrite Hv.
  - unfold named, with_qlineedit, with_qlabels. simpl.
    rewrite !on_range_empty by lia. by destruct s.
Qed.

Lemma named_fields state labels k s :
  fil (named py_str to_html state labels k s) = fil s
  ∧ n_cur_labels (named py_str to_html state labels k s) = n_cur_labels s
  ∧ sig_tx (named py_str to_html state labels k s) = sig_tx s
  ∧ log (named py_str to_html state labels k s) = log s
  ∧ length (qlineedit (named py_str to_html state labels k s))
    = length (qlineedit s)
  ∧ length (qlabels (named py_str to_html state labels k s))
    = length (qlabels s).
Proof. simpl. by rewrite !length_on_range. Qed.

(** The first [k] line edits carry the labels, the others their old names. *)
Lemma named_names state labels k s :
  k ≤ length labels → k ≤ length (qlineedit s) →
  objectName <$> qlineedit (named py_str to_html state labels k s)
  = take k labels ++ drop k (objectName <$> qlineedit s).
Proof.
  intros Hk Hw. apply list_eq. intros j. simpl.
  rewrite list_lookup_fmap, lookup_on_range.
  destruct (decide (j < k)) as [Hj|Hj].
  - rewrite decide_True by lia.
    rewrite lookup_app_l by (rewrite length_take; lia).
    rewrite lookup_take_lt by done.
    assert (is_Some (labels !! j)) as [lab Hlab]
      by (apply lookup_lt_is_Some_2; lia).
    assert (is_Some (qlineedit s !! j)) as [w Hwj]
      by (apply lookup_lt_is_Some_2; lia).
    rewrite Hwj, Hlab. simpl. unfold name_edit. by rewrite Hlab.
  - rewrite decide_False by lia.
    rewrite lookup_app_r; rewrite length_take, Nat.min_l by lia; [|lia].
    rewrite lookup_drop, list_lookup_fmap.
    replace (k + (j - k)) with j by lia. by destruct (qlineedit s !! j).
Qed.

Lemma named_hidden state labels k s :
  hidden <$> qlineedit (named py_str to_html state labels k s)
  = hidden <$> qlineedit s.
Proof.
  simpl. apply fmap_on_range_same. intros j x. unfold name_edit.
  by destruct (labels !! j).
Qed.
End naming.

(** ** Relabelling *)

Section relabel.
Variable py_str : float → string.
Variable FMT_format : float → string.
Variable to_html : string → string → string.

Lemma update_UI_sorts state labels s :
  length (qlabels s) = length (qlineedit s) →
  n_cur_labels s ≤ length (qlineedit s) →
  Forall (λ lab, lab ≠ EmptyString ∧ is_Some (entries (fil s) !! lab)) labels →
  update_UI py_str FMT_format to_html (state :: labels) s
  = sort_dict_freqs py_str FMT_format
      (relabelled py_str to_html state labels s).
Proof.
  intros Hlen Hcur Hok. unfold update_UI. cbv zeta.
  rewrite (bind_Ok _ _ _ _ _ (_show_entries_exact to_html _ s Hlen)).
  destruct (shown_entries_length to_html (length labels) s Hlen Hcur)
    as [Hw Hl].
  destruct (shown_entries_fields to_html (length labels) s)
    as (Hfil & _).
  rewrite range_0.
  rewrite (bind_Ok _ _ _ _ _
             (naming_loop py_str to_html state labels (length labels)
                (shown_entries to_html (length labels) s)
                ltac:(done) ltac:(lia) ltac:(lia)
                ltac:(intros j lab _ Hj; rewrite Hfil;
                      exact (proj1 (Forall_lookup _ _) Hok j lab Hj)))).
  by rewrite run_bind.
Qed.

Lemma relabelled_names state labels s :
  length (qlabels s) = length (qlineedit s) →
  n_cur_labels s ≤ length (qlineedit s) →
  objectName <$> qlineedit (relabelled py_str to_html state labels s)
  = labels ++ drop (length labels) (objectName <$> qlineedit s).
Proof.
  intros Hlen Hcur. unfold relabelled.
  destruct (shown_entries_length to_html (length labels) s Hlen Hcur)
    as [Hw Hl].
  change (qlineedit (with_n_cur_labels ?n ?x)) with (qlineedit x).
  rewrite named_names by lia.
  rewrite firstn_all, shown_entries_names by lia.
  f_equal.
  destruct (decide (length labels ≤ length (qlabels s))) as [Hle|Hgt].
  - replace (length labels - length (qlabels s)) with 0 by lia.
    simpl. by rewrite app_nil_r.
  - rewrite !drop_ge; [done|rewrite length_fmap; lia|].
    rewrite length_app, length_fmap, length_replicate. lia.
Qed.
End relabel.

Section relabel_props.
Variable py_str : float → string.
Variable to_html : string → string → string.

Lemma relabelled_fields state labels s :
  fil (relabelled py_str to_html state labels s) = fil s
  ∧ sig_tx (relabelled py_str to_html state labels s) = sig_tx s
  ∧ log (relabelled py_str to_html state labels s) = log s
  ∧ n_cur_labels (relabelled py_str to_html state labels s) = length labels.
Proof.
  destruct (shown_entries_fields to_html (length labels) s)
    as (Hfil & _ & Hsig & Hlog & _).
  unfold relabelled. simpl. by rewrite Hfil, Hsig, Hlog.
Qed.

Lemma relabelled_length state labels s :
  length (qlabels s) = length (qlineedit s) →
  n_cur_labels s ≤ length (qlineedit s) →
  length (qlineedit (relabelled py_str to_html state labels s))
  = length (qlineedit s) `max` length labels
  ∧ length (qlabels (relabelled py_str to_html state labels s))
    = length (qlineedit (relabelled py_str to_html state labels s)).
Proof.
  intros Hlen Hcur.
  destruct (shown_entries_length to_html (length labels) s Hlen Hcur)
    as [Hw Hl].
  unfold relabelled. simpl. rewrite !length_on_range. by rewrite Hw, Hl.
Qed.

Lemma relabelled_active_names state labels s :
  length (qlabels s) = length (qlineedit s) →
  n_cur_labels s ≤ length (qlineedit s) →
  active_names (relabelled py_str to_html state labels s) = labels.
Proof.
  intros Hlen Hcur. unfold active_names, active.
  rewrite fmap_take, relabelled_names by done.
  destruct (relabelled_fields state labels s) as (_ & _ & _ & ->).
  by rewrite take_app_length.
Qed.

Lemma relabelled_sortable state labels s :
  well_formed s → Forall (label_ok (entries (fil s))) labels →
  sortable (relabelled py_str to_html state labels s).
Proof.
  intros (Hlen & Hcur & Hdisp) Hok. split.
  - destruct (relabelled_length state labels s Hlen Hcur) as [-> _].
    destruct (relabelled_fields state labels s) as (_ & _ & _ & ->). lia.
  - rewrite relabelled_active_names by done.
    destruct (relabelled_fields state labels s) as (-> & _).
    eapply Forall_impl; [exact Hok|]. by intros lab (_ & ? & _).
Qed.

Lemma relabelled_displayable state labels s :
  well_formed s → Forall (label_ok (entries (fil s))) labels →
  displayable (relabelled py_str to_html state labels s).
Proof.
  intros (Hlen & Hcur & Hdisp) Hok. split.
  - destruct (relabelled_length state labels s Hlen Hcur) as [_ ->]. done.
  - rewrite relabelled_names by done.
    destruct (relabelled_fields state labels s) as (-> & _).
    apply Forall_app. split.
    + eapply Forall_impl; [exact Hok|]. by intros lab (_ & _ & ?).
    + apply Forall_drop. by destruct Hdisp.
Qed.

Lemma update_UI_Ok FMT_format state labels s :
  well_formed s → Forall (label_ok (entries (fil s))) labels →
  ∃ s', update_UI py_str FMT_format to_html (state :: labels) s = Ok tt s'
    ∧ display_only (sort_stored (relabelled py_str to_html state labels s)) s'
    ∧ consistent py_str FMT_format s'.
Proof.
  intros Hwf Hok. pose proof Hwf as (Hlen & Hcur & Hdisp).
  rewrite update_UI_sorts; [|done|done|].
  - apply sort_dict_freqs_consistent;
      [by apply relabelled_sortable|by apply relabelled_displayable].
  - eapply Forall_impl; [exact Hok|]. by intros lab (? & ? & _).
Qed.
End relabel_props.

(** X9.  [update_UI] with labels that have stored values.  On a widget
    whose line edits all have a label widget and a stored value, called
    with a state and labels that are not empty and are stored under their
    full name and under the part before the colon, [update_UI] completes:
    the first line edits carry the labels in their order and are the
    active ones, the line edits behind them keep their names, line edits
    are created only as far as the labels need them, every stored value
    under another key and, with sorting off, the whole filter dictionary
    are as before, no signal is emitted, and the widget is again well
    formed, sortable and shows what is stored. *)
Theorem update_UI_shows_labels py_str FMT_format to_html state labels s :
  well_formed s →
  Forall (label_ok (entries (fil s))) labels →
  ∃ s', update_UI py_str FMT_format to_html (state :: labels) s = Ok tt s'
    ∧ n_cur_labels s' = length labels
    ∧ active_names s' = labels
    ∧ objectName <$> qlineedit s'
      = labels ++ drop (length labels) (objectName <$> qlineedit s)
    ∧ length (qlineedit s') = length (qlineedit s) `max` length labels
    ∧ (∀ k, k ∉ labels → entries (fil s') !! k = entries (fil s) !! k)
    ∧ (freq_specs_sort (fil s) = false → fil s' = fil s)
    ∧ sig_tx s' = sig_tx s
    ∧ well_formed s' ∧ sortable s' ∧ consistent py_str FMT_format s'.
Proof.
  intros Hwf Hok. pose proof Hwf as (Hlen & Hcur & Hdisp).
  set (r := relabelled py_str to_html state labels s).
  pose proof (relabelled_sortable py_str to_html state labels s Hwf Hok)
    as Hsort_r.
  pose proof (relabelled_displayable py_str to_html state labels s Hwf Hok)
    as Hdisp_r.
  pose proof (relabelled_names py_str to_html state labels s Hlen Hcur)
    as Hnames_r.
  pose proof (relabelled_active_names py_str to_html state labels s Hlen Hcur)
    as Hactive_r.
  destruct (relabelled_fields py_str to_html state labels s)
    as (Hfil_r & Hsig_r & _ & Hcur_r).
  destruct (relabelled_length py_str to_html state labels s Hlen Hcur)
    as [Hw_r Hl_r].
  fold r in Hsort_r, Hdisp_r, Hnames_r, Hactive_r, Hfil_r, Hsig_r, Hcur_r,
    Hw_r, Hl_r.
  destruct (update_UI_Ok py_str to_html FMT_format state labels s Hwf Hok)
    as (s' & Hrun & [Hfil Hsig _ Hshape] & Hcons).
  fold r in Hfil, Hsig, Hshape.
  exists s'. split; [exact Hrun|]. clearbody r.
  pose proof (shape_names _ _ Hshape) as Hnames.
  pose proof (shape_n_cur _ _ Hshape) as Hn.
  change (qlineedit (sort_stored r)) with (qlineedit r) in Hnames.
  change (n_cur_labels (sort_stored r)) with (n_cur_labels r) in Hn.
  change (sig_tx (sort_stored r)) with (sig_tx r) in Hsig.
  assert (Hw' : length (qlineedit s') = length (qlineedit r)).
  { by rewrite <-(length_fmap objectName), Hnames, length_fmap. }
  assert (Hl' : length (qlabels s') = length (qlabels r)).
  { rewrite <-(length_fmap lbl_hidden), (shape_labels _ _ Hshape).
    by rewrite length_fmap. }
  assert (Hactive : active_names s' = labels).
  { unfold active_names, active in *.
    by rewrite fmap_take, Hnames, Hn, <-fmap_take. }
  assert (Hdisp' : displayable s').
  { apply (displayable_names (sort_stored r)); [done|done|by rewrite Hfil|].
    by apply sort_stored_displayable. }
  split; [congruence|]. split; [done|]. split; [congruence|].
  split; [congruence|]. split.
  { intros k Hk. rewrite Hfil. unfold sort_stored. simpl.
    rewrite write_back_other; [by rewrite Hfil_r|].
    fold (active_names r). by rewrite Hactive_r. }
  split.
  { intros Hoff. rewrite Hfil. unfold sort_stored, active_values. simpl.
    rewrite Hfil_r, Hoff. simpl. destruct Hsort_r as [_ Hstored].
    rewrite Hfil_r in Hstored. rewrite write_back_same by exact Hstored.
    apply set_entries_same. }
  split; [congruence|]. split.
  { split; [congruence|]. split; [|done]. rewrite Hn, Hcur_r, Hw', Hw_r. lia. }
  split; [|done]. split.
  - rewrite Hn, Hcur_r, Hw', Hw_r. lia.
  - rewrite Hactive. rewrite Hfil. simpl.
    eapply Forall_impl; [exact Hok|]. intros lab (_ & Hlab & _).
    apply write_back_is_Some. by rewrite Hfil_r.
Qed.

Lemma update_UI_shows_labels_witness :
  let s := one_field fil_Hz in
  let labels := ["F_SB"; "F_PB"; "F_SB"] in
  well_formed s
  ∧ Forall (label_ok (entries (fil s))) labels
  ∧ ∃ s', update_UI show_ratio show_ratio plain_html ("normal" :: labels) s
          = Ok tt s'
    ∧ n_cur_labels s' = length labels
    ∧ active_names s' = labels
    ∧ objectName <$> qlineedit s'
      = labels ++ drop (length labels) (objectName <$> qlineedit s)
    ∧ length (qlineedit s') = length (qlineedit s) `max` length labels
    ∧ (∀ k, k ∉ labels → entries (fil s') !! k = entries (fil s) !! k)
    ∧ (freq_specs_sort (fil s) = false → fil s' = fil s)
    ∧ sig_tx s' = sig_tx s
    ∧ well_formed s' ∧ sortable s' ∧ consistent show_ratio show_ratio s'.
Proof.
  intros s labels. split; [by_compute|]. split; [by_compute|].
  apply update_UI_shows_labels; by_compute.
Defined.

(** ** Visibility *)

Lemma tidy_lookup s :
  n_cur_labels s ≤ length (qlineedit s) →
  tidy s ↔ ∀ j w, qlineedit s !! j = Some w →
                  hidden w = bool_decide (n_cur_labels s ≤ j).
Proof.
  intros Hcur. unfold tidy. split.
  - intros Heq j w Hw.
    assert ((hidden <$> qlineedit s) !! j = Some (hidden w)) as Hj
      by by rewrite list_lookup_fmap, Hw.
    rewrite Heq in Hj. apply lookup_lt_Some in Hw.
    destruct (decide (j < n_cur_labels s)) as [Hlt|Hge].
    + rewrite lookup_app_l in Hj by (rewrite length_replicate; lia).
      apply lookup_replicate in Hj as [-> _].
      by rewrite bool_decide_eq_false_2 by lia.
    + rewrite lookup_app_r in Hj by (rewrite length_replicate; lia).
      apply lookup_replicate in Hj as [-> _].
      by rewrite bool_decide_eq_true_2 by lia.
  - intros Hall. apply list_eq. intros j. rewrite list_lookup_fmap.
    destruct (qlineedit s !! j) as [w|] eqn:Hw; simpl.
    + rewrite (Hall j w Hw). apply lookup_lt_Some in Hw. symmetry.
      destruct (decide (j < n_cur_labels s)) as [Hlt|Hge].
      * rewrite lookup_app_l by (rewrite length_replicate; lia).
        rewrite bool_decide_eq_false_2 by lia.
        by apply lookup_replicate_2.
      * rewrite lookup_app_r by (rewrite length_replicate; lia).
        rewrite bool_decide_eq_true_2 by lia.
        apply lookup_replicate_2. rewrite length_replicate. lia.
    + apply lookup_ge_None in Hw. symmetry. apply lookup_ge_None.
      rewrite length_app, !length_replicate. lia.
Qed.

Section visibility.
Variable py_str : float → string.
Variable FMT_format : float → string.
Variable to_html : string → string → string.

(** What a completed [update_UI] leaves of the visibility is what
    [_show_entries] has made of it. *)
Lemma update_UI_hidden state labels s :
  well_formed s → Forall (label_ok (entries (fil s))) labels →
  hidden <$> qlineedit
    (final (update_UI py_str FMT_format to_html (state :: labels) s))
  = hidden <$> qlineedit (shown_entries to_html (length labels) s).
Proof.
  intros Hwf Hok.
  destruct (update_UI_Ok py_str to_html FMT_format state labels s Hwf Hok)
    as (s' & -> & [_ _ _ Hshape] & _). simpl.
  rewrite (shape_hidden _ _ Hshape).
  change (qlineedit (sort_stored ?r)) with (qlineedit r).
  unfold relabelled.
  change (qlineedit (with_n_cur_labels ?n ?x)) with (qlineedit x).
  apply named_hidden.
Qed.

Lemma update_UI_size state labels s :
  well_formed s → Forall (label_ok (entries (fil s))) labels →
  n_cur_labels
    (final (update_UI py_str FMT_format to_html (state :: labels) s))
  = length labels
  ∧ length (qlineedit
      (final (update_UI py_str FMT_format to_html (state :: labels) s)))
    = length (qlineedit s) `max` length labels.
Proof.
  intros Hwf Hok. pose proof Hwf as (Hlen & Hcur & _).
  destruct (update_UI_Ok py_str to_html FMT_format state labels s Hwf Hok)
    as (s' & -> & [_ _ _ Hshape] & _). simpl.
  destruct (relabelled_fields py_str to_html state labels s)
    as (_ & _ & _ & Hn).
  destruct (relabelled_length py_str to_html state labels s Hlen Hcur)
    as [Hw _].
  split.
  - by rewrite (shape_n_cur _ _ Hshape).
  - rewrite <-(length_fmap objectName), (shape_names _ _ Hshape).
    by rewrite length_fmap.
Qed.
End visibility.

Lemma hidden_set_visibility h a b (l : list QLineEdit) j :
  (hidden <$> on_range (λ _, setHidden h) a b l) !! j
  = (λ w, if decide (a ≤ j ∧ j < b) then h else hidden w) <$> l !! j.
Proof.
  rewrite list_lookup_fmap, lookup_on_range.
  destruct (l !! j); simpl; [|done]. by case_decide.
Qed.

(** The visibility [_show_entries] leaves on a tidy widget. *)
Lemma shown_entries_tidy to_html n s :
  length (qlabels s) = length (qlineedit s) →
  n_cur_labels s ≤ length (qlineedit s) →
  tidy s →
  hidden <$> qlineedit (shown_entries to_html n s)
  = if decide (n ≤ length (qlineedit s))
    then replicate n false ++ replicate (length (qlineedit s) - n) true
    else replicate (n_cur_labels s) false
         ++ replicate (length (qlineedit s) - n_cur_labels s) true
         ++ replicate (n - length (qlineedit s)) false.
Proof.
  intros Hlen Hcur Htidy.
  pose proof (proj1 (tidy_lookup s Hcur) Htidy) as Hall.
  assert (Hvis : ∀ h a b,
    (h = true ∧ a < n_cur_labels s ∧ b = length (qlineedit s) ∧ a = n)
    ∨ (h = false ∧ a = n_cur_labels s ∧ b = n
       ∧ n_cur_labels s ≤ n ≤ length (qlineedit s)) →
    hidden <$> on_range (λ _, setHidden h) a b (qlineedit s)
    = replicate n false ++ replicate (length (qlineedit s) - n) true).
  { intros h a b Hcase. apply list_eq. intros j.
    rewrite hidden_set_visibility.
    destruct (qlineedit s !! j) as [w|] eqn:Hw; simpl.
    - rewrite (Hall j w Hw). apply lookup_lt_Some in Hw. symmetry.
      destruct (decide (j < n)) as [Hlt|Hge].
      + rewrite lookup_app_l by (rewrite length_replicate; lia).
        rewrite lookup_replicate_2 by done. f_equal.
        destruct Hcase as [(-> & ? & -> & ->)|(-> & -> & -> & ?)];
          case_decide; try done; try lia.
        all: by rewrite bool_decide_eq_false_2 by lia.
      + rewrite lookup_app_r by (rewrite length_replicate; lia).
        rewrite lookup_replicate_2 by (rewrite length_replicate; lia).
        f_equal.
        destruct Hcase as [(-> & ? & -> & ->)|(-> & -> & -> & ?)];
          case_decide; try done; try lia.
        all: by rewrite bool_decide_eq_true_2 by lia.
    - apply lookup_ge_None in Hw. symmetry. apply lookup_ge_None.
      rewrite length_app, !length_replicate. lia. }
  unfold shown_entries. cbv zeta. rewrite Hlen.
  destruct (decide (n < n_cur_labels s)).
  - rewrite decide_True by lia. simpl. apply Hvis. left. lia.
  - destruct (decide (n ≤ length (qlineedit s))).
    + simpl. apply Hvis. right. lia.
    + simpl. rewrite fmap_app, fmap_replicate. simpl.
      rewrite Htidy. by rewrite <-(assoc_L (++)).
Qed.

(** X10.  Which line edits are visible after [update_UI].  Take a well
    formed widget on which exactly the active line edits are visible, and
    labels with stored values.  After [update_UI] exactly the active line
    edits are visible again, unless line edits had to be created while
    hidden ones existed: the creating branch of [_show_entries] shows
    none of the line edits there were, so the hidden ones stay hidden
    although they now carry a label and are counted as active. *)
Theorem update_UI_visibility py_str FMT_format to_html state labels s :
  well_formed s → Forall (label_ok (entries (fil s))) labels → tidy s →
  let s' := final (update_UI py_str FMT_format to_html (state :: labels) s) in
  (tidy s' ↔ ¬ (n_cur_labels s < length (qlineedit s) < length labels))
  ∧ (length (qlineedit s) < length labels →
     take (length (qlineedit s)) (hidden <$> qlineedit s')
     = hidden <$> qlineedit s).
Proof.
  intros Hwf Hok Htidy s'. pose proof Hwf as (Hlen & Hcur & _).
  destruct (update_UI_size py_str FMT_format to_html state labels s Hwf Hok)
    as [Hn' Hlen'].
  pose proof (update_UI_hidden py_str FMT_format to_html state labels s
                Hwf Hok) as Hhid.
  fold s' in Hn', Hlen', Hhid. clearbody s'.
  rewrite (shown_entries_tidy to_html _ s Hlen Hcur Htidy) in Hhid.
  unfold tidy at 1. rewrite Hhid, Hn', Hlen'.
  pose proof Htidy as Hlist. unfold tidy in Hlist.
  set (n := length labels) in *. set (tot := length (qlineedit s)) in *.
  set (cur := n_cur_labels s) in *.
  destruct (decide (n ≤ tot)) as [Hle|Hgt].
  - split; [|lia]. replace (tot `max` n - n) with (tot - n) by lia.
    split; [lia|done].
  - replace (tot `max` n - n) with 0 by lia. simpl. rewrite app_nil_r.
    split.
    + split.
      * intros Heq [Hlt _].
        assert ((replicate cur false ++ replicate (tot - cur) true
                 ++ replicate (n - tot) false) !! cur = Some true) as Hc.
        { rewrite lookup_app_r by (rewrite length_replicate; lia).
          rewrite length_replicate, Nat.sub_diag.
          rewrite lookup_app_l by (rewrite length_replicate; lia).
          apply lookup_replicate_2. lia. }
        rewrite Heq in Hc. by apply lookup_replicate in Hc as [? _].
      * intros Hnot. assert (cur = tot) as -> by lia.
        rewrite Nat.sub_diag. simpl. rewrite <-replicate_add.
        f_equal. lia.
    + intros _. rewrite (assoc_L (++)), <-Hlist.
      rewrite take_app_length'; [done|].
      by rewrite length_fmap.
Qed.

Lemma update_UI_visibility_witness :
  let s := one_field fil_Hz in
  let labels := ["F_SB"; "F_PB"; "F_SB"] in
  well_formed s ∧ Forall (label_ok (entries (fil s))) labels ∧ tidy s
  ∧ let s' := final (update_UI show_ratio show_ratio plain_html
                       ("normal" :: labels) s) in
    (tidy s' ↔ ¬ (n_cur_labels s < length (qlineedit s) < length labels))
    ∧ (length (qlineedit s) < length labels →
       take (length (qlineedit s)) (hidden <$> qlineedit s')
       = hidden <$> qlineedit s).
Proof.
  intros s labels. split; [by_compute|]. split; [by_compute|].
  split; [by_compute|]. apply update_UI_visibility; by_compute.
Defined.

(** ** Failing half way *)

Lemma for_each_app {A} (l1 l2 : list A) (body : A → M unit) s :
  for_each (l1 ++ l2) body s
  = match for_each l1 body s with
    | Ok _ s1 => for_each l2 body s1
    | Raise e s1 => Raise e s1
    end.
Proof.
  revert s. induction l1 as [|x l1 IH]; intros s; simpl; [done|].
  rewrite !run_bind. destruct (body x s) as [[] s1|e s1]; [apply IH|done].
Qed.

(** A loop over [range(0, n)] whose iteration [i] raises after the
    iterations before it have completed. *)
Lemma for_each_seq_raise (body : nat → M unit) n i s s1 e s2 :
  i < n →
  for_each (seq 0 i) body s = Ok tt s1 →
  body i s1 = Raise e s2 →
  for_each (seq 0 n) body s = Raise e s2.
Proof.
  intros Hi Hpre Hraise.
  replace n with (i + S (n - S i)) by lia.
  rewrite seq_app, for_each_app, Hpre. simpl.
  by rewrite (bind_Raise _ _ _ _ _ Hraise).
Qed.

Section errors.
Variable py_str : float → string.
Variable FMT_format : float → string.
Variable to_html : string → string → string.

Lemma update_UI_KeyError state labels i lab s :
  length (qlabels s) = length (qlineedit s) →
  n_cur_labels s ≤ length (qlineedit s) →
  labels !! i = Some lab → lab ≠ EmptyString →
  entries (fil s) !! lab = None →
  Forall (λ l, l ≠ EmptyString ∧ is_Some (entries (fil s) !! l))
         (take i labels) →
  update_UI py_str FMT_format to_html (state :: labels) s
  = Raise (KeyError lab) (partly_named py_str to_html state labels i lab s).
Proof.
  intros Hlen Hcur Hlab Hne Hnone Hok. unfold update_UI. cbv zeta.
  rewrite (bind_Ok _ _ _ _ _ (_show_entries_exact to_html _ s Hlen)).
  destruct (shown_entries_length to_html (length labels) s Hlen Hcur)
    as [Hw Hl].
  destruct (shown_entries_fields to_html (length labels) s) as (Hfil & _).
  pose proof (lookup_lt_Some _ _ _ Hlab) as Hi.
  rewrite range_0. apply bind_Raise.
  set (s1 := shown_entries to_html (length labels) s) in *.
  eapply (for_each_seq_raise _ (length labels) i); [done| |].
  - apply (naming_loop py_str to_html state labels i s1); [lia|lia|lia|].
    intros j l Hj Hjl. rewrite Hfil.
    apply (proj1 (Forall_lookup _ _) Hok j l).
    by rewrite lookup_take_lt.
  - cbv beta. rewrite Hlab.
    set (s2 := named py_str to_html state labels i s1).
    assert (is_Some (qlabels s2 !! i)) as [l Hl2].
    { apply lookup_lt_is_Some_2. unfold s2. simpl.
      rewrite length_on_range. lia. }
    rewrite (bind_Ok _ _ _ _ _ (qlabels_at_Ok _ _ _ Hl2)).
    destruct lab as [|c rest]; [done|].
    rewrite (bind_Ok _ _ _ _ _ (on_qlabel_Ok _ _ _ _ Hl2)).
    set (s3 := with_qlabels _ s2).
    assert (is_Some (qlineedit s3 !! i)) as [w Hw3].
    { apply lookup_lt_is_Some_2. unfold s3, s2. simpl.
      rewrite length_on_range. lia. }
    rewrite (bind_Ok _ _ _ _ _ (qlineedit_at_Ok _ _ _ Hw3)).
    apply bind_Raise. unfold fil_get.
    change (fil s3) with (fil s1). by rewrite Hfil, Hnone.
Qed.
End errors.

(** X11.  [update_UI] is not all or nothing.  Called without labels, as
    its default argument allows, it raises [IndexError] at once.  Called
    with a label that has no stored value, after labels that have one, it
    raises [KeyError] for that label only after [_show_entries] has hidden,
    shown or created line edits and the line edits before the label have
    been renamed; the filter dictionary, the signals, the log and
    [n_cur_labels] are as before.  So when fewer labels were given than
    line edits were active, the line edits behind the labels are hidden
    while [n_cur_labels] still counts them as active. *)
Theorem update_UI_fails_half_way py_str FMT_format to_html state labels i lab s :
  length (qlabels s) = length (qlineedit s) →
  n_cur_labels s ≤ length (qlineedit s) →
  labels !! i = Some lab → lab ≠ EmptyString →
  entries (fil s) !! lab = None →
  Forall (λ l, l ≠ EmptyString ∧ is_Some (entries (fil s) !! l))
         (take i labels) →
  update_UI py_str FMT_format to_html [] s = Raise IndexError s
  ∧ ∃ s', update_UI py_str FMT_format to_html (state :: labels) s
          = Raise (KeyError lab) s'
    ∧ fil s' = fil s ∧ sig_tx s' = sig_tx s ∧ log s' = log s
    ∧ n_cur_labels s' = n_cur_labels s
    ∧ length (qlineedit s') = length (qlineedit s) `max` length labels
    ∧ objectName <$> qlineedit s'
      = take i labels
        ++ drop i ((objectName <$> qlineedit s)
                   ++ replicate (length labels - length (qlineedit s)) "dummy")
    ∧ (length labels < n_cur_labels s →
       ∀ j w, length labels ≤ j → qlineedit s' !! j = Some w →
              hidden w = true).
Proof.
  intros Hlen Hcur Hlab Hne Hnone Hok. split; [done|].
  eexists. split; [by apply update_UI_KeyError|].
  destruct (shown_entries_length to_html (length labels) s Hlen Hcur)
    as [Hw Hl].
  destruct (shown_entries_fields to_html (length labels) s)
    as (Hfil & Hn & Hsig & Hlog & _).
  pose proof (lookup_lt_Some _ _ _ Hlab) as Hi.
  unfold partly_named.
  change (fil (with_qlabels ?f ?x)) with (fil x).
  change (sig_tx (with_qlabels ?f ?x)) with (sig_tx x).
  change (log (with_qlabels ?f ?x)) with (log x).
  change (n_cur_labels (with_qlabels ?f ?x)) with (n_cur_labels x).
  change (qlineedit (with_qlabels ?f ?x)) with (qlineedit x).
  set (s1 := shown_entries to_html (length labels) s) in *.
  destruct (named_fields py_str to_html state labels i s1)
    as (-> & -> & -> & -> & Hlen_n & _).
  split; [done|]. split; [done|]. split; [done|]. split; [done|].
  split; [by rewrite Hlen_n|]. split.
  - rewrite named_names by lia. unfold s1.
    rewrite shown_entries_names by lia. by rewrite Hlen.
  - intros Hless j w Hj Hjw.
    assert ((hidden <$> qlineedit s1) !! j = Some (hidden w)) as Hh.
    { rewrite <-(named_hidden py_str to_html state labels i s1).
      by rewrite list_lookup_fmap, Hjw. }
    unfold s1, shown_entries in Hh. cbv zeta in Hh.
    rewrite decide_True in Hh by done. simpl in Hh.
    rewrite hidden_set_visibility in Hh.
    destruct (qlineedit s !! j) as [w0|] eqn:Hw0; simpl in Hh; [|done].
    apply lookup_lt_Some in Hw0. rewrite decide_True in Hh by lia.
    by simplify_eq.
Qed.

Lemma update_UI_fails_half_way_witness :
  let s := two_fields fil_Hz in
  let labels := ["F_XX"] in
  length (qlabels s) = length (qlineedit s)
  ∧ n_cur_labels s ≤ length (qlineedit s)
  ∧ labels !! 0 = Some "F_XX" ∧ "F_XX" ≠ EmptyString
  ∧ entries (fil s) !! "F_XX" = None
  ∧ Forall (λ l, l ≠ EmptyString ∧ is_Some (entries (fil s) !! l))
           (take 0 labels)
  ∧ update_UI show_ratio show_ratio plain_html [] s = Raise IndexError s
  ∧ ∃ s', update_UI show_ratio show_ratio plain_html ("normal" :: labels) s
          = Raise (KeyError "F_XX") s'
    ∧ fil s' = fil s ∧ sig_tx s' = sig_tx s ∧ log s' = log s
    ∧ n_cur_labels s' = n_cur_labels s
    ∧ length (qlineedit s') = length (qlineedit s) `max` length labels
    ∧ objectName <$> qlineedit s'
      = take 0 labels
        ++ drop 0 ((objectName <$> qlineedit s)
                   ++ replicate (length labels - length (qlineedit s)) "dummy")
    ∧ (length labels < n_cur_labels s →
       ∀ j w, length labels ≤ j → qlineedit s' !! j = Some w →
              hidden w = true).
Proof.
  intros s labels. split; [by_compute|]. split; [by_compute|].
  split; [done|]. split; [done|]. split; [by vm_compute|].
  split; [by_compute|].
  apply update_UI_fails_half_way; first [done|by_compute|by vm_compute].
Defined.

(** ** Layout and reachable states *)

#[global] Instance same_layout_preorder : PreOrder same_layout.
Proof.
  split.
  - by intros s.
  - intros s1 s2 s3 [] []. split; congruence.
Qed.

#[global] Instance stays_paired_preorder n : PreOrder (stays_paired n).
Proof.
  split.
  - intros s Hs. exact Hs.
  - intros s1 s2 s3 H12 H23 H1. by apply H23, H12.
Qed.

Lemma same_layout_paired n s s' : same_layout s s' → stays_paired n s s'.
Proof.
  intros [Hnames _ _ Hlabels Hcur] [[Hlen Hn] Hk].
  assert (length (qlineedit s') = length (qlineedit s)) as Hw.
  { by rewrite <-(length_fmap objectName), Hnames, length_fmap. }
  assert (length (qlabels s') = length (qlabels s)) as Hl.
  { by rewrite <-(length_fmap lbl_hidden), Hlabels, length_fmap. }
  unfold paired. rewrite Hw, Hl, Hcur. done.
Qed.

Lemma preserves_weaken (R R' : relation FreqSpecs) {A} (m : M A) :
  (∀ s s', R s s' → R' s s') → preserves R m → preserves R' m.
Proof. intros HR Hm s. apply HR, Hm. Qed.

Lemma same_layout_setText t i s :
  same_layout s (with_qlineedit (alter (setText t) i) s).
Proof. split; simpl; try done; by apply fmap_alter_same. Qed.

Lemma same_layout_qstyle_widget st i s :
  same_layout s (with_qlineedit (alter (qstyle_widget st) i) s).
Proof. split; simpl; try done; by apply fmap_alter_same. Qed.

Lemma same_layout_lbl_setText t i s :
  same_layout s (with_qlabels (alter (lbl_setText t) i) s).
Proof. split; simpl; try done; by apply fmap_alter_same. Qed.

Lemma same_layout_with_fil f s : same_layout s (with_fil f s).
Proof. by split. Qed.
Lemma same_layout_with_sig_tx f s : same_layout s (with_sig_tx f s).
Proof. by split. Qed.
Lemma same_layout_with_log f s : same_layout s (with_log f s).
Proof. by split. Qed.
Lemma same_layout_with_spec_edited b s : same_layout s (with_spec_edited b s).
Proof. by split. Qed.
Lemma same_layout_with_data_prev t s : same_layout s (with_data_prev t s).
Proof. by split. Qed.
Lemma same_layout_with_lblUnit t s : same_layout s (with_lblUnit t s).
Proof. by split. Qed.

Lemma stays_paired_qlineedit n f i s :
  stays_paired n s (with_qlineedit (alter f i) s).
Proof. unfold stays_paired, paired. simpl. by rewrite length_alter. Qed.

Lemma stays_paired_qlabels n f i s :
  stays_paired n s (with_qlabels (alter f i) s).
Proof. unfold stays_paired, paired. simpl. by rewrite length_alter. Qed.

Lemma stays_paired_n_cur n s : stays_paired n s (with_n_cur_labels n s).
Proof. unfold stays_paired, paired. simpl. by intros [[Hlen _] Hn]. Qed.

#[global] Hint Resolve same_layout_setText same_layout_qstyle_widget
  same_layout_lbl_setText same_layout_with_fil same_layout_with_sig_tx
  same_layout_with_log same_layout_with_spec_edited
  same_layout_with_data_prev same_layout_with_lblUnit
  stays_paired_qlineedit stays_paired_qlabels stays_paired_n_cur : pres.

Section layout.
Variable safe_eval : string → string → float.
Variable py_str : float → string.
Variable FMT_format : float → string.
Variable to_html : string → string → string.

Lemma update_f_display_same_layout i :
  preserves same_layout (update_f_display py_str FMT_format i).
Proof. unfold update_f_display. pres. Qed.

Lemma load_dict_same_layout :
  preserves same_layout (load_dict py_str FMT_format).
Proof. unfold load_dict. pres. apply update_f_display_same_layout. Qed.

Lemma recalc_freqs_same_layout :
  preserves same_layout (recalc_freqs py_str FMT_format to_html).
Proof. unfold recalc_freqs. pres; apply load_dict_same_layout. Qed.

Lemma sort_dict_freqs_same_layout :
  preserves same_layout (sort_dict_freqs py_str FMT_format).
Proof. unfold sort_dict_freqs. pres; apply load_dict_same_layout. Qed.

Lemma _store_entry_same_layout i :
  preserves same_layout (_store_entry safe_eval py_str FMT_format i).
Proof.
  unfold _store_entry. pres;
    first [apply sort_dict_freqs_same_layout
          |apply update_f_display_same_layout].
Qed.

Lemma eventFilter_same_layout i e :
  preserves same_layout (eventFilter safe_eval py_str FMT_format i e).
Proof.
  unfold eventFilter. pres;
    first [apply _store_entry_same_layout
          |apply update_f_display_same_layout].
Qed.

Lemma process_sig_rx_same_layout d :
  preserves same_layout (process_sig_rx py_str FMT_format to_html d).
Proof. unfold process_sig_rx. pres. apply recalc_freqs_same_layout. Qed.

Lemma shown_entries_paired n s :
  paired s →
  paired (shown_entries to_html n s)
  ∧ n ≤ length (qlineedit (shown_entries to_html n s)).
Proof.
  intros [Hlen Hcur].
  destruct (shown_entries_length to_html n s Hlen Hcur) as [Hw Hl].
  destruct (shown_entries_fields to_html n s) as (_ & Hn & _).
  unfold paired. rewrite Hl, Hn, Hw. lia.
Qed.

Lemma update_UI_paired new_labels s :
  paired s →
  paired (final (update_UI py_str FMT_format to_html new_labels s)).
Proof.
  intros Hp. destruct new_labels as [|state labels]; [done|].
  unfold update_UI. cbv zeta.
  rewrite (bind_Ok _ _ _ _ _ (_show_entries_exact to_html _ s (proj1 Hp))).
  apply shown_entries_paired with (n := length labels) in Hp.
  revert Hp. generalize (shown_entries to_html (length labels) s).
  intros s1 Hp.
  match goal with
  | |- paired (final (?m s1)) =>
      assert (preserves (stays_paired (length labels)) m) as Hm
  end.
  { pres. eapply preserves_weaken; [apply same_layout_paired|].
    apply sort_dict_freqs_same_layout. }
  by apply (Hm s1).
Qed.
End layout.

Lemma paired_same_layout s s' : same_layout s s' → paired s → paired s'.
Proof.
  intros Hl Hp. destruct (same_layout_paired 0 s s' Hl) as [Hp' _]; [|done].
  split; [done|lia].
Qed.

(** X12.  The event filter and the signal handler leave the layout alone:
    whatever the event or signal and whether they end with a result or an
    exception, every line edit keeps its name, focus and visibility, every
    label its visibility, and [n_cur_labels] its value.  Names, visibility
    and the number of active line edits are changed by [update_UI] only. *)
Theorem handlers_keep_layout safe_eval py_str FMT_format to_html s :
  (∀ i e, same_layout s
            (final (eventFilter safe_eval py_str FMT_format i e s)))
  ∧ (∀ d, same_layout s
            (final (process_sig_rx py_str FMT_format to_html d s))).
Proof.
  split.
  - intros i e. apply eventFilter_same_layout.
  - intros d. apply process_sig_rx_same_layout.
Qed.

(** X13.  In every reachable state the widget lists are paired: there
    are as many label widgets as line edits, and [n_cur_labels] does not
    exceed their number.  This holds after calls that raised an exception
    too, so [qlabels[i]] and [qlineedit[i]] exist for every active [i]. *)
Theorem reachable_paired safe_eval py_str FMT_format to_html s :
  reachable safe_eval py_str FMT_format to_html s → paired s.
Proof.
  induction 1 as [id d|s i e _ IH|s d _ IH|s new_labels _ IH|s f _ IH
                 |s i t _ IH|s i b _ IH].
  - by split.
  - eapply paired_same_layout; [|exact IH]. apply eventFilter_same_layout.
  - eapply paired_same_layout; [|exact IH]. apply process_sig_rx_same_layout.
  - by apply update_UI_paired.
  - exact IH.
  - unfold paired, type_text in *. simpl. by rewrite length_alter.
  - unfold paired in *. simpl. by rewrite length_alter.
Qed.

Lemma reachable_paired_witness :
  let s := final (update_UI show_ratio show_ratio plain_html
                    ["normal"; "F_XX"] (two_fields fil_Hz)) in
  reachable eval_literal show_ratio show_ratio plain_html s ∧ paired s.
Proof.
  intros s.
  assert (reachable eval_literal show_ratio show_ratio plain_html s) as Hs.
  { apply reach_update_UI. unfold two_fields, run_update_UI.
    apply reach_update_UI. apply reach_init. }
  split; [exact Hs|]. exact (reachable_paired _ _ _ _ s Hs).
Defined.

(** ** What [load_dict] writes *)

Section exact.
Variable py_str : float → string.
Variable FMT_format : float → string.

(** Lines 248-284, with every field of the state. *)
Lemma update_f_display_exact i s w v :
  qlineedit s !! i = Some w →
  entries (fil s) !! split_colon (objectName w) = Some v →
  update_f_display py_str FMT_format i s
  = Ok tt (with_log (λ l, l ++ range_warning (objectName w) v)
             (with_qlineedit
                (alter (refresh py_str FMT_format (fil s)) i) s)).
Proof.
  intros Hw Hv. unfold update_f_display.
  rewrite (bind_Ok _ _ _ _ _ (qlineedit_at_Ok _ _ _ Hw)).
  rewrite (bind_Ok _ _ _ _ _ (fil_get_Ok _ _ _ Hv)).
  rewrite run_bind. cbn [get].
  set (t := shown_text py_str FMT_format w v (f_S (fil s))).
  set (s1 := with_qlineedit (alter (setText t) i) s).
  assert (Hw1 : qlineedit s1 !! i = Some (setText t w)).
  { unfold s1. simpl. by rewrite list_lookup_alter_eq, Hw. }
  assert (Hset : ∀ (k : unit → M unit),
    ((if hasFocus w
      then on_qlineedit i (setText (py_str (f_value_of v (f_S (fil s)))))
      else on_qlineedit i (setText (FMT_format (f_value_of v (f_S (fil s))))))
     ≫= k) s = k tt s1).
  { intros k. subst s1 t. unfold shown_text.
    destruct (hasFocus w);
      by rewrite (bind_Ok _ _ _ _ _ (on_qlineedit_Ok _ _ _ _ Hw)). }
  rewrite Hset. clear Hset.
  assert (Hcomp : ∀ st,
    st = (if decide (in_range v) then "normal" else "failed") →
    alter (qstyle_widget st) i (alter (setText t) i (qlineedit s))
    = alter (refresh py_str FMT_format (fil s)) i (qlineedit s)).
  { intros st ->. rewrite list_alter_alter_eq.
    apply list_alter_ext; [|done]. intros x Hx. rewrite Hw in Hx.
    simplify_eq. unfold refresh, entry. simpl. by rewrite Hv. }
  assert (Hfin : ∀ st ws,
    st = (if decide (in_range v) then "normal" else "failed") →
    on_qlineedit i (qstyle_widget st) (with_log (λ l, l ++ ws) s1)
    = Ok tt (with_log (λ l, l ++ ws)
               (with_qlineedit
                  (alter (refresh py_str FMT_format (fil s)) i) s))).
  { intros st ws Hst.
    rewrite (on_qlineedit_Ok _ _ _ (setText t w)) by done.
    unfold s1, with_log, with_qlineedit. simpl. by rewrite Hcomp. }
  unfold range_warning.
  destruct (decide (v ≤ Q2Qc 0)%Qc) as [Hle|Hgt].
  - rewrite run_bind. cbn [logger_warning modify]. apply Hfin.
    rewrite decide_False; [done|].
    intros [Hpos _]. by apply Qclt_not_le in Hpos.
  - destruct (decide (Q2Qc (1 # 2) ≤ v)%Qc) as [Hny|Hlt].
    + rewrite run_bind. cbn [logger_warning modify]. apply Hfin.
      rewrite decide_False; [done|].
      intros [_ Hlt]. by apply Qclt_not_le in Hlt.
    + rewrite <-(with_log_nil s1). rewrite Hfin; [done|].
      rewrite decide_True; [done|]. split; by apply Qcnot_le_lt.
Qed.

Lemma on_range_all {A} (f : A → A) (l : list A) :
  on_range (λ _, f) 0 (length l) l = f <$> l.
Proof.
  apply list_eq. intros j. rewrite lookup_on_range, list_lookup_fmap.
  destruct (l !! j) eqn:Hj; simpl; [|done].
  apply lookup_lt_Some in Hj. rewrite decide_True by lia. done.
Qed.

Lemma lookup_on_range_ge {A} (f : nat → A → A) a b l j :
  b ≤ j → on_range f a b l !! j = l !! j.
Proof.
  intros Hj. rewrite lookup_on_range, decide_False by lia.
  by destruct (l !! j).
Qed.

(** Lines 287-319: [load_dict] cannot fail on a displayable widget, and
    does what [loaded] says. *)
Lemma load_dict_exact s :
  displayable s →
  load_dict py_str FMT_format s = Ok tt (loaded py_str FMT_format s).
Proof.
  intros [Hlen Hall]. unfold load_dict. rewrite run_bind. cbn [get].
  rewrite range_0.
  edestruct (for_each_seq_inv
               (λ k s1, s1 = loaded_upto py_str FMT_format k s)
               (λ i, update_f_display py_str FMT_format i;;
                     l ← qlabels_at i;
                     s0 ← get;
                     let lbl_text :=
                       if relative_unit (freq_specs_unit (fil s0))
                       then re_sub_fF "F" (lbl_text l)
                       else re_sub_fF "f" (lbl_text l) in
                     on_qlabel i (lbl_setText lbl_text))
               (length (qlineedit s)) 0 s) as (s' & Hrun & ->);
    [| |exact Hrun].
  - intros i s1 [_ Hi] ->. simpl in Hi.
    assert (is_Some (qlineedit s !! i)) as [w Hw]
      by by apply lookup_lt_is_Some_2.
    assert (is_Some (qlabels s !! i)) as [l Hl]
      by (apply lookup_lt_is_Some_2; lia).
    assert (is_Some (entries (fil s) !! split_colon (objectName w)))
      as [v Hv].
    { rewrite Forall_fmap, Forall_lookup in Hall. by apply (Hall i w). }
    set (s1 := loaded_upto py_str FMT_format i s).
    assert (Hw1 : qlineedit s1 !! i = Some w).
    { unfold s1. simpl. by rewrite lookup_on_range_ge. }
    rewrite (bind_Ok _ _ _ _ _
               (update_f_display_exact i s1 w v Hw1 Hv)).
    set (s2 := with_log _ _).
    assert (Hl2 : qlabels s2 !! i = Some l).
    { unfold s2, s1. simpl. by rewrite lookup_on_range_ge. }
    rewrite (bind_Ok _ _ _ _ _ (qlabels_at_Ok _ _ _ Hl2)).
    rewrite run_bind. cbn [get]. cbv zeta.
    eexists. split; [by apply (on_qlabel_Ok _ _ _ l)|].
    unfold s2, s1, loaded_upto, with_log, with_qlabels, with_qlineedit.
    simpl. f_equal.
    + rewrite <-(on_range_step (λ _, recase (fil s))) by lia.
      apply list_alter_ext; [|done]. intros x Hx.
      rewrite lookup_on_range_ge, Hl in Hx by done. simplify_eq.
      unfold recase, unit_case. by destruct (relative_unit _).
    + by rewrite <-(on_range_step (λ _, refresh py_str FMT_format (fil s)))
        by lia.
    + rewrite <-(assoc_L (++)). f_equal.
      rewrite (take_S_r _ _ w) by done. unfold range_warnings.
      rewrite bind_app. f_equal. simpl. rewrite app_nil_r.
      unfold entry. by rewrite Hv.
  - unfold loaded_upto, with_log, with_qlabels, with_qlineedit. simpl.
    rewrite !on_range_empty by lia. rewrite app_nil_r. by destruct s.
Qed.
End exact.

Lemma re_sub_fF_absorbs c c' t :
  c' = "f"%char ∨ c' = "F"%char →
  re_sub_fF c (re_sub_fF c' t) = re_sub_fF c t.
Proof.
  intros Hc'. induction t as [|a t IH]; simpl; [done|]. rewrite IH. f_equal.
  destruct (Ascii.eqb a "f" || Ascii.eqb a "F") eqn:Ha; [|by rewrite Ha].
  by destruct Hc' as [-> | ->].
Qed.

Lemma unit_case_fF d : unit_case d = "f"%char ∨ unit_case d = "F"%char.
Proof. unfold unit_case. destruct (relative_unit _); auto. Qed.

Lemma recase_absorbs d d' l : recase d' (recase d l) = recase d' l.
Proof.
  unfold recase, lbl_setText. simpl. f_equal.
  apply re_sub_fF_absorbs, unit_case_fF.
Qed.

Lemma refresh_names py_str FMT_format d w :
  objectName (refresh py_str FMT_format d w) = objectName w.
Proof. done. Qed.

Lemma refresh_idemp py_str FMT_format d w :
  refresh py_str FMT_format d (refresh py_str FMT_format d w)
  = refresh py_str FMT_format d w.
Proof. done. Qed.

Lemma refresh_qstyle_widget py_str FMT_format d st w :
  refresh py_str FMT_format d (qstyle_widget st w)
  = refresh py_str FMT_format d w.
Proof. done. Qed.

Lemma range_warnings_names d ws ws' :
  objectName <$> ws = objectName <$> ws' →
  range_warnings d ws = range_warnings d ws'.
Proof.
  revert ws'. induction ws as [|w ws IH]; intros [|w' ws'] Hn;
    simplify_eq/=; [done|].
  unfold range_warnings in *. simpl. rewrite H. f_equal. by apply IH.
Qed.

Lemma loaded_fields py_str FMT_format s :
  fil (loaded py_str FMT_format s) = fil s
  ∧ qlineedit (loaded py_str FMT_format s)
    = refresh py_str FMT_format (fil s) <$> qlineedit s
  ∧ qlabels (loaded py_str FMT_format s)
    = on_range (λ _, recase (fil s)) 0 (length (qlineedit s)) (qlabels s)
  ∧ log (loaded py_str FMT_format s)
    = log s ++ range_warnings (fil s) (qlineedit s).
Proof.
  unfold loaded, loaded_upto. simpl.
  by rewrite on_range_all, firstn_all.
Qed.

Lemma loaded_displayable py_str FMT_format s :
  displayable s → displayable (loaded py_str FMT_format s).
Proof.
  intros [Hlen Hall].
  destruct (loaded_fields py_str FMT_format s) as (Hfil & Hw & Hl & _).
  split.
  - by rewrite Hw, Hl, length_fmap, length_on_range.
  - rewrite Hfil, Hw, <-list_fmap_compose. exact Hall.
Qed.

(** X14.  [load_dict] recomputes the screen from the store.  On a widget
    whose line edits all have a label widget and a stored value it
    completes; every line edit then has the text and the style state that
    follow from its name, its focus and the filter dictionary, whatever it
    showed before, and in every label text that belongs to a line edit all
    letters f and F have the case of the unit, so that the case they had
    is lost.  Running it again changes no line edit, no label and no stored
    value and logs the same range warnings once more. *)
Theorem load_dict_recomputes py_str FMT_format s :
  displayable s →
  ∃ s1 s2,
    load_dict py_str FMT_format s = Ok tt s1
    ∧ load_dict py_str FMT_format s1 = Ok tt s2
    ∧ fil s1 = fil s
    ∧ qlineedit s1 = refresh py_str FMT_format (fil s) <$> qlineedit s
    ∧ (∀ i l, i < length (qlineedit s) → qlabels s !! i = Some l →
         qlabels s1 !! i
         = Some (lbl_setText (re_sub_fF (unit_case (fil s)) (lbl_text l)) l))
    ∧ log s1 = log s ++ range_warnings (fil s) (qlineedit s)
    ∧ fil s2 = fil s1 ∧ qlineedit s2 = qlineedit s1 ∧ qlabels s2 = qlabels s1
    ∧ log s2 = log s1 ++ range_warnings (fil s) (qlineedit s).
Proof.
  intros Hd.
  pose proof (loaded_displayable py_str FMT_format s Hd) as Hd1.
  destruct (loaded_fields py_str FMT_format s) as (Hfil & Hw & Hl & Hlog).
  destruct (loaded_fields py_str FMT_format (loaded py_str FMT_format s))
    as (Hfil2 & Hw2 & Hl2 & Hlog2).
  exists (loaded py_str FMT_format s),
         (loaded py_str FMT_format (loaded py_str FMT_format s)).
  split; [by apply load_dict_exact|]. split; [by apply load_dict_exact|].
  split; [done|]. split; [done|]. split.
  { intros i l Hi Hil. rewrite Hl, lookup_on_range, Hil. simpl.
    by rewrite decide_True by lia. }
  split; [done|]. split; [done|]. split.
  { by rewrite Hw2, Hfil, Hw, <-list_fmap_compose. }
  split.
  { rewrite Hl2, Hfil, Hl, Hw, length_fmap. apply list_eq. intros j.
    rewrite !lookup_on_range. destruct (qlabels s !! j); simpl; [|done].
    case_decide; [|done]. by rewrite recase_absorbs. }
  rewrite Hlog2, Hfil. f_equal. apply range_warnings_names.
  by rewrite Hw, <-list_fmap_compose.
Qed.

Lemma load_dict_recomputes_witness :
  let s := typed 1 "0.1" "3/10" (two_fields fil_scenario) in
  displayable s
  ∧ ∃ s1 s2,
      load_dict show_ratio show_ratio s = Ok tt s1
      ∧ load_dict show_ratio show_ratio s1 = Ok tt s2
      ∧ fil s1 = fil s
      ∧ qlineedit s1 = refresh show_ratio show_ratio (fil s) <$> qlineedit s
      ∧ (∀ i l, i < length (qlineedit s) → qlabels s !! i = Some l →
           qlabels s1 !! i
           = Some (lbl_setText (re_sub_fF (unit_case (fil s)) (lbl_text l)) l))
      ∧ log s1 = log s ++ range_warnings (fil s) (qlineedit s)
      ∧ fil s2 = fil s1 ∧ qlineedit s2 = qlineedit s1
      ∧ qlabels s2 = qlabels s1
      ∧ log s2 = log s1 ++ range_warnings (fil s) (qlineedit s).
Proof.
  intros s. split; [by_compute|]. apply load_dict_recomputes. by_compute.
Defined.

Lemma loaded_blank py_str FMT_format s :
  loaded py_str FMT_format (blank s) = loaded py_str FMT_format s.
Proof.
  unfold loaded, loaded_upto, blank, with_log, with_qlabels, with_qlineedit.
  simpl. rewrite length_fmap, !firstn_all2 by (rewrite ?length_fmap; lia).
  f_equal.
  - rewrite <-(length_fmap (qstyle_widget EmptyString)) at 1.
    rewrite !on_range_all. by rewrite <-list_fmap_compose.
  - f_equal. apply range_warnings_names. by rewrite <-list_fmap_compose.
Qed.

Lemma sort_stored_blank s : sort_stored (blank s) = blank (sort_stored s).
Proof.
  assert (Hact : active (blank s) = qstyle_widget EmptyString <$> active s).
  { unfold active, blank. simpl. by rewrite fmap_take. }
  assert (Hval : active_values (blank s) = active_values s).
  { unfold active_values. rewrite Hact. by rewrite <-list_fmap_compose. }
  unfold sort_stored. rewrite Hval, Hact.
  change (fil (blank s)) with (fil s).
  rewrite (write_back_names (qstyle_widget EmptyString <$> active s) (active s))
    by by rewrite <-list_fmap_compose.
  done.
Qed.

Lemma blank_relabelled py_str to_html st1 st2 labels s :
  blank (relabelled py_str to_html st1 labels s)
  = blank (relabelled py_str to_html st2 labels s).
Proof.
  unfold blank, relabelled, named, with_n_cur_labels, with_qlineedit,
    with_qlabels. simpl. f_equal.
  apply list_eq. intros j. rewrite !list_lookup_fmap, !lookup_on_range.
  destruct (_ !! j) as [w|]; simpl; [|done]. f_equal.
  case_decide; simpl; [|done]. unfold name_edit.
  by destruct (labels !! j).
Qed.

(** X15.  The state passed to [update_UI] does not reach the screen.
    [update_UI] sets the style state of the first line edits to the first
    element of its argument, and ends with [sort_dict_freqs], whose
    [load_dict] sets the style state of every line edit to normal or
    failed.  So on a well formed widget, with labels that have stored
    values, two calls that differ in the state only end in the same
    widget, which is the one [load_dict] computes from the renamed and
    sorted widget. *)
Theorem update_UI_ignores_state py_str FMT_format to_html st1 st2 labels s :
  well_formed s → Forall (label_ok (entries (fil s))) labels →
  update_UI py_str FMT_format to_html (st1 :: labels) s
  = update_UI py_str FMT_format to_html (st2 :: labels) s
  ∧ update_UI py_str FMT_format to_html (st1 :: labels) s
    = Ok tt (loaded py_str FMT_format
               (sort_stored (relabelled py_str to_html st1 labels s))).
Proof.
  intros Hwf Hok. pose proof Hwf as (Hlen & Hcur & _).
  assert (Hrun : ∀ st,
    update_UI py_str FMT_format to_html (st :: labels) s
    = Ok tt (loaded py_str FMT_format
               (sort_stored (relabelled py_str to_html st labels s)))).
  { intros st. rewrite update_UI_sorts; [|done|done|].
    - rewrite sort_dict_freqs_store by by apply relabelled_sortable.
      apply load_dict_exact, sort_stored_displayable.
      by apply relabelled_displayable.
    - eapply Forall_impl; [exact Hok|]. by intros lab (? & ? & _). }
  split; [|apply Hrun]. rewrite !Hrun. f_equal.
  rewrite <-(loaded_blank _ _ (sort_stored (relabelled _ _ st1 _ _))).
  rewrite <-(loaded_blank _ _ (sort_stored (relabelled _ _ st2 _ _))).
  rewrite <-!sort_stored_blank.
  by rewrite (blank_relabelled py_str to_html st1 st2).
Qed.

Lemma update_UI_ignores_state_witness :
  let s := one_field fil_Hz in
  let labels := ["F_SB"; "F_PB"] in
  well_formed s ∧ Forall (label_ok (entries (fil s))) labels
  ∧ update_UI show_ratio show_ratio plain_html ("normal" :: labels) s
    = update_UI show_ratio show_ratio plain_html ("F_SB2" :: labels) s
  ∧ update_UI show_ratio show_ratio plain_html ("normal" :: labels) s
    = Ok tt (loaded show_ratio show_ratio
               (sort_stored
                  (relabelled show_ratio plain_html "normal" labels s))).
Proof.
  intros s labels. split; [by_compute|]. split; [by_compute|].
  apply update_UI_ignores_state; by_compute.
Defined.

(** ** Commits that fail *)

Section failures.
Variable safe_eval : string → string → float.
Variable py_str : float → string.
Variable FMT_format : float → string.

(** [data_prev] is an attribute only after the first FocusIn. *)
Lemma _store_entry_fails i s w :
  spec_edited s = true →
  qlineedit s !! i = Some w →
  data_prev s = None →
  _store_entry safe_eval py_str FMT_format i s
  = Raise (AttributeError "data_prev") s.
Proof.
  intros Hed Hw Hprev. unfold _store_entry. rewrite run_bind. cbn [get].
  rewrite Hed, Hprev.
  by rewrite (bind_Ok _ _ _ _ _ (qlineedit_at_Ok _ _ _ Hw)).
Qed.
End failures.

(** X16.  A commit before the first FocusIn.  [data_prev] is not set by
    [__init__]; while it does not exist, the Return or Enter key raises
    [AttributeError]: nothing is stored, sorted or emitted and the display
    is not refreshed, but the edited flag stays set, so the loss of focus
    that follows raises the same exception again. *)
Theorem commit_fails_and_repeats safe_eval py_str FMT_format i key s w :
  key = Key_Return ∨ key = Key_Enter →
  qlineedit s !! i = Some w →
  data_prev s = None →
  eventFilter safe_eval py_str FMT_format i (KeyPress key) s
  = Raise (AttributeError "data_prev") (with_spec_edited true s)
  ∧ eventFilter safe_eval py_str FMT_format i FocusOut
      (with_spec_edited true s)
    = Raise (AttributeError "data_prev") (with_spec_edited true s).
Proof.
  intros Hkey Hw Hprev.
  assert (Hstore : _store_entry safe_eval py_str FMT_format i
                     (with_spec_edited true s)
                   = Raise (AttributeError "data_prev")
                       (with_spec_edited true s))
    by by apply (_store_entry_fails _ _ _ i _ w).
  split; [|exact Hstore].
  unfold eventFilter. rewrite run_bind. cbn [modify].
  by destruct Hkey as [-> | ->].
Qed.

Lemma commit_fails_and_repeats_witness :
  let s := two_fields fil_Hz in
  let w := mkQLineEdit "F_SB" "400/1" false false "normal" in
  (Key_Return = Key_Return ∨ Key_Return = Key_Enter)
  ∧ qlineedit s !! 0 = Some w
  ∧ data_prev s = None
  ∧ eventFilter eval_literal show_ratio show_ratio 0 (KeyPress Key_Return) s
    = Raise (AttributeError "data_prev") (with_spec_edited true s)
  ∧ eventFilter eval_literal show_ratio show_ratio 0 FocusOut
      (with_spec_edited true s)
    = Raise (AttributeError "data_prev") (with_spec_edited true s).
Proof.
  intros s w. split; [by left|]. split; [by vm_compute|].
  split; [by vm_compute|].
  apply (commit_fails_and_repeats _ _ _ 0 Key_Return s w);
    [by left|by vm_compute|by vm_compute].
Defined.
